(** * User store, orchestrator and connection registry

    A shallow embedding of the TypeScript sources

      - [src/models/User.model.ts]          (module [UserModel])
      - [src/repositories/UserRepository.ts] (module [UserRepository])
      - [src/services/UserService.ts]        (module [UserService])
      - [src/utils/WebSocketManager.ts]      (module [WebSocketManager])
      - [src/controllers/UserController.ts]  (module [UserController])
      - the WebSocket handlers of [src/index.ts] (module [App])

    Modelling conventions.

      - A JavaScript string is a [string]: a sequence of code units in the
        range 0..255.  [length] of a string is [String.length].
      - A [Date] is its time value, an integer number of milliseconds.
      - [new Date()] and [crypto.randomUUID()] read the environment.  The
        environment is part of the [World]: a clock and a source of
        identifiers, each with a counter of the readings made so far.
      - The heap of the process is the [World]: the array [users] owned by
        the repository and the set [connections] owned by the registry.
        A JavaScript [Set] iterates in insertion order, so it is a list
        without duplicates.
      - [throw], [try]/[catch] and mutation are a state-and-exception monad
        [M] over the [World].  An [async] method whose awaits are all on
        other such methods runs its body in order; [await] is [bind].
      - Observable effects ([JSON.stringify], [ws.send], [console.log],
        [console.error]) are appended to the [trace] of the world.
      - [JSON.stringify(event)] is kept symbolic: the payload [JSON_text e].
      - The optional fields of [UpdateUserDto] are [option]s: [None] is an
        absent field (request bodies are parsed JSON, which has no
        [undefined]).
      - The numbers [offset] and [limit] are integers, the lengths and
        counts of arrays natural numbers.
      - [findIndex] returns [None] where the source returns [-1].

    The file has three parts: the embedding of the sources, the
    vocabulary in which the properties are stated, and the properties
    with their proofs. *)

From Stdlib Require Import ZArith String Ascii List Bool Lia DecimalString DecimalNat.
From stdpp Require Import base list strings.

Set Default Proof Using "Type".
Local Open Scope string_scope.

(** ** Strings *)

(** The code units that [String.prototype.trim] strips and that [\s]
    matches, among the code units 0..255: TAB, LF, VT, FF, CR, SP, NBSP. *)
Definition isWhiteSpace (c : ascii) : bool :=
  let n := nat_of_ascii c in
  ((9 <=? n)%nat && (n <=? 13)%nat) || (n =? 32)%nat || (n =? 160)%nat.

Fixpoint trimStart (s : string) : string :=
  match s with
  | EmptyString => EmptyString
  | String c rest => if isWhiteSpace c then trimStart rest else s
  end.

Fixpoint trimEnd (s : string) : string :=
  match s with
  | EmptyString => EmptyString
  | String c rest =>
      match trimEnd rest with
      | EmptyString => if isWhiteSpace c then EmptyString else String c EmptyString
      | kept => String c kept
      end
  end.

(** [s.trim()] *)
Definition trim (s : string) : string := trimEnd (trimStart s).

(** Truthiness of a string value: only the empty string is falsy. *)
Definition truthy (s : string) : bool :=
  match s with
  | EmptyString => false
  | String _ _ => true
  end.

(** [s.includes(sub)] *)
Fixpoint includes (s sub : string) : bool :=
  String.prefix sub s
  || match s with
     | EmptyString => false
     | String _ rest => includes rest sub
     end.

(** [errors.join(sep)] *)
Definition join (sep : string) (parts : list string) : string :=
  String.concat sep parts.

(** A non-negative integer inside a template literal. *)
Definition String_of_nat (n : nat) : string :=
  NilZero.string_of_uint (Nat.to_uint n).

(** ** Regular expressions

    The fragment of regular expressions that the e-mail pattern uses,
    matched by derivatives.  A pattern written between [^] and [$] has to
    match the whole string. *)

Inductive regex : Type :=
| ReNone
| ReEps
| ReClass (p : ascii -> bool)
| ReSeq (r1 r2 : regex)
| ReAlt (r1 r2 : regex)
| ReStar (r : regex).

Fixpoint nullable (r : regex) : bool :=
  match r with
  | ReNone => false
  | ReEps => true
  | ReClass _ => false
  | ReSeq r1 r2 => nullable r1 && nullable r2
  | ReAlt r1 r2 => nullable r1 || nullable r2
  | ReStar _ => true
  end.

Fixpoint deriv (c : ascii) (r : regex) : regex :=
  match r with
  | ReNone => ReNone
  | ReEps => ReNone
  | ReClass p => if p c then ReEps else ReNone
  | ReSeq r1 r2 =>
      if nullable r1
      then ReAlt (ReSeq (deriv c r1) r2) (deriv c r2)
      else ReSeq (deriv c r1) r2
  | ReAlt r1 r2 => ReAlt (deriv c r1) (deriv c r2)
  | ReStar r1 => ReSeq (deriv c r1) (ReStar r1)
  end.

Fixpoint matches (r : regex) (s : string) : bool :=
  match s with
  | EmptyString => nullable r
  | String c rest => matches (deriv c r) rest
  end.

(** [r+] *)
Definition RePlus (r : regex) : regex := ReSeq r (ReStar r).

(** A literal character. *)
Definition ReChar (c : ascii) : regex := ReClass (Ascii.eqb c).

(** [[^\s@]] *)
Definition notSpaceNorAt (c : ascii) : bool :=
  negb (isWhiteSpace c || Ascii.eqb c "@"%char).

(** ** Data model ([src/types/user.types.ts]) *)

Definition Date := Z.

Record User : Type := mkUser {
  id : string;
  name : string;
  email : string;
  createdAt : Date;
  updatedAt : Date;
}.

Record CreateUserDto : Type := mkCreateUserDto {
  dto_name : string;
  dto_email : string;
}.

Record UpdateUserDto : Type := mkUpdateUserDto {
  patch_name : option string;
  patch_email : option string;
}.

Inductive EventType : Type := created | updated | deleted.

Record UserEvent : Type := mkUserEvent {
  type : EventType;
  user : User;
}.

Record ApiResponse (T : Type) : Type := mkApiResponse {
  data : option T;
  error : option string;
  message : option string;
}.
Arguments mkApiResponse {T} _ _ _.
Arguments data {T} _.
Arguments error {T} _.
Arguments message {T} _.

(** [{ error: e }] *)
Definition failure {T : Type} (e : string) : ApiResponse T :=
  mkApiResponse None (Some e) None.

(** [{ data: d, message: m }] *)
Definition success {T : Type} (d : T) (m : string) : ApiResponse T :=
  mkApiResponse (Some d) None (Some m).

(** [{ ...u, updatedAt: d }] *)
Definition with_updatedAt (u : User) (d : Date) : User :=
  mkUser (id u) (name u) (email u) (createdAt u) d.

(** ** The world: heap, environment and trace *)

(** A thrown value: an instance of [Error] with its message, or any other
    value. *)
Inductive Thrown : Type :=
| ErrorObj (msg : string)
| NonError (detail : string).

(** An open WebSocket, compared by reference. *)
Definition Handle := nat.

Inductive Payload : Type :=
| JSON_text (e : UserEvent)
| Raw (s : string).

Inductive Effect : Type :=
| Stringified (e : UserEvent)
| Sent (ws : Handle) (msg : Payload) (thrown : option Thrown)
| Logged (text : string)
| LoggedError (label : string) (err : Thrown).

Record World : Type := mkWorld {
  users : list User;
  connections : list Handle;
  send_throws : Handle -> option Thrown;
  clock : nat -> Date;
  ticks : nat;
  uuids : nat -> string;
  draws : nat;
  trace : list Effect;
}.

Definition set_users (us : list User) (w : World) : World :=
  mkWorld us (connections w) (send_throws w) (clock w) (ticks w)
          (uuids w) (draws w) (trace w).

Definition set_connections (cs : list Handle) (w : World) : World :=
  mkWorld (users w) cs (send_throws w) (clock w) (ticks w)
          (uuids w) (draws w) (trace w).

Definition tick (w : World) : World :=
  mkWorld (users w) (connections w) (send_throws w) (clock w) (S (ticks w))
          (uuids w) (draws w) (trace w).

Definition draw (w : World) : World :=
  mkWorld (users w) (connections w) (send_throws w) (clock w) (ticks w)
          (uuids w) (S (draws w)) (trace w).

Definition emit (e : Effect) (w : World) : World :=
  mkWorld (users w) (connections w) (send_throws w) (clock w) (ticks w)
          (uuids w) (draws w) (trace w ++ [e])%list.

(** ** The monad of methods *)

Inductive Outcome (A : Type) : Type :=
| Return (a : A)
| Throw (t : Thrown).
Arguments Return {A} _.
Arguments Throw {A} _.

Definition M (A : Type) : Type := World -> Outcome A * World.

Definition ret {A : Type} (a : A) : M A := fun w => (Return a, w).

Definition bind {A B : Type} (c : M A) (k : A -> M B) : M B :=
  fun w =>
    match c w with
    | (Return a, w') => k a w'
    | (Throw t, w') => (Throw t, w')
    end.

Definition throw {A : Type} (t : Thrown) : M A := fun w => (Throw t, w).

(** [try { body } catch (err) { handler }] *)
Definition try_catch {A : Type} (body : M A) (handler : Thrown -> M A) : M A :=
  fun w =>
    match body w with
    | (Return a, w') => (Return a, w')
    | (Throw t, w') => handler t w'
    end.

Declare Scope method_scope.
Delimit Scope method_scope with method.
Notation "x <- c ;; k" := (bind c (fun x => k))
  (at level 100, c at next level, right associativity) : method_scope.
Notation "c ;; k" := (bind c (fun _ => k))
  (at level 100, right associativity) : method_scope.
Local Open Scope method_scope.

(** [new Date()] *)
Definition new_Date : M Date :=
  fun w => (Return (clock w (ticks w)), tick w).

(** [crypto.randomUUID()] *)
Definition crypto_randomUUID : M string :=
  fun w => (Return (uuids w (draws w)), draw w).

Definition console_log (text : string) : M unit :=
  fun w => (Return tt, emit (Logged text) w).

Definition console_error (label : string) (err : Thrown) : M unit :=
  fun w => (Return tt, emit (LoggedError label err) w).

(** [Promise.all([a, b])] of two method calls: both calls are made, in
    order, before the results are awaited; the first rejection wins. *)
Definition Promise_all2 {A B : Type} (a : M A) (b : M B) : M (A * B) :=
  fun w =>
    let (ra, w1) := a w in
    let (rb, w2) := b w1 in
    match ra, rb with
    | Return x, Return y => (Return (x, y), w2)
    | Throw t, _ => (Throw t, w2)
    | Return _, Throw t => (Throw t, w2)
    end.

(** ** Arrays *)

(** [arr.findIndex(p)]; [None] stands for [-1]. *)
Fixpoint findIndex {A : Type} (p : A -> bool) (arr : list A) : option nat :=
  match arr with
  | [] => None
  | x :: rest => if p x then Some 0%nat else option_map S (findIndex p rest)
  end.

(** [arr.slice(start, end)] with integer arguments: a negative index counts
    from the end, and both ends are clamped to the array. *)
Definition slice {A : Type} (arr : list A) (start end_ : Z) : list A :=
  let len := Z.of_nat (length arr) in
  let k := if (start <? 0)%Z then Z.max (len + start) 0 else Z.min start len in
  let final := if (end_ <? 0)%Z then Z.max (len + end_) 0 else Z.min end_ len in
  take (Z.to_nat (final - k)) (drop (Z.to_nat k) arr).

(** ** [UserModel] *)

Module UserModel.

(** [{ id: crypto.randomUUID(), name, email, createdAt: new Date(),
      updatedAt: new Date() }] *)
Definition create (dto : CreateUserDto) : M User :=
  uuid <- crypto_randomUUID ;;
  c <- new_Date ;;
  u <- new_Date ;;
  ret (mkUser uuid (dto_name dto) (dto_email dto) c u).

(** One field of [{ ...existingUser, ...updateDto }]. *)
Definition spread (old : string) (patch : option string) : string :=
  match patch with
  | Some v => v
  | None => old
  end.

Definition update (existingUser : User) (updateDto : UpdateUserDto) : M User :=
  now <- new_Date ;;
  ret (mkUser (id existingUser)
              (spread (name existingUser) (patch_name updateDto))
              (spread (email existingUser) (patch_email updateDto))
              (createdAt existingUser)
              now).

(** [/^[^\s@]+@[^\s@]+\.[^\s@]+$/] *)
Definition emailRegex : regex :=
  ReSeq (RePlus (ReClass notSpaceNorAt))
    (ReSeq (ReChar "@")
       (ReSeq (RePlus (ReClass notSpaceNorAt))
          (ReSeq (ReChar ".") (RePlus (ReClass notSpaceNorAt))))).

Definition isValidEmail (email : string) : bool := matches emailRegex email.

Definition isValidName (name : string) : bool :=
  (2 <=? String.length (trim name))%nat.

Definition validateCreateDto (dto : CreateUserDto) : list string :=
  let errors : list string := [] in
  let errors :=
    if negb (truthy (dto_name dto)) || negb (isValidName (dto_name dto))
    then (errors ++ ["Name must be at least 2 characters long"])%list
    else errors in
  let errors :=
    if negb (truthy (dto_email dto)) || negb (isValidEmail (dto_email dto))
    then (errors ++ ["Valid email is required"])%list
    else errors in
  errors.

(** [present !== undefined && !valid(present)] *)
Definition present_and_invalid (valid : string -> bool) (field : option string) : bool :=
  match field with
  | Some v => negb (valid v)
  | None => false
  end.

Definition validateUpdateDto (dto : UpdateUserDto) : list string :=
  let errors : list string := [] in
  let errors :=
    if present_and_invalid isValidName (patch_name dto)
    then (errors ++ ["Name must be at least 2 characters long"])%list
    else errors in
  let errors :=
    if present_and_invalid isValidEmail (patch_email dto)
    then (errors ++ ["Valid email is required"])%list
    else errors in
  errors.

End UserModel.

(** ** [UserRepository] *)

Module UserRepository.

(** The constructor: three sample records, each timestamp a clock reading. *)
Definition constructor : M unit :=
  c1 <- new_Date ;; u1 <- new_Date ;;
  c2 <- new_Date ;; u2 <- new_Date ;;
  c3 <- new_Date ;; u3 <- new_Date ;;
  fun w =>
    (Return tt,
     set_users [ mkUser "1" "John Doe" "john@example.com" c1 u1;
                 mkUser "2" "Jane Smith" "jane@example.com" c2 u2;
                 mkUser "3" "Alex Johnson" "alex@example.com" c3 u3 ] w).

(** [[...this.users]] *)
Definition findAll : M (list User) :=
  fun w => (Return (users w), w).

Definition findById (id_ : string) : M (option User) :=
  fun w => (Return (List.find (fun user => String.eqb (id user) id_) (users w)), w).

Definition findByEmail (email_ : string) : M (option User) :=
  fun w => (Return (List.find (fun user => String.eqb (email user) email_) (users w)), w).

Definition create (createDto : CreateUserDto) : M User :=
  existingUser <- findByEmail (dto_email createDto) ;;
  match existingUser with
  | Some _ => throw (ErrorObj "User with this email already exists")
  | None =>
      newUser <- UserModel.create createDto ;;
      (fun w => (Return tt, set_users (users w ++ [newUser])%list w)) ;;
      now <- new_Date ;;
      ret (with_updatedAt newUser now)
  end.

(** The body of [update] and of [delete] after [index] was found.  The
    index comes from [findIndex], so [this.users[index]] is in range;
    the other branch of the read is never taken. *)
Definition at_index {A : Type} (index : nat) (k : User -> M A) : M A :=
  fun w =>
    match users w !! index with
    | Some found => k found w
    | None => (Throw (ErrorObj "index out of range"), w)
    end.

Definition update (id_ : string) (updateDto : UpdateUserDto) : M (option User) :=
  fun w0 =>
    match findIndex (fun user => String.eqb (id user) id_) (users w0) with
    | None => (Return None, w0)
    | Some index =>
        ((match patch_email updateDto with
          | Some e =>
              if truthy e then
                existingUser <- findByEmail e ;;
                match existingUser with
                | Some other =>
                    if negb (String.eqb (id other) id_)
                    then throw (ErrorObj "User with this email already exists")
                    else ret tt
                | None => ret tt
                end
              else ret tt
          | None => ret tt
          end) ;;
         at_index index (fun current =>
           updatedUser <- UserModel.update current updateDto ;;
           (fun w => (Return tt, set_users (<[index := updatedUser]> (users w)) w)) ;;
           now <- new_Date ;;
           ret (Some (with_updatedAt updatedUser now)))) w0
    end.

Definition delete (id_ : string) : M (option User) :=
  fun w0 =>
    match findIndex (fun user => String.eqb (id user) id_) (users w0) with
    | None => (Return None, w0)
    | Some index =>
        (at_index index (fun deletedUser =>
           (fun w => (Return tt, set_users (base.delete index (users w)) w)) ;;
           now <- new_Date ;;
           ret (Some (with_updatedAt deletedUser now)))) w0
    end.

Definition exists_ (id_ : string) : M bool :=
  fun w => (Return (existsb (fun user => String.eqb (id user) id_) (users w)), w).

Definition count : M nat :=
  fun w => (Return (length (users w)), w).

Definition findPaginated (offset limit : Z) : M (list User) :=
  fun w => (Return (slice (users w) offset (offset + limit)), w).

End UserRepository.

(** ** [WebSocketManager] *)

Module WebSocketManager.

Definition Set_has (ws : Handle) (s : list Handle) : bool :=
  existsb (Nat.eqb ws) s.

Definition Set_add (ws : Handle) (s : list Handle) : list Handle :=
  if Set_has ws s then s else (s ++ [ws])%list.

Definition Set_delete (ws : Handle) (s : list Handle) : list Handle :=
  List.filter (fun x => negb (Nat.eqb ws x)) s.

Definition connections_add (ws : Handle) : M unit :=
  fun w => (Return tt, set_connections (Set_add ws (connections w)) w).

Definition connections_delete (ws : Handle) : M unit :=
  fun w => (Return tt, set_connections (Set_delete ws (connections w)) w).

Definition connections_size : M nat :=
  fun w => (Return (length (connections w)), w).

(** [ws.send(message)]: the environment decides whether it throws. *)
Definition send (ws : Handle) (msg : Payload) : M unit :=
  fun w =>
    match send_throws w ws with
    | None => (Return tt, emit (Sent ws msg None) w)
    | Some t => (Throw t, emit (Sent ws msg (Some t)) w)
    end.

(** [JSON.stringify(event)] *)
Definition JSON_stringify (event : UserEvent) : M Payload :=
  fun w => (Return (JSON_text event), emit (Stringified event) w).

(** [this.connections.forEach(callback)], the callback updating the
    local variables [acc] it captures.  The members at the start are
    visited in insertion order; one that was deleted before its turn is
    skipped. *)
Fixpoint forEach {S : Type} (pending : list Handle)
         (callback : Handle -> S -> M S) (acc : S) : M S :=
  match pending with
  | [] => ret acc
  | ws :: rest =>
      fun w =>
        if Set_has ws (connections w)
        then (acc' <- callback ws acc ;; forEach rest callback acc') w
        else forEach rest callback acc w
  end.

Definition connections_forEach {S : Type}
           (callback : Handle -> S -> M S) (acc : S) : M S :=
  fun w => forEach (connections w) callback acc w.

Definition addConnection (ws : Handle) : M unit :=
  connections_add ws ;;
  n <- connections_size ;;
  console_log ("WebSocket connection added. Total connections: " ++ String_of_nat n).

Definition removeConnection (ws : Handle) : M unit :=
  connections_delete ws ;;
  n <- connections_size ;;
  console_log ("WebSocket connection removed. Total connections: " ++ String_of_nat n).

Definition EventType_text (t : EventType) : string :=
  match t with
  | created => "created"
  | updated => "updated"
  | deleted => "deleted"
  end.

(** The callback of [broadcast]; [counts] is
    [(successCount, failureCount)]. *)
Definition send_or_evict (msg : Payload) (ws : Handle) (counts : nat * nat)
  : M (nat * nat) :=
  try_catch
    (send ws msg ;;
     ret (S (fst counts), snd counts))
    (fun err =>
       console_error "Failed to send message to WebSocket connection:" err ;;
       connections_delete ws ;;
       ret (fst counts, S (snd counts))).

Definition broadcast (event : UserEvent) : M unit :=
  msg <- JSON_stringify event ;;
  connectionCount <- connections_size ;;
  if (connectionCount =? 0)%nat then
    console_log "No WebSocket connections to broadcast to"
  else
    counts <- connections_forEach (send_or_evict msg) (0%nat, 0%nat) ;;
    console_log ("Broadcasted " ++ EventType_text (type event) ++ " event to "
                 ++ String_of_nat (fst counts) ++ " connections ("
                 ++ String_of_nat (snd counts) ++ " failures)").

Definition getConnectionCount : M nat := connections_size.

(** [this.connections.clear()] *)
Definition connections_clear : M unit :=
  fun w => (Return tt, set_connections [] w).

(** The callback of [broadcastMessage]. *)
Definition send_raw_or_evict (message : string) (ws : Handle) (_ : unit) : M unit :=
  try_catch
    (send ws (Raw message))
    (fun err =>
       console_error "Failed to send custom message to WebSocket connection:" err ;;
       connections_delete ws).

Definition broadcastMessage (message : string) : M unit :=
  connections_forEach (send_raw_or_evict message) tt.

Definition sendToConnection (ws : Handle) (message : string) : M bool :=
  try_catch
    (send ws (Raw message) ;;
     ret true)
    (fun err =>
       console_error "Failed to send message to specific connection:" err ;;
       connections_delete ws ;;
       ret false).

(** [ws.close()]: whether it throws is up to the socket; [close_throws]
    says so for each handle. *)
Definition close (close_throws : Handle -> option Thrown) (ws : Handle) : M unit :=
  fun w =>
    match close_throws ws with
    | None => (Return tt, w)
    | Some t => (Throw t, w)
    end.

(** The callback of [closeAllConnections]. *)
Definition close_quietly (close_throws : Handle -> option Thrown)
           (ws : Handle) (_ : unit) : M unit :=
  try_catch
    (close close_throws ws)
    (fun err => console_error "Error closing WebSocket connection:" err).

Definition closeAllConnections (close_throws : Handle -> option Thrown) : M unit :=
  connections_forEach (close_quietly close_throws) tt ;;
  connections_clear ;;
  console_log "All WebSocket connections closed".

End WebSocketManager.

(** ** The repository as the orchestrator sees it

    [UserService] receives its repository through its constructor and
    only calls its methods.  Any implementation can stand behind them: the
    in-memory [UserRepository] above, or a storage backend whose calls
    can fail. *)

Record Repository : Type := mkRepository {
  repo_findAll : M (list User);
  repo_findById : string -> M (option User);
  repo_findByEmail : string -> M (option User);
  repo_create : CreateUserDto -> M User;
  repo_update : string -> UpdateUserDto -> M (option User);
  repo_delete : string -> M (option User);
  repo_exists : string -> M bool;
  repo_count : M nat;
  repo_findPaginated : Z -> Z -> M (list User);
}.

(** [new UserRepository()] after its constructor has run. *)
Definition inMemory : Repository :=
  mkRepository UserRepository.findAll UserRepository.findById
    UserRepository.findByEmail UserRepository.create UserRepository.update
    UserRepository.delete UserRepository.exists_ UserRepository.count
    UserRepository.findPaginated.

Record Page : Type := mkPage {
  page_users : list User;
  total : nat;
  offset : Z;
  limit : Z;
}.

Record Stats : Type := mkStats {
  totalUsers : nat;
  connectionsCount : nat;
}.

(** ** [UserService] *)

Module UserService.
Section WithRepository.

Variable userRepository : Repository.

(** [!id?.trim()] *)
Definition blank (id_ : string) : bool := negb (truthy (trim id_)).

Definition broadcastUserEvent (event : UserEvent) : M unit :=
  try_catch
    (WebSocketManager.broadcast event)
    (fun err => console_error "Error broadcasting user event:" err).

Definition getAllUsers : M (ApiResponse (list User)) :=
  try_catch
    (all <- repo_findAll userRepository ;;
     ret (success all ("Retrieved " ++ String_of_nat (length all) ++ " users")))
    (fun err =>
       console_error "Error fetching users:" err ;;
       ret (failure "Failed to retrieve users")).

Definition getUserById (id_ : string) : M (ApiResponse User) :=
  try_catch
    (if blank id_ then ret (failure "User ID is required")
     else
       found <- repo_findById userRepository id_ ;;
       match found with
       | None => ret (failure "User not found")
       | Some u => ret (success u "User retrieved successfully")
       end)
    (fun err =>
       console_error "Error fetching user by ID:" err ;;
       ret (failure "Failed to retrieve user")).

Definition createUser (createDto : CreateUserDto) : M (ApiResponse User) :=
  try_catch
    (let validationErrors := UserModel.validateCreateDto createDto in
     if (0 <? length validationErrors)%nat
     then ret (failure (join ", " validationErrors))
     else
       newUser <- repo_create userRepository createDto ;;
       broadcastUserEvent (mkUserEvent created newUser) ;;
       ret (success newUser "User created successfully"))
    (fun err =>
       console_error "Error creating user:" err ;;
       match err with
       | ErrorObj msg => ret (failure msg)
       | NonError _ => ret (failure "Failed to create user")
       end).

Definition updateUser (id_ : string) (updateDto : UpdateUserDto)
  : M (ApiResponse User) :=
  try_catch
    (if blank id_ then ret (failure "User ID is required")
     else
       let validationErrors := UserModel.validateUpdateDto updateDto in
       if (0 <? length validationErrors)%nat
       then ret (failure (join ", " validationErrors))
       else
         existingUser <- repo_findById userRepository id_ ;;
         match existingUser with
         | None => ret (failure "User not found")
         | Some _ =>
             updatedUser <- repo_update userRepository id_ updateDto ;;
             match updatedUser with
             | None => ret (failure "Failed to update user")
             | Some u =>
                 broadcastUserEvent (mkUserEvent updated u) ;;
                 ret (success u "User updated successfully")
             end
         end)
    (fun err =>
       console_error "Error updating user:" err ;;
       match err with
       | ErrorObj msg => ret (failure msg)
       | NonError _ => ret (failure "Failed to update user")
       end).

Definition deleteUser (id_ : string) : M (ApiResponse User) :=
  try_catch
    (if blank id_ then ret (failure "User ID is required")
     else
       existingUser <- repo_findById userRepository id_ ;;
       match existingUser with
       | None => ret (failure "User not found")
       | Some _ =>
           deletedUser <- repo_delete userRepository id_ ;;
           match deletedUser with
           | None => ret (failure "Failed to delete user")
           | Some u =>
               broadcastUserEvent (mkUserEvent deleted u) ;;
               ret (success u "User deleted successfully")
           end
       end)
    (fun err =>
       console_error "Error deleting user:" err ;;
       ret (failure "Failed to delete user")).

Definition getUsersPaginated (offset_ limit_ : Z) : M (ApiResponse Page) :=
  try_catch
    (if (offset_ <? 0)%Z || (limit_ <=? 0)%Z || (100 <? limit_)%Z
     then ret (failure "Invalid pagination parameters")
     else
       both <- Promise_all2 (repo_findPaginated userRepository offset_ limit_)
                            (repo_count userRepository) ;;
       let (slice_, total_) := both : list User * nat in
       ret (success (mkPage slice_ total_ offset_ limit_)
              ("Retrieved " ++ String_of_nat (length slice_) ++ " of "
               ++ String_of_nat total_ ++ " users")))
    (fun err =>
       console_error "Error fetching paginated users:" err ;;
       ret (failure "Failed to retrieve users")).

Definition userExistsByEmail (email_ : string) : M bool :=
  try_catch
    (found <- repo_findByEmail userRepository email_ ;;
     ret (match found with Some _ => true | None => false end))
    (fun err =>
       console_error "Error checking user existence by email:" err ;;
       ret false).

Definition getUserStats : M (ApiResponse Stats) :=
  try_catch
    (totalUsers_ <- repo_count userRepository ;;
     connectionsCount_ <- WebSocketManager.getConnectionCount ;;
     ret (success (mkStats totalUsers_ connectionsCount_)
            "User statistics retrieved successfully"))
    (fun err =>
       console_error "Error fetching user stats:" err ;;
       ret (failure "Failed to retrieve user statistics")).

End WithRepository.
End UserService.

(** ** [parseInt(s, 10)]

    Leading white space is skipped, a sign is read, then the longest run
    of decimal digits: their value with the sign is the integer that the
    text denotes, and there is none when there is no digit.  [parseInt]
    returns the double nearest to that integer (ties go to the even
    mantissa; past the largest double the result is infinite) and [NaN]
    when there is none.

    Such a double is an integer or infinite.  It is written as that
    integer; [Infinity] and [-Infinity] are written [2 ^ 1024] and
    [- 2 ^ 1024], which no double is, so that the comparisons made on
    the result read the same.  [None] stands for [NaN]. *)

Definition digit_value (c : ascii) : option Z :=
  let n := nat_of_ascii c in
  if (48 <=? n)%nat && (n <=? 57)%nat then Some (Z.of_nat (n - 48)) else None.

Fixpoint parse_digits (s : string) (acc : option Z) : option Z :=
  match s with
  | EmptyString => acc
  | String c rest =>
      match digit_value c with
      | Some d =>
          parse_digits rest
            (Some (10 * (match acc with Some a => a | None => 0 end) + d)%Z)
      | None => acc
      end
  end.

(** The integer that the text denotes. *)
Definition mathInt (s : string) : option Z :=
  match trimStart s with
  | String "-"%char rest => option_map Z.opp (parse_digits rest None)
  | String "+"%char rest => parse_digits rest None
  | unsigned => parse_digits unsigned None
  end.

(** The double nearest to an integer [n >= 0]: [n] itself below [2 ^ 53];
    from there on the 53 leading bits of [n], rounded on the bits that
    are cut off. *)
Definition nearest_double (n : Z) : Z :=
  if (n <? 2 ^ 53)%Z then n
  else
    let e := (Z.log2 n - 52)%Z in
    let q := Z.shiftr n e in
    let r := Z.land n (Z.ones e) in
    let half := Z.shiftl 1 (e - 1) in
    let q' := if (r <? half)%Z then q
              else if (half <? r)%Z then (q + 1)%Z
              else if Z.even q then q else (q + 1)%Z in
    Z.min (Z.shiftl q' e) (2 ^ 1024).

Definition to_double (z : Z) : Z := (Z.sgn z * nearest_double (Z.abs z))%Z.

Definition parseInt (s : string) : option Z := option_map to_double (mathInt s).

(** ** [UserController] ([src/controllers/UserController.ts])

    The handlers, without the route table.  A [Response] is kept before
    [JSON.stringify]: its status, its headers and the object that becomes
    the body. *)

Inductive Data : Type :=
| data_users (all : list User)
| data_user (u : User)
| data_page (p : Page)
| data_stats (s : Stats)
| data_deleted (message_ : option string) (user_ : option User).

Inductive Body : Type :=
| SuccessBody (data_ : option Data) (message_ : option string)
| ErrorBody (error_ : string).

Record Response : Type := mkResponse {
  status : nat;
  headers : list (string * string);
  body : Body;
}.

Module UserController.
Section WithRepository.

Variable userRepository : Repository.

Definition json_headers : list (string * string) :=
  [("Content-Type", "application/json")].

(** [{ success: true, data, ...(message && { message }) }] *)
Definition createSuccessResponse (data_ : option Data) (message_ : option string)
           (statusCode : nat) : Response :=
  mkResponse statusCode json_headers
    (SuccessBody data_
       (match message_ with
        | Some m => if truthy m then Some m else None
        | None => None
        end)).

(** [{ success: false, error }] *)
Definition createErrorResponse (error_ : string) (statusCode : nat) : Response :=
  mkResponse statusCode json_headers (ErrorBody error_).

(** [if (result.error)]: the error when it is there and not empty. *)
Definition failed {T : Type} (result : ApiResponse T) : option string :=
  match error result with
  | Some e => if truthy e then Some e else None
  | None => None
  end.

Definition getAllUsers : M Response :=
  result <- UserService.getAllUsers userRepository ;;
  match failed result with
  | Some e => ret (createErrorResponse e 500)
  | None =>
      ret (createSuccessResponse (option_map data_users (data result))
             (message result) 200)
  end.

Definition getUserStats : M Response :=
  result <- UserService.getUserStats userRepository ;;
  match failed result with
  | Some e => ret (createErrorResponse e 500)
  | None =>
      ret (createSuccessResponse (option_map data_stats (data result))
             (message result) 200)
  end.

Definition getUserById (id_ : string) : M Response :=
  result <- UserService.getUserById userRepository id_ ;;
  match failed result with
  | Some e =>
      let statusCode := if String.eqb e "User not found" then 404%nat else 400%nat in
      ret (createErrorResponse e statusCode)
  | None =>
      ret (createSuccessResponse (option_map data_user (data result))
             (message result) 200)
  end.

Definition createUser (body_ : CreateUserDto) : M Response :=
  result <- UserService.createUser userRepository body_ ;;
  match failed result with
  | Some e =>
      let statusCode := if includes e "already exists" then 409%nat else 400%nat in
      ret (createErrorResponse e statusCode)
  | None =>
      ret (createSuccessResponse (option_map data_user (data result))
             (message result) 201)
  end.

Definition updateUser (id_ : string) (body_ : UpdateUserDto) : M Response :=
  result <- UserService.updateUser userRepository id_ body_ ;;
  match failed result with
  | Some e =>
      let statusCode :=
        if String.eqb e "User not found" then 404%nat
        else if includes e "already exists" then 409%nat
        else 400%nat in
      ret (createErrorResponse e statusCode)
  | None =>
      ret (createSuccessResponse (option_map data_user (data result))
             (message result) 200)
  end.

Definition deleteUser (id_ : string) : M Response :=
  result <- UserService.deleteUser userRepository id_ ;;
  match failed result with
  | Some e =>
      let statusCode := if String.eqb e "User not found" then 404%nat else 400%nat in
      ret (createErrorResponse e statusCode)
  | None =>
      ret (createSuccessResponse
             (Some (data_deleted (message result) (data result)))
             (message result) 200)
  end.

Definition getUsersPaginated (offset_ limit_ : string) : M Response :=
  let offsetNum := parseInt offset_ in
  let limitNum := parseInt limit_ in
  match offsetNum, limitNum with
  | Some o, Some l =>
      result <- UserService.getUsersPaginated userRepository o l ;;
      match failed result with
      | Some e => ret (createErrorResponse e 400)
      | None =>
          ret (createSuccessResponse (option_map data_page (data result))
                 (message result) 200)
      end
  | _, _ => ret (createErrorResponse "Invalid pagination parameters" 400)
  end.

End WithRepository.
End UserController.

(** ** The WebSocket handlers of [src/index.ts]

    The texts that the handlers send are [JSON.stringify] of small
    objects with a time stamp; the three serializations are taken as
    functions of what goes into them. *)

Module App.
Section Serialized.

Variable connection_text : Date -> string.
Variable echo_text : string -> Date -> nat -> string.
Variable error_text : Date -> string.

Definition open (ws : Handle) : M unit :=
  console_log "WebSocket connection opened" ;;
  WebSocketManager.addConnection ws ;;
  now <- new_Date ;;
  WebSocketManager.sendToConnection ws (connection_text now) ;;
  ret tt.

Definition close (ws : Handle) : M unit :=
  console_log "WebSocket connection closed" ;;
  WebSocketManager.removeConnection ws.

Definition message (ws : Handle) (msg : string) : M unit :=
  console_log ("WebSocket message received: " ++ msg) ;;
  try_catch
    (now <- new_Date ;;
     connectionCount <- WebSocketManager.getConnectionCount ;;
     WebSocketManager.sendToConnection ws (echo_text msg now connectionCount) ;;
     ret tt)
    (fun err =>
       console_error "Error processing WebSocket message:" err ;;
       now <- new_Date ;;
       WebSocketManager.sendToConnection ws (error_text now) ;;
       ret tt).

End Serialized.
End App.

(** ** Sample worlds *)

(** A process that has just started: nothing stored, nobody connected, a
    clock that counts its readings and identifiers ["id-0"], ["id-1"],
    ... *)
Definition boot : World :=
  mkWorld [] [] (fun _ => None)
          (fun n => Z.of_nat n) 0
          (fun n => "id-" ++ String_of_nat n) 0
          [].

(** The world after [new UserRepository()]. *)
Definition seeded (w : World) : World := snd (UserRepository.constructor w).

(** * Vocabulary of the properties *)

Local Open Scope list_scope.

(** The callbacks [(user) => user.id === id] and
    [(user) => user.email === email] of the store. *)
Definition has_id (id_ : string) (u : User) : bool := String.eqb (id u) id_.
Definition has_email (email_ : string) (u : User) : bool := String.eqb (email u) email_.

(** The check of [update]: [updateDto.email] is truthy and [findByEmail]
    resolves it to a record with another id. *)
Definition taken_by_other (id_ : string) (updateDto : UpdateUserDto)
           (us : list User) : bool :=
  match patch_email updateDto with
  | Some e =>
      truthy e &&
      match List.find (has_email e) us with
      | Some other => negb (String.eqb (id other) id_)
      | None => false
      end
  | None => false
  end.

(** What [UserModel.update] builds at the clock reading [now]. *)
Definition merged (current : User) (updateDto : UpdateUserDto) (now : Date) : User :=
  mkUser (id current)
         (UserModel.spread (name current) (patch_name updateDto))
         (UserModel.spread (email current) (patch_email updateDto))
         (createdAt current)
         now.

(** [after] is [before] without the first record whose id is [id_]. *)
Definition removed (id_ : string) (before after : list User) : Prop :=
  exists (front : list User) (target : User) (back : list User),
    before = front ++ target :: back
    /\ after = front ++ back
    /\ Forall (fun u => id u <> id_) front
    /\ id target = id_.

(** The serializations and the send attempts recorded in a trace. *)
Definition stringified_of (tr : list Effect) : list UserEvent :=
  flat_map (fun e => match e with Stringified ev => [ev] | _ => [] end) tr.

Definition sends_of (tr : list Effect) : list (Handle * Payload * option Thrown) :=
  flat_map (fun e => match e with Sent ws msg r => [(ws, msg, r)] | _ => [] end) tr.

(** A sink whose [send] does not throw. *)
Definition alive (w : World) (ws : Handle) : bool :=
  match send_throws w ws with
  | None => true
  | Some _ => false
  end.

(** What one turn of the loop of [broadcast] leaves in the trace. *)
Definition attempt (w : World) (msg : Payload) (ws : Handle) : list Effect :=
  match send_throws w ws with
  | None => [Sent ws msg None]
  | Some t => [Sent ws msg (Some t);
               LoggedError "Failed to send message to WebSocket connection:" t]
  end.

(** Three sinks, the second one dead: all three get the text, the second
    is evicted. *)
Definition three_sinks : World :=
  mkWorld [] [1; 2; 3]%nat
          (fun ws => if (ws =? 2)%nat then Some (ErrorObj "socket closed") else None)
          (fun n => Z.of_nat n) 0 (fun n => String_of_nat n) 0 [].

(** An event to broadcast. *)
Definition sample_event : UserEvent :=
  mkUserEvent created (mkUser "7" "Ann Lee" "ann@x.com" 10%Z 11%Z).

(** What [createUser] and [updateUser] put in [error] for a caught value:
    the message of an [Error], the fixed text for anything else. *)
Definition report (generic : string) (t : Thrown) : string :=
  match t with
  | ErrorObj msg => msg
  | NonError _ => generic
  end.

(** A call that returns. *)
Definition returns {A : Type} (c : M A) (w : World) : Prop :=
  exists a w', c w = (Return a, w').

(** A storage backend that cannot be reached: its [create] rejects with
    the driver's [Error]. *)
Definition unreachable_backend : Repository :=
  mkRepository UserRepository.findAll UserRepository.findById
    UserRepository.findByEmail
    (fun _ => throw (ErrorObj "connect ECONNREFUSED 10.0.0.5:5432"))
    UserRepository.update UserRepository.delete UserRepository.exists_
    UserRepository.count UserRepository.findPaginated.

(** A backend that rejects with a value that is not an [Error]. *)
Definition rejecting_backend : Repository :=
  mkRepository UserRepository.findAll UserRepository.findById
    UserRepository.findByEmail
    (fun _ => throw (NonError "timeout after 30000 ms"))
    UserRepository.update UserRepository.delete UserRepository.exists_
    UserRepository.count UserRepository.findPaginated.

(** The seeded store after the store-level call
    [update("1", { email: "nobody" })]: record ["1"] now holds an address
    that the orchestrator's validation does not accept. *)
Definition unvalidated_email : World :=
  snd (UserRepository.update "1" (mkUpdateUserDto None (Some "nobody"%string))
         (seeded boot)).

(** No two records share an id, and no two share an address. *)
Definition consistent (us : list User) : Prop :=
  NoDup (id <$> us) /\ NoDup (email <$> us).

(** A record as the orchestrator lets it into the store: an id that is
    not blank, an address of the validated shape. *)
Definition well_formed (u : User) : Prop :=
  UserService.blank (id u) = false /\ UserModel.isValidEmail (email u) = true.

(** The collection as the data model describes it. *)
Definition data_model (us : list User) : Prop :=
  consistent us /\ Forall well_formed us.

(** [crypto.randomUUID()] is about to return an identifier that is not
    blank and not in use. *)
Definition fresh_identifier (w : World) : Prop :=
  UserService.blank (uuids w (draws w)) = false
  /\ uuids w (draws w) ∉ id <$> users w.

(** The states of a running process: the seeded store, then any calls of
    the three mutating methods of the orchestrator, and in between
    anything that leaves the collection alone (reads, connections opening
    and closing, time passing). *)
Inductive reachable : World -> Prop :=
| reach_start (w : World) : reachable (seeded w)
| reach_createUser (w : World) (createDto : CreateUserDto) :
    reachable w -> fresh_identifier w ->
    reachable (snd (UserService.createUser inMemory createDto w))
| reach_updateUser (w : World) (id_ : string) (updateDto : UpdateUserDto) :
    reachable w ->
    reachable (snd (UserService.updateUser inMemory id_ updateDto w))
| reach_deleteUser (w : World) (id_ : string) :
    reachable w ->
    reachable (snd (UserService.deleteUser inMemory id_ w))
| reach_elsewhere (w w' : World) :
    reachable w -> users w' = users w -> reachable w'.

(** The world with more effects on its trace. *)
Definition emit_all (es : list Effect) (w : World) : World :=
  mkWorld (users w) (connections w) (send_throws w) (clock w) (ticks w)
          (uuids w) (draws w) (trace w ++ es).

(** What one turn of the loop of [broadcastMessage] leaves in the trace. *)
Definition attempt_raw (st : Handle -> option Thrown) (message : string)
           (ws : Handle) : list Effect :=
  match st ws with
  | None => [Sent ws (Raw message) None]
  | Some t => [Sent ws (Raw message) (Some t);
               LoggedError "Failed to send custom message to WebSocket connection:" t]
  end.

(** What one turn of the loop of [closeAllConnections] leaves in the
    trace. *)
Definition close_report (close_throws : Handle -> option Thrown)
           (ws : Handle) : list Effect :=
  match close_throws ws with
  | None => []
  | Some t => [LoggedError "Error closing WebSocket connection:" t]
  end.

(** The texts of the handlers of [src/index.ts], for the examples. *)
Definition sample_connection_text (now : Date) : string := "connected".
Definition sample_echo_text (msg : string) (now : Date) (n : nat) : string :=
  ("echo " ++ msg)%string.
Definition sample_error_text (now : Date) : string := "error".

(** The event that a mutation of kind [kind] announces for its answer:
    one when the answer carries a record, none otherwise. *)
Definition announced (kind : EventType) (resp : ApiResponse User) : list UserEvent :=
  match data resp with
  | Some u => [mkUserEvent kind u]
  | None => []
  end.

(** The sends that deliver the events [evs] to the sockets [sinks], each
    with the outcome the socket has in store for it. *)
Definition deliveries (st : Handle -> option Thrown) (sinks : list Handle)
           (evs : list UserEvent) : list (Handle * Payload * option Thrown) :=
  flat_map (fun ev => map (fun ws => (ws, JSON_text ev, st ws)) sinks) evs.

(** What a mutation through the orchestrator leaves behind, given its
    answer [resp] and final world [w']: the event it announced, delivered
    once to each socket registered at the start, if the answer carries a
    record; no event, no send and no change to the collection
    otherwise. *)
Definition follows_success (kind : EventType) (w : World)
           (result : Outcome (ApiResponse User) * World) : Prop :=
  exists resp w',
    result = (Return resp, w')
    /\ stringified_of (trace w') = stringified_of (trace w) ++ announced kind resp
    /\ sends_of (trace w')
       = sends_of (trace w)
         ++ deliveries (send_throws w) (connections w) (announced kind resp)
    /\ (data resp = None -> users w' = users w /\ connections w' = connections w)
    /\ (data resp = None <-> is_Some (error resp)).

(** The strings that a pattern denotes. *)
Inductive lang : regex -> string -> Prop :=
| lang_eps : lang ReEps ""
| lang_class (p : ascii -> bool) (c : ascii) :
    p c = true -> lang (ReClass p) (String c "")
| lang_seq (r1 r2 : regex) (s1 s2 : string) :
    lang r1 s1 -> lang r2 s2 -> lang (ReSeq r1 r2) (s1 ++ s2)%string
| lang_alt_l (r1 r2 : regex) (s : string) : lang r1 s -> lang (ReAlt r1 r2) s
| lang_alt_r (r1 r2 : regex) (s : string) : lang r2 s -> lang (ReAlt r1 r2) s
| lang_star_nil (r : regex) : lang (ReStar r) ""
| lang_star_cons (r : regex) (s1 s2 : string) :
    lang r s1 -> lang (ReStar r) s2 -> lang (ReStar r) (s1 ++ s2)%string.

(** Every character of the string is in the class. *)
Fixpoint every (p : ascii -> bool) (s : string) : bool :=
  match s with
  | EmptyString => true
  | String c rest => p c && every p rest
  end.

(** One of the three parts of an address: not empty, without white space
    and without ["@"]. *)
Definition part (s : string) : Prop :=
  s <> ""%string /\ every notSpaceNorAt s = true.

(** The number of characters of a string that are not white space. *)
Fixpoint solid (s : string) : nat :=
  match s with
  | EmptyString => 0
  | String c rest => (if isWhiteSpace c then 0 else 1) + solid rest
  end.

(** The last character of the string is there and is not white space. *)
Fixpoint ends_solid (s : string) : bool :=
  match s with
  | EmptyString => false
  | String c EmptyString => negb (isWhiteSpace c)
  | String _ rest => ends_solid rest
  end.

(** A response of the controller: the JSON header, one of the given
    status codes, and an error body, with an error that is not empty,
    exactly under a code from 400 on. *)
Definition answered (codes : list nat) (resp : Response) : Prop :=
  headers resp = [("Content-Type", "application/json")]
  /\ In (status resp) codes
  /\ match body resp with
     | ErrorBody e => truthy e = true /\ (400 <= status resp)%nat
     | SuccessBody _ _ => (status resp < 400)%nat
     end.

(** A backend whose [create] and [update] reject with an [Error] that has
    no message. *)
Definition silent_backend : Repository :=
  mkRepository UserRepository.findAll UserRepository.findById
    UserRepository.findByEmail
    (fun _ => throw (ErrorObj ""))
    (fun _ _ => throw (ErrorObj ""))
    UserRepository.delete UserRepository.exists_
    UserRepository.count UserRepository.findPaginated.

(** The status that the controller gives to the message of a failure of
    [createUser] and to one of [updateUser]. *)
Definition status_of_create_error (e : string) : nat :=
  if includes e "already exists" then 409 else 400.

Definition status_of_update_error (e : string) : nat :=
  if String.eqb e "User not found" then 404
  else if includes e "already exists" then 409
  else 400.

(** The lists of errors that the validators can return when a field is
    invalid. *)
Definition validation_errors : list (list string) :=
  [ ["Name must be at least 2 characters long"%string];
    ["Valid email is required"%string];
    ["Name must be at least 2 characters long"%string;
     "Valid email is required"%string] ].

(** What the controller answers to a failure of the orchestrator whose
    text is [e]: [if (result.error)] takes an empty text for no error. *)
Definition answer_to_failure (e : string) (code_of : string -> nat) (ok : nat) : Response :=
  if truthy e
  then mkResponse (code_of e) [("Content-Type", "application/json")] (ErrorBody e)
  else mkResponse ok [("Content-Type", "application/json")] (SuccessBody None None).

(** * Properties *)

(** ** Arrays: [find], [findIndex], [some] *)

Section Arrays.
Context {A : Type} (p : A -> bool).

Lemma findIndex_None (arr : list A) :
  findIndex p arr = None <-> List.find p arr = None.
Proof.
  induction arr as [|x rest IH]; simpl; [split; reflexivity|].
  destruct (p x); [split; discriminate|].
  destruct (findIndex p rest); simpl.
  - split; [discriminate|]. intros H. apply IH in H. discriminate.
  - split; [|reflexivity]. intros _. apply IH. reflexivity.
Qed.

(** The index that [findIndex] returns is in range, holds the element
    that [find] returns, and nothing before it satisfies [p]. *)
Lemma findIndex_Some (arr : list A) (i : nat) :
  findIndex p arr = Some i ->
  exists x, arr !! i = Some x /\ List.find p arr = Some x /\ p x = true
            /\ Forall (fun y => p y = false) (take i arr).
Proof.
  revert i; induction arr as [|x rest IH]; intros i; simpl; [discriminate|].
  destruct (p x) eqn:Hx.
  - intros [= <-]. exists x. simpl. auto.
  - destruct (findIndex p rest) as [j|]; simpl; [|discriminate].
    intros [= <-]. destruct (IH j eq_refl) as (y & Hl & Hf & Hp & Hb).
    exists y. simpl. repeat split; auto.
Qed.

Lemma find_findIndex (arr : list A) (x : A) :
  List.find p arr = Some x ->
  exists i, findIndex p arr = Some i /\ arr !! i = Some x.
Proof.
  intros Hf. destruct (findIndex p arr) as [i|] eqn:Hi.
  - destruct (findIndex_Some _ _ Hi) as (y & Hl & Hf' & _).
    exists i. split; [reflexivity|]. congruence.
  - apply findIndex_None in Hi. congruence.
Qed.

Lemma some_find (arr : list A) :
  existsb p arr = true <-> is_Some (List.find p arr).
Proof.
  induction arr as [|x rest IH]; simpl.
  - split; [discriminate|]. intros [? ?]; discriminate.
  - destruct (p x); simpl; [|exact IH]. split; eauto.
Qed.

Lemma find_In (arr : list A) (x : A) :
  List.find p arr = Some x -> x ∈ arr /\ p x = true.
Proof.
  intros H. apply List.find_some in H. rewrite list_elem_of_In. exact H.
Qed.

End Arrays.

(** The array around position [i]. *)
Lemma split_at {A : Type} (arr : list A) (i : nat) (x : A) :
  arr !! i = Some x -> arr = take i arr ++ x :: drop (S i) arr.
Proof. intros H. symmetry. apply take_drop_middle, H. Qed.

(** ** The in-memory repository, method by method *)

Lemma create_run (createDto : CreateUserDto) (w : World) :
  UserRepository.create createDto w =
  match List.find (has_email (dto_email createDto)) (users w) with
  | Some _ => (Throw (ErrorObj "User with this email already exists"), w)
  | None =>
      let newUser := mkUser (uuids w (draws w)) (dto_name createDto)
                            (dto_email createDto)
                            (clock w (ticks w)) (clock w (S (ticks w))) in
      (Return (with_updatedAt newUser (clock w (S (S (ticks w))))),
       tick (set_users (users w ++ [newUser]) (tick (tick (draw w)))))
  end.
Proof.
  unfold UserRepository.create, UserRepository.findByEmail, bind, has_email.
  destruct (List.find _ (users w)); reflexivity.
Qed.

Lemma update_run (id_ : string) (updateDto : UpdateUserDto) (w : World) :
  UserRepository.update id_ updateDto w =
  match findIndex (has_id id_) (users w) with
  | None => (Return None, w)
  | Some index =>
      if taken_by_other id_ updateDto (users w)
      then (Throw (ErrorObj "User with this email already exists"), w)
      else
        match users w !! index with
        | Some current =>
            let updatedUser := merged current updateDto (clock w (ticks w)) in
            (Return (Some (with_updatedAt updatedUser (clock w (S (ticks w))))),
             tick (set_users (<[index := updatedUser]> (users w)) (tick w)))
        | None => (Throw (ErrorObj "index out of range"), w)
        end
  end.
Proof.
  unfold UserRepository.update, taken_by_other, has_id, has_email.
  destruct (findIndex _ (users w)) as [index|]; [|reflexivity].
  unfold bind, UserRepository.at_index, UserRepository.findByEmail.
  destruct (patch_email updateDto) as [e|]; simpl.
  - destruct (truthy e); simpl.
    + destruct (List.find _ (users w)) as [other|]; simpl.
      * destruct (String.eqb (id other) id_); simpl;
          [destruct (users w !! index)|]; reflexivity.
      * destruct (users w !! index); reflexivity.
    + destruct (users w !! index); reflexivity.
  - destruct (users w !! index); reflexivity.
Qed.

Lemma delete_run (id_ : string) (w : World) :
  UserRepository.delete id_ w =
  match findIndex (has_id id_) (users w) with
  | None => (Return None, w)
  | Some index =>
      match users w !! index with
      | Some deletedUser =>
          (Return (Some (with_updatedAt deletedUser (clock w (ticks w)))),
           tick (set_users (base.delete index (users w)) w))
      | None => (Throw (ErrorObj "index out of range"), w)
      end
  end.
Proof.
  unfold UserRepository.delete, has_id.
  destruct (findIndex _ (users w)) as [index|]; [|reflexivity].
  unfold bind, UserRepository.at_index.
  destruct (users w !! index); reflexivity.
Qed.

(** ** Reads of the store *)

(** C10. [exists(id)] answers [true] exactly when [findById(id)] returns a
    record, and [count()] is the length of the array that [findAll()]
    returns.  None of the four changes the world. *)
Theorem exists_agrees_with_findById_and_count_with_findAll
        (w : World) (id_ : string) :
  (exists (b : bool) (found : option User),
      UserRepository.exists_ id_ w = (Return b, w)
      /\ UserRepository.findById id_ w = (Return found, w)
      /\ (b = true <-> is_Some found))
  /\ (exists (n : nat) (all : list User),
         UserRepository.count w = (Return n, w)
         /\ UserRepository.findAll w = (Return all, w)
         /\ n = length all).
Proof.
  split.
  - eexists; eexists. split; [reflexivity|]. split; [reflexivity|].
    apply some_find.
  - exists (length (users w)), (users w). repeat split.
Qed.

(** ** Mutations of the store touch their target only *)

Lemma has_id_true (id_ : string) (u : User) : has_id id_ u = true <-> id u = id_.
Proof. unfold has_id. apply String.eqb_eq. Qed.

Lemma has_id_false (id_ : string) (u : User) : has_id id_ u = false <-> id u <> id_.
Proof. unfold has_id. apply String.eqb_neq. Qed.

Lemma has_email_true (e : string) (u : User) : has_email e u = true <-> email u = e.
Proof. unfold has_email. apply String.eqb_eq. Qed.

Lemma has_email_false (e : string) (u : User) : has_email e u = false <-> email u <> e.
Proof. unfold has_email. apply String.eqb_neq. Qed.

(** The target of [update] and [delete]: where [findIndex] points. *)
Lemma target_found (id_ : string) (us : list User) (index : nat) :
  findIndex (has_id id_) us = Some index ->
  exists target,
    us !! index = Some target
    /\ List.find (has_id id_) us = Some target
    /\ id target = id_
    /\ Forall (fun u => id u <> id_) (take index us).
Proof.
  intros Hi. destruct (findIndex_Some _ _ _ Hi) as (x & Hl & Hf & Hp & Hb).
  exists x. repeat split; auto.
  - apply has_id_true, Hp.
  - eapply Forall_impl; [exact Hb|]. intros u Hu. apply has_id_false, Hu.
Qed.

(** C9. Each mutation of the store touches its target only.  When no
    record has the address, [create] returns and the collection is the
    old one with the new record at its end; otherwise it throws and
    nothing changes.  When a record has the id, and the address of the
    patch is not taken by another record, [update] returns and the
    collection is the old one with the merged record in the place of the
    first record of that id; [delete] returns and the collection is the
    old one without that record.  The records before and after the
    target stay as they were, in their order; a call for an id that no
    record has, or an [update] that throws, changes nothing. *)
Theorem mutations_touch_only_their_target (w : World) :
  (forall createDto,
      match List.find (has_email (dto_email createDto)) (users w) with
      | None =>
          let newUser := mkUser (uuids w (draws w)) (dto_name createDto)
                                (dto_email createDto)
                                (clock w (ticks w)) (clock w (S (ticks w))) in
          exists w',
            UserRepository.create createDto w
            = (Return (with_updatedAt newUser (clock w (S (S (ticks w))))), w')
            /\ users w' = users w ++ [newUser]
      | Some _ =>
          UserRepository.create createDto w
          = (Throw (ErrorObj "User with this email already exists"), w)
      end)
  /\ (forall id_ updateDto,
         match List.find (has_id id_) (users w) with
         | None => UserRepository.update id_ updateDto w = (Return None, w)
         | Some target =>
             exists front back,
               users w = front ++ target :: back
               /\ Forall (fun u => id u <> id_) front
               /\ if taken_by_other id_ updateDto (users w)
                  then UserRepository.update id_ updateDto w
                       = (Throw (ErrorObj "User with this email already exists"), w)
                  else
                    let target' := merged target updateDto (clock w (ticks w)) in
                    exists w',
                      UserRepository.update id_ updateDto w
                      = (Return (Some (with_updatedAt target' (clock w (S (ticks w))))),
                         w')
                      /\ users w' = front ++ target' :: back
         end)
  /\ (forall id_,
         match List.find (has_id id_) (users w) with
         | None => UserRepository.delete id_ w = (Return None, w)
         | Some target =>
             exists front back w',
               users w = front ++ target :: back
               /\ Forall (fun u => id u <> id_) front
               /\ UserRepository.delete id_ w
                  = (Return (Some (with_updatedAt target (clock w (ticks w)))), w')
               /\ users w' = front ++ back
         end).
Proof.
  split; [|split].
  - intros createDto. rewrite create_run.
    destruct (List.find _ (users w)); [reflexivity|].
    eexists. split; reflexivity.
  - intros id_ updateDto. rewrite update_run.
    destruct (List.find (has_id id_) (users w)) as [target|] eqn:Hf.
    2:{ rewrite (proj2 (findIndex_None _ _) Hf). reflexivity. }
    destruct (find_findIndex _ _ _ Hf) as (index & Hi & Hl).
    destruct (target_found _ _ _ Hi) as (target0 & Hl0 & _ & _ & Hfront).
    exists (take index (users w)), (drop (S index) (users w)).
    split; [apply split_at, Hl|]. split; [exact Hfront|].
    rewrite Hi. destruct (taken_by_other id_ updateDto (users w)); [reflexivity|].
    rewrite Hl. eexists. split; [reflexivity|].
    cbn [users tick set_users]. apply insert_take_drop. eapply lookup_lt_Some, Hl.
  - intros id_. rewrite delete_run.
    destruct (List.find (has_id id_) (users w)) as [target|] eqn:Hf.
    2:{ rewrite (proj2 (findIndex_None _ _) Hf). reflexivity. }
    destruct (find_findIndex _ _ _ Hf) as (index & Hi & Hl).
    destruct (target_found _ _ _ Hi) as (target0 & Hl0 & _ & _ & Hfront).
    exists (take index (users w)), (drop (S index) (users w)). eexists.
    split; [apply split_at, Hl|]. split; [exact Hfront|].
    rewrite Hi, Hl. split; [reflexivity|].
    cbn [users tick set_users]. apply delete_take_drop.
Qed.

(** On the seeded store: a fourth record goes to the end, record ["2"]
    is replaced where it stands, record ["2"] is removed from between its
    neighbours. *)
Example create_appends_on_seed :
  map id (users (snd (UserRepository.create
                        (mkCreateUserDto "Ann Lee" "ann@x.com") (seeded boot))))
  = ["1"; "2"; "3"; "id-0"]%string.
Proof. reflexivity. Qed.

Example update_in_place_on_seed :
  map name (users (snd (UserRepository.update "2"
                          (mkUpdateUserDto (Some "Jane Doe"%string) None) (seeded boot))))
  = ["John Doe"; "Jane Doe"; "Alex Johnson"]%string.
Proof. reflexivity. Qed.

Example delete_on_seed :
  map id (users (snd (UserRepository.delete "2" (seeded boot)))) = ["1"; "3"]%string.
Proof. reflexivity. Qed.

(** ** Pagination *)

(** With a start inside or past the array and a positive count, [slice]
    drops and takes. *)
Lemma slice_drop_take {A : Type} (arr : list A) (start count : Z) :
  (0 <= start)%Z -> (0 < count)%Z ->
  slice arr start (start + count) = take (Z.to_nat count) (drop (Z.to_nat start) arr).
Proof.
  intros Hs Hc. unfold slice.
  destruct (Z.ltb_spec start 0) as [?|_]; [lia|].
  destruct (Z.ltb_spec (start + count) 0) as [?|_]; [lia|].
  destruct (Z_le_gt_dec start (Z.of_nat (length arr))) as [Hin|Hout].
  - rewrite (Z.min_l start) by lia.
    destruct (Z_le_gt_dec (start + count) (Z.of_nat (length arr))) as [Hfit|Hcut].
    + rewrite Z.min_l by lia. f_equal. lia.
    + rewrite Z.min_r by lia.
      rewrite !take_ge; [reflexivity| |]; rewrite length_drop; lia.
  - rewrite !Z.min_r by lia. rewrite Z.sub_diag. simpl.
    rewrite (drop_ge arr (Z.to_nat start)) by lia.
    rewrite take_nil. reflexivity.
Qed.

(** C7. For [offset >= 0] and [0 < limit <= 100], [getUsersPaginated]
    answers with the [limit] records of the collection that start at index
    [offset], as many as there are: [min(limit, max(0, total - offset))]
    of them.  Its [total] is what [count()] returns, whatever [offset] and
    [limit] are. *)
Theorem getUsersPaginated_slice_and_total (w : World) (offset_ limit_ : Z) :
  (0 <= offset_)%Z ->
  (0 < limit_ <= 100)%Z ->
  let page := take (Z.to_nat limit_) (drop (Z.to_nat offset_) (users w)) in
  exists total_ text,
    UserService.getUsersPaginated inMemory offset_ limit_ w
    = (Return (success (mkPage page total_ offset_ limit_) text), w)
    /\ UserRepository.count w = (Return total_, w)
    /\ Z.of_nat (length page)
       = Z.min limit_ (Z.max 0 (Z.of_nat total_ - offset_))
    /\ (forall i : nat, (i < length page)%nat ->
                        page !! i = users w !! (Z.to_nat offset_ + i)%nat).
Proof.
  intros Hoff Hlim page.
  exists (length (users w)). eexists.
  split; [|split; [reflexivity|split]].
  - unfold UserService.getUsersPaginated, try_catch, bind, Promise_all2.
    destruct (Z.ltb_spec offset_ 0) as [?|_]; [lia|].
    destruct (Z.leb_spec limit_ 0) as [?|_]; [lia|].
    destruct (Z.ltb_spec 100 limit_) as [?|_]; [lia|].
    simpl. unfold UserRepository.findPaginated.
    rewrite slice_drop_take by lia. reflexivity.
  - unfold page. rewrite length_take, length_drop. lia.
  - intros i Hi. unfold page in *.
    rewrite lookup_take_lt by (rewrite length_take in Hi; lia).
    apply lookup_drop.
Qed.

Lemma getUsersPaginated_slice_and_total_witness :
  exists total_ text,
    UserService.getUsersPaginated inMemory 1 5 (seeded boot)
    = (Return (success (mkPage (take 5 (drop 1 (users (seeded boot)))) total_ 1 5) text),
       seeded boot)
    /\ UserRepository.count (seeded boot) = (Return total_, seeded boot)
    /\ Z.of_nat (length (take 5 (drop 1 (users (seeded boot)))))
       = Z.min 5 (Z.max 0 (Z.of_nat total_ - 1))
    /\ (forall i : nat,
           (i < length (take 5 (drop 1 (users (seeded boot)))))%nat ->
           take 5 (drop 1 (users (seeded boot))) !! i
           = users (seeded boot) !! (1 + i)%nat).
Proof.
  apply (getUsersPaginated_slice_and_total (seeded boot) 1 5); lia.
Defined.

(** ** Broadcast *)

Lemma stringified_of_app (t1 t2 : list Effect) :
  stringified_of (t1 ++ t2) = stringified_of t1 ++ stringified_of t2.
Proof. apply flat_map_app. Qed.

Lemma sends_of_app (t1 t2 : list Effect) :
  sends_of (t1 ++ t2) = sends_of t1 ++ sends_of t2.
Proof. apply flat_map_app. Qed.

Lemma Set_has_true (ws : Handle) (s : list Handle) :
  WebSocketManager.Set_has ws s = true <-> ws ∈ s.
Proof.
  unfold WebSocketManager.Set_has. rewrite existsb_exists, list_elem_of_In.
  split.
  - intros (x & Hin & Heq). apply Nat.eqb_eq in Heq. subst. exact Hin.
  - intros Hin. exists ws. split; [exact Hin|apply Nat.eqb_refl].
Qed.

Lemma Set_delete_absent (ws : Handle) (s : list Handle) :
  ws ∉ s -> WebSocketManager.Set_delete ws s = s.
Proof.
  induction s as [|x rest IH]; intros Hn; simpl; [reflexivity|].
  apply not_elem_of_cons in Hn as [Hne Hrest].
  destruct (Nat.eqb_spec ws x) as [->|_]; [contradiction|].
  simpl. f_equal. apply IH, Hrest.
Qed.

Lemma Set_delete_app (ws : Handle) (front back : list Handle) :
  WebSocketManager.Set_delete ws (front ++ back)
  = WebSocketManager.Set_delete ws front ++ WebSocketManager.Set_delete ws back.
Proof. apply List.filter_app. Qed.

Lemma Set_delete_head (ws : Handle) (back : list Handle) :
  WebSocketManager.Set_delete ws (ws :: back) = WebSocketManager.Set_delete ws back.
Proof. unfold WebSocketManager.Set_delete. simpl. rewrite Nat.eqb_refl. reflexivity. Qed.

Lemma Set_delete_middle (ws : Handle) (front back : list Handle) :
  NoDup (front ++ ws :: back) ->
  WebSocketManager.Set_delete ws (front ++ ws :: back) = front ++ back.
Proof.
  intros Hnd. apply NoDup_app in Hnd as (_ & Hdisj & Hback).
  apply NoDup_cons in Hback as [Hnb _].
  rewrite Set_delete_app, Set_delete_head, !Set_delete_absent; auto.
  intros Hin. apply (Hdisj ws Hin). left.
Qed.

Lemma Set_delete_spec (ws x : Handle) (s : list Handle) :
  x ∈ WebSocketManager.Set_delete ws s <-> x ∈ s /\ x <> ws.
Proof.
  unfold WebSocketManager.Set_delete.
  rewrite !list_elem_of_In, List.filter_In, negb_true_iff, Nat.eqb_neq.
  split; intros [? ?]; split; auto.
Qed.

Section Loop.
Variable msg : Payload.

(** One turn of the loop: a send that throws evicts the sink there and
    then, and is counted as a failure; the loop goes on. *)
Lemma send_or_evict_run (ws : Handle) (counts : nat * nat) (w : World) :
  WebSocketManager.send_or_evict msg ws counts w =
  match send_throws w ws with
  | None => (Return (S (fst counts), snd counts), emit (Sent ws msg None) w)
  | Some t =>
      (Return (fst counts, S (snd counts)),
       set_connections (WebSocketManager.Set_delete ws (connections w))
         (emit (LoggedError "Failed to send message to WebSocket connection:" t)
            (emit (Sent ws msg (Some t)) w)))
  end.
Proof.
  unfold WebSocketManager.send_or_evict, try_catch, bind, WebSocketManager.send.
  destruct (send_throws w ws); reflexivity.
Qed.

(** The loop over a set: every pending member gets one send, in order;
    the members whose send threw are gone afterwards. *)
Lemma forEach_run (pending : list Handle) :
  forall (kept : list Handle) (counts : nat * nat) (w : World),
    connections w = kept ++ pending ->
    NoDup (kept ++ pending) ->
    exists counts',
      WebSocketManager.forEach pending (WebSocketManager.send_or_evict msg) counts w
      = (Return counts',
         mkWorld (users w) (kept ++ List.filter (alive w) pending)
                 (send_throws w) (clock w) (ticks w) (uuids w) (draws w)
                 (trace w ++ flat_map (attempt w msg) pending)).
Proof.
  induction pending as [|ws rest IH]; intros kept counts w Hc Hnd.
  - exists counts. rewrite app_nil_r in Hc. cbn [flat_map List.filter WebSocketManager.forEach].
    rewrite !app_nil_r, <- Hc. destruct w; reflexivity.
  - simpl.
    assert (Hin : WebSocketManager.Set_has ws (connections w) = true).
    { apply Set_has_true. rewrite Hc. apply elem_of_app. right. left. }
    rewrite Hin. unfold bind at 1. rewrite send_or_evict_run.
    unfold alive, attempt.
    destruct (send_throws w ws) as [t|] eqn:Hs.
    + destruct (IH kept (fst counts, S (snd counts))
                  (set_connections (WebSocketManager.Set_delete ws (connections w))
                     (emit (LoggedError
                              "Failed to send message to WebSocket connection:" t)
                        (emit (Sent ws msg (Some t)) w)))) as [c' Hrun].
      * simpl. rewrite Hc. apply Set_delete_middle, Hnd.
      * apply NoDup_app in Hnd as (Hk & Hd & Hr).
        apply NoDup_cons in Hr as [_ Hr]. apply NoDup_app. repeat split; auto.
        intros x Hx Hx'. apply (Hd x Hx). right. exact Hx'.
      * exists c'. rewrite Hrun. simpl. rewrite <- !app_assoc. reflexivity.
    + destruct (IH (kept ++ [ws]) (S (fst counts), snd counts)
                  (emit (Sent ws msg None) w)) as [c' Hrun].
      * simpl. rewrite Hc, <- app_assoc. reflexivity.
      * rewrite <- app_assoc. exact Hnd.
      * exists c'. rewrite Hrun. simpl. rewrite <- !app_assoc. reflexivity.
Qed.

(** What the loop never does, whatever the list it runs over: throw,
    touch the store or the environment, serialize. *)
Lemma forEach_frame (pending : list Handle) :
  forall (counts : nat * nat) (w : World),
    exists counts' w',
      WebSocketManager.forEach pending (WebSocketManager.send_or_evict msg) counts w
      = (Return counts', w')
      /\ users w' = users w /\ clock w' = clock w /\ ticks w' = ticks w
      /\ uuids w' = uuids w /\ draws w' = draws w
      /\ stringified_of (trace w') = stringified_of (trace w).
Proof.
  induction pending as [|ws rest IH]; intros counts w; simpl.
  - exists counts, w. repeat split.
  - destruct (WebSocketManager.Set_has ws (connections w)); [|apply IH].
    unfold bind at 1. rewrite send_or_evict_run.
    destruct (send_throws w ws) as [t|];
      match goal with
      | |- context [WebSocketManager.forEach rest _ ?c ?w1] =>
          destruct (IH c w1) as (c' & w' & Hrun & Hu & Hc & Ht & Hi & Hd & Hs)
      end;
      exists c', w'; rewrite Hrun; repeat split; auto;
      rewrite Hs; simpl; rewrite !stringified_of_app; simpl;
      rewrite ?app_nil_r; reflexivity.
Qed.

End Loop.

Lemma stringified_of_attempts (w : World) (msg : Payload) (sinks : list Handle) :
  stringified_of (flat_map (attempt w msg) sinks) = [].
Proof.
  induction sinks as [|ws rest IH]; [reflexivity|].
  simpl. rewrite stringified_of_app, IH. unfold attempt.
  destruct (send_throws w ws); reflexivity.
Qed.

Lemma sends_of_attempts (w : World) (msg : Payload) (sinks : list Handle) :
  sends_of (flat_map (attempt w msg) sinks)
  = map (fun ws => (ws, msg, send_throws w ws)) sinks.
Proof.
  induction sinks as [|ws rest IH]; [reflexivity|].
  simpl. rewrite sends_of_app, IH. unfold attempt.
  destruct (send_throws w ws); reflexivity.
Qed.

(** [broadcast] on a registry without sinks. *)
Lemma broadcast_nobody (event : UserEvent) (w : World) :
  connections w = [] ->
  WebSocketManager.broadcast event w
  = (Return tt,
     emit (Logged "No WebSocket connections to broadcast to")
          (emit (Stringified event) w)).
Proof.
  intros Hc. unfold WebSocketManager.broadcast, bind,
    WebSocketManager.JSON_stringify, WebSocketManager.connections_size.
  simpl. rewrite Hc. reflexivity.
Qed.

(** [broadcast] never throws and leaves the store and the environment
    alone; it serializes its event, once. *)
Lemma broadcast_frame (event : UserEvent) (w : World) :
  exists w',
    WebSocketManager.broadcast event w = (Return tt, w')
    /\ users w' = users w /\ clock w' = clock w /\ ticks w' = ticks w
    /\ uuids w' = uuids w /\ draws w' = draws w
    /\ stringified_of (trace w') = stringified_of (trace w) ++ [event].
Proof.
  unfold WebSocketManager.broadcast, bind, WebSocketManager.JSON_stringify,
    WebSocketManager.connections_size, WebSocketManager.connections_forEach.
  cbn [emit connections].
  destruct (length (connections w) =? 0)%nat.
  - eexists. split; [reflexivity|]. cbn. repeat split.
    rewrite !stringified_of_app. cbn. rewrite app_nil_r. reflexivity.
  - match goal with
    | |- context [WebSocketManager.forEach ?l _ ?c ?w1] =>
        destruct (forEach_frame (JSON_text event) l c w1)
          as (c' & w' & Hrun & Hu & Hc & Ht & Hi & Hd & Hs)
    end.
    cbn [connections] in Hrun. rewrite Hrun.
    eexists. split; [reflexivity|]. cbn. repeat split; auto.
    rewrite stringified_of_app, Hs. cbn. rewrite stringified_of_app. cbn.
    rewrite !app_nil_r. reflexivity.
Qed.

(** The orchestrator's wrapper does what [broadcast] does. *)
Lemma broadcastUserEvent_run (event : UserEvent) (w w' : World) :
  WebSocketManager.broadcast event w = (Return tt, w') ->
  UserService.broadcastUserEvent event w = (Return tt, w').
Proof.
  intros H. unfold UserService.broadcastUserEvent, try_catch. rewrite H. reflexivity.
Qed.

Lemma broadcastUserEvent_frame (event : UserEvent) (w : World) :
  exists w',
    UserService.broadcastUserEvent event w = (Return tt, w')
    /\ users w' = users w /\ clock w' = clock w /\ ticks w' = ticks w
    /\ uuids w' = uuids w /\ draws w' = draws w
    /\ stringified_of (trace w') = stringified_of (trace w) ++ [event].
Proof.
  destruct (broadcast_frame event w) as (w' & Hrun & H).
  exists w'. split; [apply broadcastUserEvent_run, Hrun|exact H].
Qed.

(** C8. [broadcast] serializes its event once and then tries one send of
    that text to every registered sink, in order of registration.  The
    sinks whose send threw are the ones missing from the registry
    afterwards, each evicted in the turn of the loop in which its send
    threw, and the sinks after it still get their send.  With no sink
    registered nothing is sent, and nothing is thrown in either case;
    the orchestrator's [broadcastUserEvent] behaves the same. *)
Theorem broadcast_serializes_once_and_tries_every_sink
        (event : UserEvent) (w : World) :
  NoDup (connections w) ->
  exists w' delta,
    WebSocketManager.broadcast event w = (Return tt, w')
    /\ UserService.broadcastUserEvent event w = (Return tt, w')
    /\ trace w' = trace w ++ delta
    /\ stringified_of delta = [event]
    /\ sends_of delta
       = map (fun ws => (ws, JSON_text event, send_throws w ws)) (connections w)
    /\ connections w' = List.filter (alive w) (connections w)
    /\ users w' = users w
    /\ (forall ws counts w1 t,
           send_throws w1 ws = Some t ->
           exists counts' w2,
             WebSocketManager.send_or_evict (JSON_text event) ws counts w1
             = (Return counts', w2)
             /\ connections w2 = WebSocketManager.Set_delete ws (connections w1))
    /\ (connections w = [] ->
        sends_of delta = [] /\ connections w' = [] /\ users w' = users w).
Proof.
  intros Hnd.
  assert (Hshape : exists w' delta,
             WebSocketManager.broadcast event w = (Return tt, w')
             /\ trace w' = trace w ++ delta
             /\ stringified_of delta = [event]
             /\ sends_of delta
                = map (fun ws => (ws, JSON_text event, send_throws w ws)) (connections w)
             /\ connections w' = List.filter (alive w) (connections w)
             /\ users w' = users w).
  { destruct (connections w) as [|ws0 rest0] eqn:Hc.
    - rewrite (broadcast_nobody event w Hc).
      eexists. exists [Stringified event;
                       Logged "No WebSocket connections to broadcast to"].
      split; [reflexivity|]. cbn. rewrite Hc, <- app_assoc. repeat split.
    - unfold WebSocketManager.broadcast, bind, WebSocketManager.JSON_stringify,
        WebSocketManager.connections_size, WebSocketManager.connections_forEach.
      cbn [emit connections]. rewrite Hc. cbn [length Nat.eqb].
      change (connections (emit (Stringified event) w)) with (connections w).
      rewrite Hc.
      destruct (forEach_run (JSON_text event) (ws0 :: rest0) [] (0, 0)%nat
                  (emit (Stringified event) w)) as [c' Hrun].
      + cbn. exact Hc.
      + cbn [app]. exact Hnd.
      + rewrite Hrun. eexists.
        exists ([Stringified event]
                  ++ flat_map (attempt (emit (Stringified event) w) (JSON_text event))
                              (ws0 :: rest0)
                  ++ [Logged ("Broadcasted " ++ WebSocketManager.EventType_text (type event)
                              ++ " event to " ++ String_of_nat (fst c')
                              ++ " connections (" ++ String_of_nat (snd c')
                              ++ " failures)")%string]).
        split; [reflexivity|]. cbn [trace emit console_log snd users connections app].
        split; [rewrite <- !app_assoc; reflexivity|].
        split.
        { change (stringified_of (Stringified event :: ?l))
            with (event :: stringified_of l).
          rewrite stringified_of_app, stringified_of_attempts. reflexivity. }
        split.
        { change (sends_of (Stringified event :: ?l)) with (sends_of l).
          rewrite sends_of_app, sends_of_attempts. apply app_nil_r. }
        split; reflexivity. }
  destruct Hshape as (w' & delta & Hrun & Htr & Hstr & Hsends & Hconn & Hus).
  exists w', delta. split; [exact Hrun|].
  split; [apply broadcastUserEvent_run, Hrun|].
  repeat (split; [assumption|]).
  split.
  - intros ws counts w1 t Ht. rewrite send_or_evict_run, Ht.
    eexists; eexists. split; reflexivity.
  - intros Hc. rewrite Hsends, Hconn, Hc. repeat split. exact Hus.
Qed.

Example broadcast_three_sinks :
  let w' := snd (WebSocketManager.broadcast sample_event three_sinks) in
  connections w' = [1; 3]%nat
  /\ sends_of (trace w')
     = [ (1%nat, JSON_text sample_event, None);
         (2%nat, JSON_text sample_event, Some (ErrorObj "socket closed"));
         (3%nat, JSON_text sample_event, None) ].
Proof. split; reflexivity. Qed.

Lemma broadcast_serializes_once_and_tries_every_sink_witness :
  NoDup (connections three_sinks)
  /\ exists w' delta,
      WebSocketManager.broadcast sample_event three_sinks = (Return tt, w')
      /\ UserService.broadcastUserEvent sample_event three_sinks = (Return tt, w')
      /\ trace w' = trace three_sinks ++ delta
      /\ stringified_of delta = [sample_event]
      /\ sends_of delta
         = map (fun ws => (ws, JSON_text sample_event, send_throws three_sinks ws))
               (connections three_sinks)
      /\ connections w' = List.filter (alive three_sinks) (connections three_sinks)
      /\ users w' = users three_sinks
      /\ (forall ws counts w1 t,
             send_throws w1 ws = Some t ->
             exists counts' w2,
               WebSocketManager.send_or_evict (JSON_text sample_event) ws counts w1
               = (Return counts', w2)
               /\ connections w2 = WebSocketManager.Set_delete ws (connections w1))
      /\ (connections three_sinks = [] ->
          sends_of delta = [] /\ connections w' = [] /\ users w' = users three_sinks).
Proof.
  assert (Hnd : NoDup (connections three_sinks)).
  { apply NoDup_ListNoDup. repeat constructor; simpl; intuition lia. }
  split; [exact Hnd|].
  apply (broadcast_serializes_once_and_tries_every_sink sample_event three_sinks Hnd).
Defined.

(** ** Deleting *)

Lemma findById_run (id_ : string) (w : World) :
  UserRepository.findById id_ w = (Return (List.find (has_id id_) (users w)), w).
Proof. reflexivity. Qed.

Lemma findByEmail_run (e : string) (w : World) :
  UserRepository.findByEmail e w = (Return (List.find (has_email e) (users w)), w).
Proof. reflexivity. Qed.

(** [delete] on an id that [findById] resolves. *)
Lemma delete_found (id_ : string) (w : World) (stored : User) :
  List.find (has_id id_) (users w) = Some stored ->
  exists index,
    findIndex (has_id id_) (users w) = Some index
    /\ users w !! index = Some stored
    /\ UserRepository.delete id_ w
       = (Return (Some (with_updatedAt stored (clock w (ticks w)))),
          tick (set_users (base.delete index (users w)) w)).
Proof.
  intros Hf. destruct (find_findIndex _ _ _ Hf) as (index & Hi & Hl).
  exists index. rewrite delete_run, Hi, Hl. auto.
Qed.

Lemma removed_at (id_ : string) (us : list User) (index : nat) :
  findIndex (has_id id_) us = Some index ->
  removed id_ us (base.delete index us).
Proof.
  intros Hi. destruct (target_found _ _ _ Hi) as (target & Hl & _ & Hid & Hfront).
  exists (take index us), target, (drop (S index) us).
  split; [apply split_at, Hl|]. split; [apply delete_take_drop|]. auto.
Qed.

(** [deleteUser] on a non-blank id that [findById] resolves. *)
Lemma deleteUser_found (id_ : string) (w : World) (stored : User) :
  UserService.blank id_ = false ->
  List.find (has_id id_) (users w) = Some stored ->
  let snapshot := with_updatedAt stored (clock w (ticks w)) in
  exists w',
    UserService.deleteUser inMemory id_ w
    = (Return (success snapshot "User deleted successfully"), w')
    /\ removed id_ (users w) (users w')
    /\ stringified_of (trace w')
       = stringified_of (trace w) ++ [mkUserEvent deleted snapshot].
Proof.
  intros Hb Hf snapshot.
  destruct (delete_found _ _ _ Hf) as (index & Hi & Hl & Hdel).
  unfold UserService.deleteUser, try_catch, bind. rewrite Hb.
  cbn [repo_findById repo_delete inMemory].
  rewrite findById_run, Hf, Hdel.
  destruct (broadcastUserEvent_frame (mkUserEvent deleted snapshot)
              (tick (set_users (base.delete index (users w)) w)))
    as (w' & Hrun & Hu & _ & _ & _ & _ & Hs).
  fold snapshot. rewrite Hrun. exists w'.
  split; [reflexivity|]. split.
  - rewrite Hu. cbn. apply removed_at, Hi.
  - exact Hs.
Qed.

(** For C2: on the seeded store, [delete("1")] at clock reading 6 returns
    record ["1"] with [updatedAt = 6], while the stored record had
    [updatedAt = 1]: the returned snapshot is not the stored one. *)
Lemma delete_returns_a_refreshed_updatedAt :
  exists stored returned w',
    List.find (has_id "1") (users (seeded boot)) = Some stored
    /\ UserRepository.delete "1" (seeded boot) = (Return (Some returned), w')
    /\ updatedAt stored = 1%Z
    /\ updatedAt returned = 6%Z
    /\ Z.eqb (updatedAt returned) (updatedAt stored) = false.
Proof.
  eexists; eexists; eexists.
  split; [reflexivity|]. split; [reflexivity|]. repeat split.
Qed.

(** C2, amended.  For an id that the store resolves, [delete] succeeds and
    removes that record; what it returns has the stored [id], [name],
    [email] and [createdAt], and as [updatedAt] the time of the call.  For
    a non-blank such id, [deleteUser] returns that same value and emits one
    [deleted] event that carries it. *)
Theorem delete_returns_stored_fields_at_time_of_call
        (w : World) (id_ : string) (stored : User) :
  List.find (has_id id_) (users w) = Some stored ->
  let now := clock w (ticks w) in
  let snapshot := with_updatedAt stored now in
  (exists w',
      UserRepository.delete id_ w = (Return (Some snapshot), w')
      /\ removed id_ (users w) (users w'))
  /\ id snapshot = id stored /\ name snapshot = name stored
  /\ email snapshot = email stored /\ createdAt snapshot = createdAt stored
  /\ updatedAt snapshot = now
  /\ (UserService.blank id_ = false ->
      exists w',
        UserService.deleteUser inMemory id_ w
        = (Return (success snapshot "User deleted successfully"), w')
        /\ removed id_ (users w) (users w')
        /\ stringified_of (trace w')
           = stringified_of (trace w) ++ [mkUserEvent deleted snapshot]).
Proof.
  intros Hf now snapshot. split.
  - destruct (delete_found _ _ _ Hf) as (index & Hi & _ & Hdel).
    eexists. split; [exact Hdel|]. cbn. apply removed_at, Hi.
  - repeat (split; [reflexivity|]).
    intros Hb. apply (deleteUser_found id_ w stored Hb Hf).
Qed.

Lemma delete_returns_stored_fields_at_time_of_call_witness :
  List.find (has_id "2") (users (seeded boot))
  = Some (mkUser "2" "Jane Smith" "jane@example.com" 2%Z 3%Z)
  /\ exists w',
      UserService.deleteUser inMemory "2" (seeded boot)
      = (Return (success (mkUser "2" "Jane Smith" "jane@example.com" 2%Z 6%Z)
                         "User deleted successfully"), w')
      /\ removed "2" (users (seeded boot)) (users w')
      /\ stringified_of (trace w')
         = stringified_of (trace (seeded boot))
           ++ [mkUserEvent deleted (mkUser "2" "Jane Smith" "jane@example.com" 2%Z 6%Z)].
Proof.
  split; [reflexivity|].
  apply (delete_returns_stored_fields_at_time_of_call (seeded boot) "2"
           (mkUser "2" "Jane Smith" "jane@example.com" 2%Z 3%Z) eq_refl).
  reflexivity.
Defined.

(** ** Failures inside the orchestrator *)

(** A [try] whose handler returns, returns. *)
Lemma try_catch_returns {A : Type} (body : M A) (handler : Thrown -> M A) :
  (forall t w, exists a w', handler t w = (Return a, w')) ->
  forall w, exists a w', try_catch body handler w = (Return a, w').
Proof.
  intros Hh w. unfold try_catch.
  destruct (body w) as [[a|t] w1]; [exists a, w1; reflexivity|apply Hh].
Qed.

(** A [try] whose body throws is its handler. *)
Lemma try_catch_thrown {A : Type} (body : M A) (handler : Thrown -> M A)
      (w w1 : World) (t : Thrown) :
  body w = (Throw t, w1) -> try_catch body handler w = handler t w1.
Proof. intros H. unfold try_catch. rewrite H. reflexivity. Qed.

Lemma bind_thrown {A B : Type} (c : M A) (k : A -> M B) (w w1 : World) (t : Thrown) :
  c w = (Throw t, w1) -> bind c k w = (Throw t, w1).
Proof. intros H. unfold bind. rewrite H. reflexivity. Qed.

Lemma bind_returned {A B : Type} (c : M A) (k : A -> M B) (w w1 : World) (a : A) :
  c w = (Return a, w1) -> bind c k w = k a w1.
Proof. intros H. unfold bind. rewrite H. reflexivity. Qed.

Section AnyRepository.
Variable r : Repository.

(** No public method of the orchestrator throws. *)
Lemma orchestrator_returns (w : World) :
  (exists resp w', UserService.getAllUsers r w = (Return resp, w'))
  /\ (forall id_, exists resp w', UserService.getUserById r id_ w = (Return resp, w'))
  /\ (forall dto, exists resp w', UserService.createUser r dto w = (Return resp, w'))
  /\ (forall id_ dto, exists resp w', UserService.updateUser r id_ dto w = (Return resp, w'))
  /\ (forall id_, exists resp w', UserService.deleteUser r id_ w = (Return resp, w'))
  /\ (forall o l, exists resp w', UserService.getUsersPaginated r o l w = (Return resp, w'))
  /\ (forall e, exists b w', UserService.userExistsByEmail r e w = (Return b, w'))
  /\ (exists resp w', UserService.getUserStats r w = (Return resp, w')).
Proof.
  repeat split; intros;
    apply try_catch_returns; intros t w0; destruct t;
    eexists; eexists; reflexivity.
Qed.

Lemma createUser_thrown (dto : CreateUserDto) (w w1 : World) (t : Thrown) :
  UserModel.validateCreateDto dto = [] ->
  repo_create r dto w = (Throw t, w1) ->
  UserService.createUser r dto w
  = (Return (failure (report "Failed to create user" t)),
     emit (LoggedError "Error creating user:" t) w1).
Proof.
  intros Hv Hc. unfold UserService.createUser.
  rewrite (try_catch_thrown _ _ w w1 t).
  - destruct t; reflexivity.
  - rewrite Hv. cbn [length Nat.ltb Nat.leb]. apply bind_thrown, Hc.
Qed.

Lemma updateUser_thrown_by_findById
      (id_ : string) (dto : UpdateUserDto) (w w1 : World) (t : Thrown) :
  UserService.blank id_ = false ->
  UserModel.validateUpdateDto dto = [] ->
  repo_findById r id_ w = (Throw t, w1) ->
  UserService.updateUser r id_ dto w
  = (Return (failure (report "Failed to update user" t)),
     emit (LoggedError "Error updating user:" t) w1).
Proof.
  intros Hb Hv Hc. unfold UserService.updateUser.
  rewrite (try_catch_thrown _ _ w w1 t).
  - destruct t; reflexivity.
  - rewrite Hb, Hv. cbn [length Nat.ltb Nat.leb]. apply bind_thrown, Hc.
Qed.

Lemma updateUser_thrown_by_update
      (id_ : string) (dto : UpdateUserDto) (w w1 w2 : World)
      (existing : User) (t : Thrown) :
  UserService.blank id_ = false ->
  UserModel.validateUpdateDto dto = [] ->
  repo_findById r id_ w = (Return (Some existing), w1) ->
  repo_update r id_ dto w1 = (Throw t, w2) ->
  UserService.updateUser r id_ dto w
  = (Return (failure (report "Failed to update user" t)),
     emit (LoggedError "Error updating user:" t) w2).
Proof.
  intros Hb Hv Hf Hc. unfold UserService.updateUser.
  rewrite (try_catch_thrown _ _ w w2 t).
  - destruct t; reflexivity.
  - rewrite Hb, Hv. cbn [length Nat.ltb Nat.leb].
    rewrite (bind_returned _ _ w w1 (Some existing) Hf).
    apply bind_thrown, Hc.
Qed.

Lemma deleteUser_thrown_by_findById (id_ : string) (w w1 : World) (t : Thrown) :
  UserService.blank id_ = false ->
  repo_findById r id_ w = (Throw t, w1) ->
  UserService.deleteUser r id_ w
  = (Return (failure "Failed to delete user"),
     emit (LoggedError "Error deleting user:" t) w1).
Proof.
  intros Hb Hc. unfold UserService.deleteUser.
  rewrite (try_catch_thrown _ _ w w1 t); [reflexivity|].
  rewrite Hb. apply bind_thrown, Hc.
Qed.

Lemma deleteUser_thrown_by_delete
      (id_ : string) (w w1 w2 : World) (existing : User) (t : Thrown) :
  UserService.blank id_ = false ->
  repo_findById r id_ w = (Return (Some existing), w1) ->
  repo_delete r id_ w1 = (Throw t, w2) ->
  UserService.deleteUser r id_ w
  = (Return (failure "Failed to delete user"),
     emit (LoggedError "Error deleting user:" t) w2).
Proof.
  intros Hb Hf Hc. unfold UserService.deleteUser.
  rewrite (try_catch_thrown _ _ w w2 t); [reflexivity|].
  rewrite Hb. rewrite (bind_returned _ _ w w1 (Some existing) Hf).
  apply bind_thrown, Hc.
Qed.

Lemma getAllUsers_thrown (w w1 : World) (t : Thrown) :
  repo_findAll r w = (Throw t, w1) ->
  UserService.getAllUsers r w
  = (Return (failure "Failed to retrieve users"),
     emit (LoggedError "Error fetching users:" t) w1).
Proof.
  intros Hc. unfold UserService.getAllUsers.
  rewrite (try_catch_thrown _ _ w w1 t); [reflexivity|].
  apply bind_thrown, Hc.
Qed.

Lemma getUserById_thrown (id_ : string) (w w1 : World) (t : Thrown) :
  UserService.blank id_ = false ->
  repo_findById r id_ w = (Throw t, w1) ->
  UserService.getUserById r id_ w
  = (Return (failure "Failed to retrieve user"),
     emit (LoggedError "Error fetching user by ID:" t) w1).
Proof.
  intros Hb Hc. unfold UserService.getUserById.
  rewrite (try_catch_thrown _ _ w w1 t); [reflexivity|].
  rewrite Hb. apply bind_thrown, Hc.
Qed.

Lemma getUsersPaginated_thrown (o l : Z) (w w1 : World) (t : Thrown) :
  (0 <= o)%Z -> (0 < l <= 100)%Z ->
  Promise_all2 (repo_findPaginated r o l) (repo_count r) w = (Throw t, w1) ->
  UserService.getUsersPaginated r o l w
  = (Return (failure "Failed to retrieve users"),
     emit (LoggedError "Error fetching paginated users:" t) w1).
Proof.
  intros Ho Hl Hc. unfold UserService.getUsersPaginated.
  rewrite (try_catch_thrown _ _ w w1 t); [reflexivity|].
  destruct (Z.ltb_spec o 0) as [?|_]; [lia|].
  destruct (Z.leb_spec l 0) as [?|_]; [lia|].
  destruct (Z.ltb_spec 100 l) as [?|_]; [lia|].
  cbn [orb]. apply bind_thrown, Hc.
Qed.

Lemma getUserStats_thrown (w w1 : World) (t : Thrown) :
  repo_count r w = (Throw t, w1) ->
  UserService.getUserStats r w
  = (Return (failure "Failed to retrieve user statistics"),
     emit (LoggedError "Error fetching user stats:" t) w1).
Proof.
  intros Hc. unfold UserService.getUserStats.
  rewrite (try_catch_thrown _ _ w w1 t); [reflexivity|].
  apply bind_thrown, Hc.
Qed.

Lemma userExistsByEmail_thrown (e : string) (w w1 : World) (t : Thrown) :
  repo_findByEmail r e w = (Throw t, w1) ->
  UserService.userExistsByEmail r e w
  = (Return false,
     emit (LoggedError "Error checking user existence by email:" t) w1).
Proof.
  intros Hc. unfold UserService.userExistsByEmail.
  rewrite (try_catch_thrown _ _ w w1 t); [reflexivity|].
  apply bind_thrown, Hc.
Qed.

End AnyRepository.

(** For C3: the failure of the backend is not one of validation, not-found
    or conflict, and [createUser] answers with the text of that failure,
    address and port included. *)
Lemma createUser_reports_the_message_of_the_backend :
  exists w',
    UserService.createUser unreachable_backend
      (mkCreateUserDto "Ann Lee" "ann@x.com") (seeded boot)
    = (Return (failure "connect ECONNREFUSED 10.0.0.5:5432"), w')
    /\ includes "connect ECONNREFUSED 10.0.0.5:5432" "10.0.0.5:5432" = true
    /\ String.eqb "connect ECONNREFUSED 10.0.0.5:5432" "Failed to create user" = false.
Proof. eexists. repeat split. Qed.

(** C3, amended.  Whatever the repository behind the orchestrator does, no
    public method of the orchestrator throws.  A failure thrown by a
    repository call is caught and logged; [getAllUsers], [getUserById],
    [deleteUser], [getUsersPaginated] and [getUserStats] answer with their
    fixed text and [userExistsByEmail] with [false]; [createUser] and
    [updateUser] answer with their fixed text for a thrown value that is
    not an [Error], and with the message of the [Error] otherwise. *)
Theorem orchestrator_catches_and_reports (r : Repository) (w : World) :
  (returns (UserService.getAllUsers r) w
   /\ (forall id_, returns (UserService.getUserById r id_) w)
   /\ (forall dto, returns (UserService.createUser r dto) w)
   /\ (forall id_ dto, returns (UserService.updateUser r id_ dto) w)
   /\ (forall id_, returns (UserService.deleteUser r id_) w)
   /\ (forall o l, returns (UserService.getUsersPaginated r o l) w)
   /\ (forall e, returns (UserService.userExistsByEmail r e) w)
   /\ returns (UserService.getUserStats r) w)
  /\ (forall dto t w1,
         UserModel.validateCreateDto dto = [] ->
         repo_create r dto w = (Throw t, w1) ->
         UserService.createUser r dto w
         = (Return (failure (report "Failed to create user" t)),
            emit (LoggedError "Error creating user:" t) w1))
  /\ (forall id_ dto t w1,
         UserService.blank id_ = false ->
         UserModel.validateUpdateDto dto = [] ->
         repo_findById r id_ w = (Throw t, w1) ->
         UserService.updateUser r id_ dto w
         = (Return (failure (report "Failed to update user" t)),
            emit (LoggedError "Error updating user:" t) w1))
  /\ (forall id_ dto existing t w1 w2,
         UserService.blank id_ = false ->
         UserModel.validateUpdateDto dto = [] ->
         repo_findById r id_ w = (Return (Some existing), w1) ->
         repo_update r id_ dto w1 = (Throw t, w2) ->
         UserService.updateUser r id_ dto w
         = (Return (failure (report "Failed to update user" t)),
            emit (LoggedError "Error updating user:" t) w2))
  /\ (forall id_ t w1,
         UserService.blank id_ = false ->
         repo_findById r id_ w = (Throw t, w1) ->
         UserService.deleteUser r id_ w
         = (Return (failure "Failed to delete user"),
            emit (LoggedError "Error deleting user:" t) w1))
  /\ (forall id_ existing t w1 w2,
         UserService.blank id_ = false ->
         repo_findById r id_ w = (Return (Some existing), w1) ->
         repo_delete r id_ w1 = (Throw t, w2) ->
         UserService.deleteUser r id_ w
         = (Return (failure "Failed to delete user"),
            emit (LoggedError "Error deleting user:" t) w2))
  /\ (forall t w1,
         repo_findAll r w = (Throw t, w1) ->
         UserService.getAllUsers r w
         = (Return (failure "Failed to retrieve users"),
            emit (LoggedError "Error fetching users:" t) w1))
  /\ (forall id_ t w1,
         UserService.blank id_ = false ->
         repo_findById r id_ w = (Throw t, w1) ->
         UserService.getUserById r id_ w
         = (Return (failure "Failed to retrieve user"),
            emit (LoggedError "Error fetching user by ID:" t) w1))
  /\ (forall o l t w1,
         (0 <= o)%Z -> (0 < l <= 100)%Z ->
         Promise_all2 (repo_findPaginated r o l) (repo_count r) w = (Throw t, w1) ->
         UserService.getUsersPaginated r o l w
         = (Return (failure "Failed to retrieve users"),
            emit (LoggedError "Error fetching paginated users:" t) w1))
  /\ (forall t w1,
         repo_count r w = (Throw t, w1) ->
         UserService.getUserStats r w
         = (Return (failure "Failed to retrieve user statistics"),
            emit (LoggedError "Error fetching user stats:" t) w1))
  /\ (forall e t w1,
         repo_findByEmail r e w = (Throw t, w1) ->
         UserService.userExistsByEmail r e w
         = (Return false,
            emit (LoggedError "Error checking user existence by email:" t) w1)).
Proof.
  split; [exact (orchestrator_returns r w)|].
  split; [intros; apply createUser_thrown; assumption|].
  split; [intros; apply updateUser_thrown_by_findById; assumption|].
  split; [intros; eapply updateUser_thrown_by_update; eassumption|].
  split; [intros; apply deleteUser_thrown_by_findById; assumption|].
  split; [intros; eapply deleteUser_thrown_by_delete; eassumption|].
  split; [intros; apply getAllUsers_thrown; assumption|].
  split; [intros; apply getUserById_thrown; assumption|].
  split; [intros; apply getUsersPaginated_thrown; assumption|].
  split; [intros; apply getUserStats_thrown; assumption|].
  intros; apply userExistsByEmail_thrown; assumption.
Qed.

(** The backend that rejects with a value that is not an [Error]: the
    caller sees the fixed text only. *)
Lemma orchestrator_catches_and_reports_witness :
  UserModel.validateCreateDto (mkCreateUserDto "Ann Lee" "ann@x.com") = []
  /\ repo_create rejecting_backend (mkCreateUserDto "Ann Lee" "ann@x.com") (seeded boot)
     = (Throw (NonError "timeout after 30000 ms"), seeded boot)
  /\ UserService.createUser rejecting_backend
       (mkCreateUserDto "Ann Lee" "ann@x.com") (seeded boot)
     = (Return (failure "Failed to create user"),
        emit (LoggedError "Error creating user:" (NonError "timeout after 30000 ms"))
             (seeded boot)).
Proof.
  split; [reflexivity|]. split; [reflexivity|].
  exact (proj1 (proj2 (orchestrator_catches_and_reports rejecting_backend (seeded boot)))
           (mkCreateUserDto "Ann Lee" "ann@x.com")
           (NonError "timeout after 30000 ms") (seeded boot) eq_refl eq_refl).
Defined.

(** ** Validation *)

Lemma valid_name_truthy (n : string) :
  UserModel.isValidName n = true -> truthy n = true.
Proof. destruct n; [discriminate|reflexivity]. Qed.

Lemma valid_email_truthy (e : string) :
  UserModel.isValidEmail e = true -> truthy e = true.
Proof. destruct e; [discriminate|reflexivity]. Qed.

Lemma validateCreateDto_valid (n e : string) :
  UserModel.isValidName n = true ->
  UserModel.isValidEmail e = true ->
  UserModel.validateCreateDto (mkCreateUserDto n e) = [].
Proof.
  intros Hn He. unfold UserModel.validateCreateDto. cbn [dto_name dto_email].
  rewrite (valid_name_truthy n Hn), (valid_email_truthy e He), Hn, He. reflexivity.
Qed.

(** A patch passes validation exactly when each field that is present is
    valid; an absent field asks for nothing. *)
Lemma validateUpdateDto_nil (dto : UpdateUserDto) :
  UserModel.validateUpdateDto dto = [] <->
  (forall n, patch_name dto = Some n -> UserModel.isValidName n = true)
  /\ (forall e, patch_email dto = Some e -> UserModel.isValidEmail e = true).
Proof.
  unfold UserModel.validateUpdateDto, UserModel.present_and_invalid.
  destruct dto as [[n|] [e|]]; cbn [patch_name patch_email];
    try destruct (UserModel.isValidName n) eqn:Hn;
    try destruct (UserModel.isValidEmail e) eqn:He;
    cbn [negb app];
    (split;
     [ intros H; try discriminate H; split; intros x [= <-]; assumption
     | intros [H1 H2]; try reflexivity;
       first [ specialize (H1 _ eq_refl); congruence
             | specialize (H2 _ eq_refl); congruence ] ]).
Qed.

(** ** Updating through the orchestrator *)

Lemma update_found (id_ : string) (dto : UpdateUserDto) (w : World) (found : User) :
  List.find (has_id id_) (users w) = Some found ->
  exists index,
    findIndex (has_id id_) (users w) = Some index
    /\ users w !! index = Some found
    /\ UserRepository.update id_ dto w
       = if taken_by_other id_ dto (users w)
         then (Throw (ErrorObj "User with this email already exists"), w)
         else
           let updatedUser := merged found dto (clock w (ticks w)) in
           (Return (Some (with_updatedAt updatedUser (clock w (S (ticks w))))),
            tick (set_users (<[index := updatedUser]> (users w)) (tick w))).
Proof.
  intros Hf. destruct (find_findIndex _ _ _ Hf) as (index & Hi & Hl).
  exists index. rewrite update_run, Hi, Hl. auto.
Qed.

(** The outcomes of [updateUser] over the in-memory repository, in the
    order in which the method decides them. *)
Lemma updateUser_blank (id_ : string) (dto : UpdateUserDto) (w : World) :
  UserService.blank id_ = true ->
  UserService.updateUser inMemory id_ dto w
  = (Return (failure "User ID is required"), w).
Proof.
  intros Hb. unfold UserService.updateUser, try_catch. rewrite Hb. reflexivity.
Qed.

Lemma updateUser_invalid (id_ : string) (dto : UpdateUserDto) (w : World) :
  UserService.blank id_ = false ->
  UserModel.validateUpdateDto dto <> [] ->
  UserService.updateUser inMemory id_ dto w
  = (Return (failure (join ", " (UserModel.validateUpdateDto dto))), w).
Proof.
  intros Hb Hv. unfold UserService.updateUser, try_catch. rewrite Hb.
  destruct (UserModel.validateUpdateDto dto); [contradiction|reflexivity].
Qed.

Lemma updateUser_not_found (id_ : string) (dto : UpdateUserDto) (w : World) :
  UserService.blank id_ = false ->
  UserModel.validateUpdateDto dto = [] ->
  List.find (has_id id_) (users w) = None ->
  UserService.updateUser inMemory id_ dto w
  = (Return (failure "User not found"), w).
Proof.
  intros Hb Hv Hf. unfold UserService.updateUser, try_catch, bind.
  rewrite Hb, Hv. cbn [length Nat.ltb Nat.leb repo_findById inMemory].
  rewrite findById_run, Hf. reflexivity.
Qed.

Lemma updateUser_conflict (id_ : string) (dto : UpdateUserDto) (w : World)
      (found : User) :
  UserService.blank id_ = false ->
  UserModel.validateUpdateDto dto = [] ->
  List.find (has_id id_) (users w) = Some found ->
  taken_by_other id_ dto (users w) = true ->
  UserService.updateUser inMemory id_ dto w
  = (Return (failure "User with this email already exists"),
     emit (LoggedError "Error updating user:"
             (ErrorObj "User with this email already exists")) w).
Proof.
  intros Hb Hv Hf Ht.
  destruct (update_found id_ dto w found Hf) as (index & _ & _ & Hup).
  rewrite Ht in Hup.
  rewrite (updateUser_thrown_by_update inMemory id_ dto w w w found _ Hb Hv
             (eq_trans (findById_run id_ w) (f_equal (fun o => (Return o, w)) Hf))
             Hup).
  reflexivity.
Qed.

Lemma updateUser_success (id_ : string) (dto : UpdateUserDto) (w : World)
      (found : User) :
  UserService.blank id_ = false ->
  UserModel.validateUpdateDto dto = [] ->
  List.find (has_id id_) (users w) = Some found ->
  taken_by_other id_ dto (users w) = false ->
  let stored := merged found dto (clock w (ticks w)) in
  let returned := with_updatedAt stored (clock w (S (ticks w))) in
  exists index w',
    findIndex (has_id id_) (users w) = Some index
    /\ users w !! index = Some found
    /\ UserService.updateUser inMemory id_ dto w
       = (Return (success returned "User updated successfully"), w')
    /\ users w' = <[index := stored]> (users w)
    /\ stringified_of (trace w')
       = stringified_of (trace w) ++ [mkUserEvent updated returned].
Proof.
  intros Hb Hv Hf Ht stored returned.
  destruct (update_found id_ dto w found Hf) as (index & Hi & Hl & Hup).
  rewrite Ht in Hup. cbv zeta in Hup. fold stored in Hup. fold returned in Hup.
  unfold UserService.updateUser, try_catch, bind.
  rewrite Hb, Hv. cbn [length Nat.ltb Nat.leb repo_findById repo_update inMemory].
  rewrite findById_run, Hf, Hup.
  destruct (broadcastUserEvent_frame (mkUserEvent updated returned)
              (tick (set_users (<[index := stored]> (users w)) (tick w))))
    as (w' & Hrun & Hu & _ & _ & _ & _ & Hs).
  rewrite Hrun. exists index, w'.
  repeat split; auto.
Qed.

(** C4. [updateUser] validates the fields that are present in the patch
    and no others.  When it succeeds, the record at the position of the
    target is the old record with the fields of the patch written over it
    and [updatedAt] set to the clock reading made while merging; a field
    that is absent from the patch keeps its value, and so do [id] and
    [createdAt].  The returned value is that record, [updatedAt] read from
    the clock once more. *)
Theorem updateUser_validates_and_merges_present_fields
        (w : World) (id_ : string) (dto : UpdateUserDto) :
  (UserModel.validateUpdateDto dto = [] <->
   (forall n, patch_name dto = Some n -> UserModel.isValidName n = true)
   /\ (forall e, patch_email dto = Some e -> UserModel.isValidEmail e = true))
  /\ (UserService.blank id_ = false ->
      UserModel.validateUpdateDto dto <> [] ->
      UserService.updateUser inMemory id_ dto w
      = (Return (failure (join ", " (UserModel.validateUpdateDto dto))), w))
  /\ (forall resp w' u,
         UserService.updateUser inMemory id_ dto w = (Return resp, w') ->
         data resp = Some u ->
         exists index current,
           findIndex (has_id id_) (users w) = Some index
           /\ users w !! index = Some current
           /\ UserModel.validateUpdateDto dto = []
           /\ users w' = <[index := merged current dto (clock w (ticks w))]> (users w)
           /\ u = with_updatedAt (merged current dto (clock w (ticks w)))
                                 (clock w (S (ticks w)))
           /\ (patch_name dto = None -> name u = name current)
           /\ (forall n, patch_name dto = Some n -> name u = n)
           /\ (patch_email dto = None -> email u = email current)
           /\ (forall e, patch_email dto = Some e -> email u = e)
           /\ id u = id current
           /\ createdAt u = createdAt current
           /\ updatedAt u = clock w (S (ticks w)))
  /\ (forall current,
         UserService.blank id_ = false ->
         UserModel.validateUpdateDto dto = [] ->
         List.find (has_id id_) (users w) = Some current ->
         taken_by_other id_ dto (users w) = false ->
         exists resp w' u,
           UserService.updateUser inMemory id_ dto w = (Return resp, w')
           /\ data resp = Some u).
Proof.
  split; [apply validateUpdateDto_nil|].
  split; [apply updateUser_invalid|].
  split.
  - intros resp w' u Hrun Hdata.
    destruct (UserService.blank id_) eqn:Hb.
    { rewrite updateUser_blank in Hrun by exact Hb.
      injection Hrun as <- <-. discriminate Hdata. }
    destruct (UserModel.validateUpdateDto dto) as [|err errs] eqn:Hv.
    2:{ rewrite updateUser_invalid in Hrun by (auto; rewrite Hv; discriminate).
        injection Hrun as <- <-. discriminate Hdata. }
    destruct (List.find (has_id id_) (users w)) as [current|] eqn:Hf.
    2:{ rewrite updateUser_not_found in Hrun by assumption.
        injection Hrun as <- <-. discriminate Hdata. }
    destruct (taken_by_other id_ dto (users w)) eqn:Ht.
    { rewrite (updateUser_conflict id_ dto w current) in Hrun by assumption.
      injection Hrun as <- <-. discriminate Hdata. }
    destruct (updateUser_success id_ dto w current Hb Hv Hf Ht)
      as (index & w1 & Hi & Hl & Hrun' & Hus & _).
    rewrite Hrun' in Hrun. injection Hrun as <- <-.
    injection Hdata as <-.
    exists index, current. repeat (split; [assumption || reflexivity|]).
    cbn. repeat split.
    + intros ->. reflexivity.
    + intros n ->. reflexivity.
    + intros ->. reflexivity.
    + intros e ->. reflexivity.
  - intros current Hb Hv Hf Ht.
    destruct (updateUser_success id_ dto w current Hb Hv Hf Ht)
      as (index & w1 & _ & _ & Hrun & _).
    eexists; eexists; eexists. split; [exact Hrun|reflexivity].
Qed.

(** Renaming record ["2"] of the seeded store: the name changes, the
    e-mail address stays. *)
Lemma updateUser_validates_and_merges_present_fields_witness :
  exists resp w' u,
    UserService.updateUser inMemory "2"
      (mkUpdateUserDto (Some "Jane Doe"%string) None) (seeded boot)
    = (Return resp, w')
    /\ data resp = Some u.
Proof.
  exact (proj2 (proj2 (proj2
           (updateUser_validates_and_merges_present_fields (seeded boot) "2"
              (mkUpdateUserDto (Some "Jane Doe"%string) None))))
           (mkUser "2" "Jane Smith" "jane@example.com" 2%Z 3%Z)
           eq_refl eq_refl eq_refl eq_refl).
Defined.

Example updateUser_renames_on_seed :
  fst (UserService.updateUser inMemory "2"
         (mkUpdateUserDto (Some "Jane Doe"%string) None) (seeded boot))
  = Return (success (mkUser "2" "Jane Doe" "jane@example.com" 2%Z 7%Z)
                    "User updated successfully").
Proof. reflexivity. Qed.

(** ** Duplicate e-mail addresses *)

Lemma find_present {A : Type} (p : A -> bool) (arr : list A) (x : A) :
  x ∈ arr -> p x = true -> exists y, List.find p arr = Some y.
Proof.
  intros Hin Hp. destruct (List.find p arr) as [y|] eqn:Hf; [eauto|].
  apply list_elem_of_In in Hin.
  rewrite (List.find_none _ _ Hf x Hin) in Hp. discriminate.
Qed.

Lemma stringified_of_logged_error (tr : list Effect) (label : string) (t : Thrown) :
  stringified_of (tr ++ [LoggedError label t]) = stringified_of tr.
Proof. rewrite stringified_of_app. apply app_nil_r. Qed.

(** [createUser] with valid fields and an address that [findByEmail]
    resolves: the store throws, the orchestrator reports the message. *)
Lemma createUser_duplicate (createDto : CreateUserDto) (w : World) (existing : User) :
  UserModel.validateCreateDto createDto = [] ->
  List.find (has_email (dto_email createDto)) (users w) = Some existing ->
  UserService.createUser inMemory createDto w
  = (Return (failure "User with this email already exists"),
     emit (LoggedError "Error creating user:"
             (ErrorObj "User with this email already exists")) w).
Proof.
  intros Hv Hf.
  apply (createUser_thrown inMemory createDto w w
           (ErrorObj "User with this email already exists") Hv).
  cbn [repo_create inMemory]. rewrite create_run, Hf. reflexivity.
Qed.

(** The check of [update], for a patch that sets only the address, when
    [findByEmail] resolves that address. *)
Lemma taken_by_other_resolved (id_ e : string) (us : list User) (owner : User) :
  truthy e = true ->
  List.find (has_email e) us = Some owner ->
  taken_by_other id_ (mkUpdateUserDto None (Some e)) us
  = negb (String.eqb (id owner) id_).
Proof.
  intros Ht Hf. unfold taken_by_other. cbn [patch_email]. rewrite Ht, Hf. reflexivity.
Qed.

(** Validation comes before the look for a duplicate.  In the state
    [unvalidated_email], which only a direct call of the store can
    produce, a live record has the address ["nobody"], and [createUser]
    with that address and a valid name is turned down by validation,
    with a text that does not contain ["already exists"]. *)
Lemma createUser_validates_before_it_looks_for_duplicates :
  exists w',
    map email (users unvalidated_email)
    = ["nobody"; "jane@example.com"; "alex@example.com"]%string
    /\ UserModel.isValidName "Bob Ray" = true
    /\ UserService.createUser inMemory (mkCreateUserDto "Bob Ray" "nobody")
         unvalidated_email
       = (Return (failure "Valid email is required"), w')
    /\ includes "Valid email is required" "already exists" = false.
Proof. eexists. repeat split. Qed.

(** In the same state, [updateUser] with the address ["nobody"] is
    turned down by validation too, for the record that has the address
    and for another one. *)
Lemma updateUser_validates_before_it_looks_for_conflicts :
  exists A B wB wA,
    users unvalidated_email !! 0%nat = Some A
    /\ users unvalidated_email !! 1%nat = Some B
    /\ id A = "1"%string /\ id B = "2"%string /\ email A = "nobody"%string
    /\ UserService.updateUser inMemory (id B)
         (mkUpdateUserDto None (Some (email A))) unvalidated_email
       = (Return (failure "Valid email is required"), wB)
    /\ UserService.updateUser inMemory (id A)
         (mkUpdateUserDto None (Some (email A))) unvalidated_email
       = (Return (failure "Valid email is required"), wA)
    /\ includes "Valid email is required" "already exists" = false.
Proof. do 4 eexists. repeat split. Qed.

Example updateUser_own_email_on_seed :
  fst (UserService.updateUser inMemory "1"
         (mkUpdateUserDto None (Some "john@example.com"%string)) (seeded boot))
  = Return (success (mkUser "1" "John Doe" "john@example.com" 0%Z 7%Z)
                    "User updated successfully").
Proof. reflexivity. Qed.

(** ** Uniqueness of e-mail addresses *)

Lemma same_key {A B : Type} (f : A -> B) (l : list A) (x y : A) :
  NoDup (f <$> l) -> x ∈ l -> y ∈ l -> f x = f y -> x = y.
Proof.
  induction l as [|z rest IH]; intros Hnd Hx Hy Hf.
  - inversion Hx.
  - rewrite fmap_cons in Hnd. apply NoDup_cons in Hnd as [Hz Hrest].
    apply elem_of_cons in Hx as [->|Hx]; apply elem_of_cons in Hy as [->|Hy].
    + reflexivity.
    + exfalso. apply Hz. rewrite Hf. apply list_elem_of_fmap_2, Hy.
    + exfalso. apply Hz. rewrite <- Hf. apply list_elem_of_fmap_2, Hx.
    + apply IH; assumption.
Qed.

Lemma NoDup_insert_fresh {A : Type} (l : list A) (i : nat) (x : A) :
  NoDup l -> x ∉ l -> NoDup (<[i := x]> l).
Proof.
  intros Hnd Hx. destruct (l !! i) as [y|] eqn:Hl.
  - rewrite insert_take_drop by (eapply lookup_lt_Some, Hl).
    rewrite (split_at l i y Hl) in Hnd, Hx.
    apply NoDup_app in Hnd as (Hfront & Hdisj & Hback).
    apply NoDup_cons in Hback as [_ Hback].
    apply not_elem_of_app in Hx as [Hxf Hxb].
    apply not_elem_of_cons in Hxb as [_ Hxb].
    apply NoDup_app. split; [exact Hfront|]. split.
    + intros z Hz Hz'. apply elem_of_cons in Hz' as [->|Hz'];
        [contradiction|]. apply (Hdisj z Hz). right. exact Hz'.
    + apply NoDup_cons. split; assumption.
  - rewrite list_insert_ge; [exact Hnd|]. apply lookup_ge_None, Hl.
Qed.

Lemma find_absent (e : string) (us : list User) :
  List.find (has_email e) us = None -> e ∉ email <$> us.
Proof.
  intros Hf Hin. apply list_elem_of_fmap_1 in Hin as (u & -> & Hu).
  apply list_elem_of_In in Hu.
  pose proof (List.find_none _ _ Hf u Hu) as Hno.
  apply has_email_false in Hno. contradiction.
Qed.

(** [create] keeps the addresses apart, and the ids too when the
    identifier it draws is not in use. *)
Lemma create_consistent (createDto : CreateUserDto) (w : World) :
  consistent (users w) ->
  uuids w (draws w) ∉ id <$> users w ->
  consistent (users (snd (UserRepository.create createDto w))).
Proof.
  intros [Hids Hemails] Hfresh. rewrite create_run.
  destruct (List.find _ (users w)) eqn:Hf; [split; assumption|].
  cbn [snd users tick set_users]. unfold consistent. rewrite !fmap_app. cbn.
  split; apply NoDup_app; (split; [assumption|]);
    (split; [|apply NoDup_singleton]); intros x Hx Hx';
    apply list_elem_of_singleton in Hx'; subst x.
  - contradiction.
  - apply (find_absent _ _ Hf Hx).
Qed.

Lemma delete_consistent (id_ : string) (w : World) :
  consistent (users w) ->
  consistent (users (snd (UserRepository.delete id_ w))).
Proof.
  intros [Hids Hemails]. rewrite delete_run.
  destruct (findIndex _ (users w)) as [index|]; [|split; assumption].
  destruct (users w !! index); [|split; assumption].
  cbn [snd users tick set_users]. unfold consistent. rewrite !list_fmap_delete.
  split.
  - eapply sublist_NoDup; [exact Hids|apply sublist_delete].
  - eapply sublist_NoDup; [exact Hemails|apply sublist_delete].
Qed.

(** [update] keeps ids and addresses apart, unless the patch sets the
    address to the empty string: that value passes the truthiness test of
    the check, unexamined. *)
Lemma update_consistent (id_ : string) (updateDto : UpdateUserDto) (w : World) :
  consistent (users w) ->
  patch_email updateDto <> Some ""%string ->
  consistent (users (snd (UserRepository.update id_ updateDto w))).
Proof.
  intros [Hids Hemails] Hne. rewrite update_run.
  destruct (findIndex _ (users w)) as [index|] eqn:Hi; [|split; assumption].
  destruct (taken_by_other id_ updateDto (users w)) eqn:Ht; [split; assumption|].
  destruct (target_found _ _ _ Hi) as (current & Hl & _ & Hid & _).
  rewrite Hl. cbn [snd users tick set_users]. unfold consistent.
  rewrite !list_fmap_insert. cbn [merged id email]. split.
  - rewrite list_insert_id; [exact Hids|]. rewrite list_lookup_fmap, Hl. reflexivity.
  - unfold taken_by_other in Ht.
    destruct (patch_email updateDto) as [e|]; cbn [UserModel.spread].
    + destruct e as [|c e']; [contradiction|]. cbn [truthy andb] in Ht.
      destruct (List.find (has_email (String c e')) (users w)) as [other|] eqn:Hf.
      * apply negb_false_iff, String.eqb_eq in Ht.
        destruct (find_In _ _ _ Hf) as [Hin He]. apply has_email_true in He.
        assert (other = current) as ->.
        { apply (same_key id (users w)); auto.
          - eapply list_elem_of_lookup_2, Hl.
          - congruence. }
        rewrite list_insert_id; [exact Hemails|].
        rewrite list_lookup_fmap, Hl. cbn. rewrite He. reflexivity.
      * apply NoDup_insert_fresh; [exact Hemails|]. apply find_absent, Hf.
    + rewrite list_insert_id; [exact Hemails|].
      rewrite list_lookup_fmap, Hl. reflexivity.
Qed.

(** The condition on the patch is needed at the store's own interface.
    On the seeded store, [update("1", { email: "" })] and then
    [update("2", { email: "" })] both succeed: the empty string is falsy,
    so neither call looks for another owner of the address. *)
Example update_to_the_empty_email_is_not_checked :
  exists u1 w1 u2 w2,
    UserRepository.update "1" (mkUpdateUserDto None (Some ""%string)) (seeded boot)
    = (Return (Some u1), w1)
    /\ UserRepository.update "2" (mkUpdateUserDto None (Some ""%string)) w1
       = (Return (Some u2), w2)
    /\ List.find (has_email "") (users w1) = Some (mkUser "1" "John Doe" "" 0%Z 6%Z)
    /\ email <$> users w2 = [""; ""; "alex@example.com"]%string
    /\ id <$> users w2 = ["1"; "2"; "3"]%string.
Proof. do 4 eexists. repeat split. Qed.

(** The orchestrator, the only caller of [update], does not let that
    patch through. *)
Example updateUser_rejects_the_empty_email :
  UserService.updateUser inMemory "1" (mkUpdateUserDto None (Some ""%string))
    (seeded boot)
  = (Return (failure "Valid email is required"), seeded boot).
Proof. reflexivity. Qed.

(** ** What the orchestrator maintains

    The store is called by the orchestrator only, and the orchestrator
    validates before it calls.  So the states that a running process
    reaches from the seeded store keep the records apart and
    well-formed, and in them a duplicate address is always answered
    with the conflict. *)

Lemma validateCreateDto_nil (dto : CreateUserDto) :
  UserModel.validateCreateDto dto = [] ->
  UserModel.isValidEmail (dto_email dto) = true.
Proof.
  unfold UserModel.validateCreateDto.
  destruct (negb (truthy (dto_name dto)) || negb (UserModel.isValidName (dto_name dto)));
    destruct (truthy (dto_email dto));
    destruct (UserModel.isValidEmail (dto_email dto)); cbn;
    intros H; try discriminate H; reflexivity.
Qed.

Lemma createUser_data_model (createDto : CreateUserDto) (w : World) :
  data_model (users w) ->
  fresh_identifier w ->
  data_model (users (snd (UserService.createUser inMemory createDto w))).
Proof.
  intros [Hc Hwf] [Hnb Hfresh].
  unfold UserService.createUser, try_catch, bind.
  destruct (UserModel.validateCreateDto createDto) as [|e es] eqn:Hv;
    [|split; assumption].
  cbn [length Nat.ltb Nat.leb repo_create inMemory].
  pose proof (create_consistent createDto w Hc Hfresh) as Hc'.
  rewrite create_run in Hc' |- *.
  destruct (List.find _ (users w)); [split; assumption|].
  cbv beta iota zeta in Hc' |- *.
  match goal with
  | |- context [UserService.broadcastUserEvent ?ev ?w1] =>
      destruct (broadcastUserEvent_frame ev w1) as (w' & Hrun & Hu & _)
  end.
  rewrite Hrun. cbv beta iota. unfold ret. cbn [snd] in Hc' |- *. rewrite Hu.
  split; [exact Hc'|].
  cbn [users tick set_users]. apply Forall_app. split; [exact Hwf|].
  apply Forall_singleton. split; [exact Hnb|].
  apply validateCreateDto_nil, Hv.
Qed.

Lemma updateUser_data_model (id_ : string) (updateDto : UpdateUserDto) (w : World) :
  data_model (users w) ->
  data_model (users (snd (UserService.updateUser inMemory id_ updateDto w))).
Proof.
  intros [Hc Hwf].
  destruct (UserService.blank id_) eqn:Hb.
  { rewrite updateUser_blank by exact Hb. split; assumption. }
  destruct (UserModel.validateUpdateDto updateDto) as [|e es] eqn:Hv.
  2:{ rewrite updateUser_invalid by (auto; rewrite Hv; discriminate).
      split; assumption. }
  destruct (List.find (has_id id_) (users w)) as [current|] eqn:Hf.
  2:{ rewrite updateUser_not_found by assumption. split; assumption. }
  destruct (taken_by_other id_ updateDto (users w)) eqn:Ht.
  { rewrite (updateUser_conflict id_ updateDto w current) by assumption.
    split; assumption. }
  destruct (updateUser_success id_ updateDto w current Hb Hv Hf Ht)
    as (index & w' & Hi & Hl & Hrun & Hus & _).
  rewrite Hrun. cbn [snd]. rewrite Hus.
  apply validateUpdateDto_nil in Hv as [_ Hve].
  split.
  - assert (Hne : patch_email updateDto <> Some ""%string).
    { intros He. specialize (Hve _ He). discriminate Hve. }
    pose proof (update_consistent id_ updateDto w Hc Hne) as Hc'.
    rewrite update_run, Hi, Ht, Hl in Hc'. exact Hc'.
  - apply Forall_insert; [exact Hwf|].
    destruct (Forall_lookup_1 _ _ _ _ Hwf Hl) as [Hbc Hec].
    split; [exact Hbc|]. cbn [merged email]. unfold UserModel.spread.
    destruct (patch_email updateDto) as [e|]; [apply Hve; reflexivity|exact Hec].
Qed.

Lemma deleteUser_data_model (id_ : string) (w : World) :
  data_model (users w) ->
  data_model (users (snd (UserService.deleteUser inMemory id_ w))).
Proof.
  intros [Hc Hwf].
  unfold UserService.deleteUser, try_catch, bind.
  destruct (UserService.blank id_); [split; assumption|].
  cbn [repo_findById repo_delete inMemory]. rewrite findById_run.
  destruct (List.find (has_id id_) (users w)) as [stored|] eqn:Hf;
    [|split; assumption].
  destruct (delete_found _ _ _ Hf) as (index & Hi & Hl & Hdel).
  pose proof (delete_consistent id_ w Hc) as Hc'.
  rewrite Hdel in Hc' |- *.
  match goal with
  | |- context [UserService.broadcastUserEvent ?ev ?w1] =>
      destruct (broadcastUserEvent_frame ev w1) as (w' & Hrun & Hu & _)
  end.
  rewrite Hrun. cbv beta iota. unfold ret. cbn [snd] in Hc' |- *. rewrite Hu.
  split; [exact Hc'|]. cbn [users tick set_users]. apply Forall_delete, Hwf.
Qed.

Lemma seeded_data_model (w : World) : data_model (users (seeded w)).
Proof.
  split; [split|].
  - apply NoDup_ListNoDup. cbn. repeat constructor; cbn; intuition discriminate.
  - apply NoDup_ListNoDup. cbn. repeat constructor; cbn; intuition discriminate.
  - cbn. repeat constructor.
Qed.

(** Through the orchestrator, ids stay apart and non-blank, and addresses
    stay apart and of the validated shape. *)
Lemma reachable_data_model (w : World) : reachable w -> data_model (users w).
Proof.
  induction 1 as [w|w dto _ IH Hfresh|w id_ dto _ IH|w id_ _ IH|w w' _ IH Heq].
  - apply seeded_data_model.
  - apply createUser_data_model; assumption.
  - apply updateUser_data_model, IH.
  - apply deleteUser_data_model, IH.
  - rewrite Heq. exact IH.
Qed.

(** The state [unvalidated_email] is not one of a running process. *)
Lemma unvalidated_email_unreachable : ~ reachable unvalidated_email.
Proof.
  intros Hr. destruct (reachable_data_model _ Hr) as [_ Hwf].
  apply Forall_cons in Hwf as [[_ He] _]. discriminate He.
Qed.

(** C1. In every state that a running process reaches from the seeded
    store, by any sequence of [createUser], [updateUser] and
    [deleteUser] (the callers of [create], [update] and [delete]), no two
    live records have the same address, compared exactly: the addresses
    are pairwise different, and two positions of the collection that hold
    the same address are one position. *)
Theorem reachable_states_keep_emails_apart (w : World) :
  reachable w ->
  NoDup (email <$> users w)
  /\ (forall (i j : nat) (A B : User),
         users w !! i = Some A -> users w !! j = Some B ->
         email A = email B -> i = j).
Proof.
  intros Hr. destruct (reachable_data_model w Hr) as [[_ He] _].
  split; [exact He|].
  intros i j A B Hi Hj Heq.
  apply (proj1 (NoDup_alt _) He i j (email A)).
  - rewrite list_lookup_fmap, Hi. reflexivity.
  - rewrite list_lookup_fmap, Hj. cbn. rewrite Heq. reflexivity.
Qed.

Lemma reachable_states_keep_emails_apart_witness :
  NoDup (email <$> users (snd (UserService.createUser inMemory
                                 (mkCreateUserDto "Ann Lee" "ann@x.com")
                                 (seeded boot)))).
Proof.
  assert (Hfresh : fresh_identifier (seeded boot)).
  { split; [reflexivity|].
    cbn. intros H. repeat (apply elem_of_cons in H as [H|H]; [discriminate H|]).
    inversion H. }
  exact (proj1 (reachable_states_keep_emails_apart _
                  (reach_createUser (seeded boot)
                     (mkCreateUserDto "Ann Lee" "ann@x.com")
                     (reach_start boot) Hfresh))).
Defined.

Example emails_after_three_calls :
  email <$> users (snd (UserService.deleteUser inMemory "3"
                          (snd (UserService.updateUser inMemory "2"
                                  (mkUpdateUserDto None (Some "jane@x.com"%string))
                                  (snd (UserService.createUser inMemory
                                          (mkCreateUserDto "Ann Lee" "ann@x.com")
                                          (seeded boot)))))))
  = ["john@example.com"; "jane@x.com"; "ann@x.com"]%string.
Proof. vm_compute. reflexivity. Qed.

(** In a state of the data model, every live record is the one that
    [findByEmail] resolves its address to. *)
Lemma owner_resolved (us : list User) (A : User) :
  NoDup (email <$> us) -> A ∈ us -> List.find (has_email (email A)) us = Some A.
Proof.
  intros Hnd Hin.
  destruct (find_present (has_email (email A)) us A Hin) as [y Hy];
    [apply has_email_true; reflexivity|].
  rewrite Hy. f_equal.
  destruct (find_In _ _ _ Hy) as [Hyin Hye]. apply has_email_true in Hye.
  apply (same_key email us); auto.
Qed.

(** C5. In every state of a running process that holds a live user with
    the address [E], [createUser] with [E] and any valid name fails with
    an error that contains ["already exists"] and leaves the collection
    as it was: no record is added, none is changed, and no event is
    emitted. *)
Theorem createUser_with_a_live_email_conflicts
        (w : World) (u : User) (name_ : string) :
  reachable w ->
  u ∈ users w ->
  UserModel.isValidName name_ = true ->
  exists msg w',
    UserService.createUser inMemory (mkCreateUserDto name_ (email u)) w
    = (Return (failure msg), w')
    /\ includes msg "already exists" = true
    /\ users w' = users w
    /\ stringified_of (trace w') = stringified_of (trace w).
Proof.
  intros Hr Hin Hn. destruct (reachable_data_model w Hr) as [[_ He] Hwf].
  exists "User with this email already exists"%string.
  eexists. split.
  - apply (createUser_duplicate (mkCreateUserDto name_ (email u)) w u).
    + apply validateCreateDto_valid; [exact Hn|].
      apply (proj1 (Forall_forall _ _) Hwf u Hin).
    + apply owner_resolved; assumption.
  - split; [reflexivity|]. split; [reflexivity|].
    apply stringified_of_logged_error.
Qed.

Lemma createUser_with_a_live_email_conflicts_witness :
  exists msg w',
    UserService.createUser inMemory (mkCreateUserDto "Johnny" "john@example.com")
      (seeded boot)
    = (Return (failure msg), w')
    /\ includes msg "already exists" = true
    /\ users w' = users (seeded boot)
    /\ stringified_of (trace w') = stringified_of (trace (seeded boot)).
Proof.
  assert (Hin : mkUser "1" "John Doe" "john@example.com" 0%Z 1%Z ∈ users (seeded boot))
    by left.
  exact (createUser_with_a_live_email_conflicts (seeded boot)
           (mkUser "1" "John Doe" "john@example.com" 0%Z 1%Z) "Johnny"
           (reach_start boot) Hin eq_refl).
Defined.

(** C6. In every state of a running process that holds two distinct
    live users [A], with the address [E], and [B]:
    [updateUser(B.id, { email: E })] fails with the conflict error and
    changes no record, and [updateUser(A.id, { email: E })], which sets
    the address of [A] to the one it has, succeeds. *)
Theorem updateUser_conflicts_with_another_owner_only
        (w : World) (A B : User) :
  reachable w ->
  A ∈ users w ->
  B ∈ users w ->
  A <> B ->
  let patch := mkUpdateUserDto None (Some (email A)) in
  (exists msg w',
      UserService.updateUser inMemory (id B) patch w = (Return (failure msg), w')
      /\ includes msg "already exists" = true
      /\ users w' = users w
      /\ stringified_of (trace w') = stringified_of (trace w))
  /\ (exists u w',
         UserService.updateUser inMemory (id A) patch w
         = (Return (success u "User updated successfully"), w')
         /\ id u = id A /\ email u = email A /\ name u = name A).
Proof.
  intros Hr HinA HinB Hne patch.
  destruct (reachable_data_model w Hr) as [[Hids Hemails] Hwf].
  destruct (proj1 (Forall_forall _ _) Hwf A HinA) as [HbA HeA].
  destruct (proj1 (Forall_forall _ _) Hwf B HinB) as [HbB _].
  pose proof (owner_resolved _ _ Hemails HinA) as HA.
  assert (Hv : UserModel.validateUpdateDto patch = []).
  { apply validateUpdateDto_nil. split; intros x [= <-]. exact HeA. }
  assert (Hid : id A <> id B).
  { intros Heq. apply Hne. apply (same_key id (users w)); assumption. }
  split.
  - destruct (find_present (has_id (id B)) (users w) B HinB) as [found Hf];
      [apply has_id_true; reflexivity|].
    exists "User with this email already exists"%string. eexists.
    split; [apply (updateUser_conflict (id B) patch w found HbB Hv Hf)|].
    + unfold patch.
      rewrite (taken_by_other_resolved _ _ _ A (valid_email_truthy _ HeA) HA).
      apply negb_true_iff, String.eqb_neq, Hid.
    + split; [reflexivity|]. split; [reflexivity|].
      apply stringified_of_logged_error.
  - destruct (find_present (has_id (id A)) (users w) A HinA) as [found Hf];
      [apply has_id_true; reflexivity|].
    assert (found = A) as ->.
    { destruct (find_In _ _ _ Hf) as [Hfin Hfid]. apply has_id_true in Hfid.
      apply (same_key id (users w)); assumption. }
    assert (Ht : taken_by_other (id A) patch (users w) = false).
    { unfold patch.
      rewrite (taken_by_other_resolved _ _ _ A (valid_email_truthy _ HeA) HA).
      rewrite String.eqb_refl. reflexivity. }
    destruct (updateUser_success (id A) patch w A HbA Hv Hf Ht)
      as (index & w' & _ & _ & Hrun & _).
    eexists; exists w'. split; [exact Hrun|]. repeat split.
Qed.

Lemma updateUser_conflicts_with_another_owner_only_witness :
  exists msg w',
    UserService.updateUser inMemory "2"
      (mkUpdateUserDto None (Some "john@example.com"%string)) (seeded boot)
    = (Return (failure msg), w')
    /\ includes msg "already exists" = true
    /\ users w' = users (seeded boot)
    /\ stringified_of (trace w') = stringified_of (trace (seeded boot)).
Proof.
  assert (HA : mkUser "1" "John Doe" "john@example.com" 0%Z 1%Z
               ∈ users (seeded boot)) by left.
  assert (HB : mkUser "2" "Jane Smith" "jane@example.com" 2%Z 3%Z
               ∈ users (seeded boot)) by (right; left).
  assert (Hne : mkUser "1" "John Doe" "john@example.com" 0%Z 1%Z
                <> mkUser "2" "Jane Smith" "jane@example.com" 2%Z 3%Z)
    by discriminate.
  exact (proj1 (updateUser_conflicts_with_another_owner_only (seeded boot)
                  (mkUser "1" "John Doe" "john@example.com" 0%Z 1%Z)
                  (mkUser "2" "Jane Smith" "jane@example.com" 2%Z 3%Z)
                  (reach_start boot) HA HB Hne)).
Defined.


(** * More of the code *)

(** ** The registry: loops that may evict the sink they visit *)

Section Evicting.
Context {S : Type} (callback : Handle -> S -> M S).
Variable st : Handle -> option Thrown.
Variable next : Handle -> S -> S.
Variable events : Handle -> list Effect.
Variable keeps : Handle -> bool.

Hypothesis callback_run :
  forall ws acc w,
    send_throws w = st ->
    callback ws acc w
    = (Return (next ws acc),
       set_connections
         (if keeps ws then connections w
          else WebSocketManager.Set_delete ws (connections w))
         (emit_all (events ws) w)).

(** Every pending member is visited once, in order; the ones the callback
    does not keep are gone afterwards. *)
Lemma forEach_evicting (pending : list Handle) :
  forall (kept : list Handle) (acc : S) (w : World),
    send_throws w = st ->
    connections w = kept ++ pending ->
    NoDup (kept ++ pending) ->
    WebSocketManager.forEach pending callback acc w
    = (Return (fold_left (fun a ws => next ws a) pending acc),
       mkWorld (users w) (kept ++ List.filter keeps pending)
               (send_throws w) (clock w) (ticks w) (uuids w) (draws w)
               (trace w ++ flat_map events pending)).
Proof using callback_run.
  induction pending as [|ws rest IH]; intros kept acc w Hst Hc Hnd.
  - rewrite app_nil_r in Hc. cbn [flat_map List.filter fold_left WebSocketManager.forEach].
    rewrite !app_nil_r, <- Hc. destruct w; reflexivity.
  - cbn [WebSocketManager.forEach].
    assert (Hin : WebSocketManager.Set_has ws (connections w) = true).
    { apply Set_has_true. rewrite Hc. apply elem_of_app. right. left. }
    rewrite Hin. unfold bind at 1. rewrite callback_run by exact Hst.
    cbn [fold_left flat_map List.filter].
    destruct (keeps ws) eqn:Hk.
    + rewrite (IH (kept ++ [ws])); cbn [send_throws connections set_connections emit_all];
        [|exact Hst|rewrite Hc, <- app_assoc; reflexivity|rewrite <- app_assoc; exact Hnd].
      cbn. rewrite <- !app_assoc. reflexivity.
    + rewrite (IH kept); cbn [send_throws connections set_connections emit_all];
        [|exact Hst|rewrite Hc; apply Set_delete_middle, Hnd|].
      * cbn. rewrite <- !app_assoc. reflexivity.
      * apply NoDup_app in Hnd as (Hk' & Hd & Hr).
        apply NoDup_cons in Hr as [_ Hr]. apply NoDup_app. repeat split; auto.
        intros x Hx Hx'. apply (Hd x Hx). right. exact Hx'.
Qed.

End Evicting.

(** ** The registry, method by method *)

Lemma emit_emit (e1 e2 : Effect) (w : World) :
  emit e2 (emit e1 w) = emit_all [e1; e2] w.
Proof. unfold emit, emit_all. cbn. rewrite <- app_assoc. reflexivity. Qed.

Lemma addConnection_run (ws : Handle) (w : World) :
  WebSocketManager.addConnection ws w
  = (Return tt,
     emit (Logged ("WebSocket connection added. Total connections: "
                   ++ String_of_nat
                        (length (WebSocketManager.Set_add ws (connections w))))%string)
          (set_connections (WebSocketManager.Set_add ws (connections w)) w)).
Proof. reflexivity. Qed.

Lemma removeConnection_run (ws : Handle) (w : World) :
  WebSocketManager.removeConnection ws w
  = (Return tt,
     emit (Logged ("WebSocket connection removed. Total connections: "
                   ++ String_of_nat
                        (length (WebSocketManager.Set_delete ws (connections w))))%string)
          (set_connections (WebSocketManager.Set_delete ws (connections w)) w)).
Proof. reflexivity. Qed.

Lemma sendToConnection_run (ws : Handle) (message_ : string) (w : World) :
  WebSocketManager.sendToConnection ws message_ w
  = match send_throws w ws with
    | None => (Return true, emit (Sent ws (Raw message_) None) w)
    | Some t =>
        (Return false,
         set_connections (WebSocketManager.Set_delete ws (connections w))
           (emit (LoggedError "Failed to send message to specific connection:" t)
              (emit (Sent ws (Raw message_) (Some t)) w)))
    end.
Proof.
  unfold WebSocketManager.sendToConnection, try_catch, bind, WebSocketManager.send.
  destruct (send_throws w ws); reflexivity.
Qed.

Lemma send_raw_or_evict_run (message_ : string) (ws : Handle) (acc : unit) (w : World) :
  WebSocketManager.send_raw_or_evict message_ ws acc w
  = (Return tt,
     set_connections
       (if alive w ws then connections w
        else WebSocketManager.Set_delete ws (connections w))
       (emit_all (attempt_raw (send_throws w) message_ ws) w)).
Proof.
  unfold WebSocketManager.send_raw_or_evict, try_catch, bind, WebSocketManager.send,
    alive, attempt_raw.
  destruct (send_throws w ws) as [t|].
  - cbn. rewrite emit_emit. reflexivity.
  - destruct w; reflexivity.
Qed.

Lemma close_quietly_run (close_throws : Handle -> option Thrown)
      (ws : Handle) (acc : unit) (w : World) :
  WebSocketManager.close_quietly close_throws ws acc w
  = (Return tt, set_connections (connections w) (emit_all (close_report close_throws ws) w)).
Proof.
  unfold WebSocketManager.close_quietly, try_catch, WebSocketManager.close, close_report.
  destruct (close_throws ws) as [t|].
  - destruct w; reflexivity.
  - destruct w. unfold emit_all, set_connections. cbn. rewrite app_nil_r. reflexivity.
Qed.

Lemma Set_add_spec (ws x : Handle) (s : list Handle) :
  x ∈ WebSocketManager.Set_add ws s <-> x = ws \/ x ∈ s.
Proof.
  unfold WebSocketManager.Set_add.
  destruct (WebSocketManager.Set_has ws s) eqn:H.
  - apply Set_has_true in H. split; [auto|]. intros [->|Hx]; assumption.
  - rewrite elem_of_app, list_elem_of_singleton. tauto.
Qed.

Lemma Set_add_NoDup (ws : Handle) (s : list Handle) :
  NoDup s -> NoDup (WebSocketManager.Set_add ws s).
Proof.
  intros Hnd. unfold WebSocketManager.Set_add.
  destruct (WebSocketManager.Set_has ws s) eqn:H; [exact Hnd|].
  apply NoDup_app. split; [exact Hnd|]. split; [|apply NoDup_singleton].
  intros x Hx Hx'. apply list_elem_of_singleton in Hx'. subst x.
  apply Set_has_true in Hx. congruence.
Qed.

Lemma Set_delete_NoDup (ws : Handle) (s : list Handle) :
  NoDup s -> NoDup (WebSocketManager.Set_delete ws s).
Proof.
  intros Hnd. apply NoDup_ListNoDup. apply List.NoDup_filter.
  apply NoDup_ListNoDup, Hnd.
Qed.

Lemma Set_delete_sublist (ws : Handle) (s : list Handle) :
  WebSocketManager.Set_delete ws s `sublist_of` s.
Proof.
  induction s as [|c cs IH]; [constructor|].
  unfold WebSocketManager.Set_delete in *. cbn [List.filter].
  destruct (negb (ws =? c)%nat); [apply sublist_skip, IH|apply sublist_cons, IH].
Qed.

Lemma Set_has_false (ws : Handle) (s : list Handle) :
  WebSocketManager.Set_has ws s = false <-> ws ∉ s.
Proof.
  split.
  - intros H Hin. apply Set_has_true in Hin. congruence.
  - intros H. destruct (WebSocketManager.Set_has ws s) eqn:E; [|reflexivity].
    apply Set_has_true in E. contradiction.
Qed.

(** [addConnection] registers a socket once: for a socket that is new the
    registry grows by that socket, at the end, and the count by one; for
    a registered socket nothing changes; adding again changes nothing. *)
Theorem addConnection_registers_once (ws : Handle) (w : World) :
  NoDup (connections w) ->
  exists w1 w2,
    WebSocketManager.addConnection ws w = (Return tt, w1)
    /\ WebSocketManager.addConnection ws w1 = (Return tt, w2)
    /\ connections w1
       = (if WebSocketManager.Set_has ws (connections w)
          then connections w else connections w ++ [ws])
    /\ connections w2 = connections w1
    /\ ws ∈ connections w1
    /\ NoDup (connections w1)
    /\ WebSocketManager.getConnectionCount w1
       = (Return (if WebSocketManager.Set_has ws (connections w)
                  then length (connections w) else S (length (connections w))), w1)
    /\ users w1 = users w.
Proof.
  intros Hnd. eexists; eexists.
  split; [apply addConnection_run|]. split; [apply addConnection_run|].
  cbn [connections emit set_connections users].
  assert (Hin : ws ∈ WebSocketManager.Set_add ws (connections w))
    by (apply Set_add_spec; left; reflexivity).
  split; [reflexivity|]. split.
  { unfold WebSocketManager.Set_add at 1.
    rewrite (proj2 (Set_has_true _ _) Hin). reflexivity. }
  split; [exact Hin|]. split; [apply Set_add_NoDup, Hnd|].
  split; [|reflexivity].
  unfold WebSocketManager.getConnectionCount, WebSocketManager.connections_size.
  cbn [connections emit set_connections]. unfold WebSocketManager.Set_add.
  destruct (WebSocketManager.Set_has ws (connections w)); [reflexivity|].
  rewrite length_app. cbn. rewrite Nat.add_1_r. reflexivity.
Qed.

Lemma addConnection_registers_once_witness :
  NoDup (connections three_sinks)
  /\ exists w1 w2,
      WebSocketManager.addConnection 7%nat three_sinks = (Return tt, w1)
      /\ WebSocketManager.addConnection 7%nat w1 = (Return tt, w2)
      /\ connections w1
         = (if WebSocketManager.Set_has 7%nat (connections three_sinks)
            then connections three_sinks else connections three_sinks ++ [7%nat])
      /\ connections w2 = connections w1
      /\ 7%nat ∈ connections w1
      /\ NoDup (connections w1)
      /\ WebSocketManager.getConnectionCount w1
         = (Return (if WebSocketManager.Set_has 7%nat (connections three_sinks)
                    then length (connections three_sinks)
                    else S (length (connections three_sinks))), w1)
      /\ users w1 = users three_sinks.
Proof.
  assert (Hnd : NoDup (connections three_sinks)).
  { apply NoDup_ListNoDup. repeat constructor; simpl; intuition lia. }
  split; [exact Hnd|].
  exact (addConnection_registers_once 7%nat three_sinks Hnd).
Defined.

(** [removeConnection] takes out that socket and no other, keeps the
    order of the rest, does nothing for a socket that is not registered,
    and undoes the [addConnection] of a new socket. *)
Theorem removeConnection_undoes_addConnection (ws : Handle) (w : World) :
  NoDup (connections w) ->
  exists w1 w2 w3,
    WebSocketManager.removeConnection ws w = (Return tt, w1)
    /\ (ws ∉ connections w1)
    /\ (forall x, x <> ws -> (x ∈ connections w1 <-> x ∈ connections w))
    /\ (connections w1 `sublist_of` connections w)
    /\ (ws ∉ connections w -> connections w1 = connections w)
    /\ WebSocketManager.addConnection ws w = (Return tt, w2)
    /\ WebSocketManager.removeConnection ws w2 = (Return tt, w3)
    /\ (ws ∉ connections w -> connections w3 = connections w).
Proof.
  intros Hnd. eexists; eexists; eexists.
  split; [apply removeConnection_run|].
  cbn [connections emit set_connections].
  split; [rewrite Set_delete_spec; tauto|].
  split; [intros x Hx; rewrite Set_delete_spec; tauto|].
  split; [apply Set_delete_sublist|].
  split; [apply Set_delete_absent|].
  split; [apply addConnection_run|]. split; [apply removeConnection_run|].
  cbn [connections emit set_connections]. intros Hn.
  unfold WebSocketManager.Set_add. rewrite (proj2 (Set_has_false _ _) Hn).
  replace (connections w ++ [ws]) with (connections w ++ ws :: []) by reflexivity.
  rewrite Set_delete_middle; [apply app_nil_r|].
  apply NoDup_app. split; [exact Hnd|]. split; [|apply NoDup_singleton].
  intros x Hx Hx'. apply list_elem_of_singleton in Hx'. subst x. contradiction.
Qed.

Lemma removeConnection_undoes_addConnection_witness :
  exists w1 w2 w3,
    WebSocketManager.removeConnection 2%nat three_sinks = (Return tt, w1)
    /\ (2%nat ∉ connections w1)
    /\ (forall x, x <> 2%nat -> (x ∈ connections w1 <-> x ∈ connections three_sinks))
    /\ (connections w1 `sublist_of` connections three_sinks)
    /\ (2%nat ∉ connections three_sinks -> connections w1 = connections three_sinks)
    /\ WebSocketManager.addConnection 2%nat three_sinks = (Return tt, w2)
    /\ WebSocketManager.removeConnection 2%nat w2 = (Return tt, w3)
    /\ (2%nat ∉ connections three_sinks -> connections w3 = connections three_sinks).
Proof.
  assert (Hnd : NoDup (connections three_sinks)).
  { apply NoDup_ListNoDup. repeat constructor; simpl; intuition lia. }
  exact (removeConnection_undoes_addConnection 2%nat three_sinks Hnd).
Defined.

Example add_then_remove_on_three_sinks :
  connections (snd (WebSocketManager.removeConnection 7%nat
                      (snd (WebSocketManager.addConnection 7%nat three_sinks))))
  = [1; 2; 3]%nat.
Proof. reflexivity. Qed.

Lemma fold_left_unit (sinks : list Handle) :
  fold_left (fun (a : unit) (_ : Handle) => tt) sinks tt = tt.
Proof. induction sinks; [reflexivity|assumption]. Qed.

Lemma sends_of_attempts_raw (st : Handle -> option Thrown) (message_ : string)
      (sinks : list Handle) :
  sends_of (flat_map (attempt_raw st message_) sinks)
  = map (fun ws => (ws, Raw message_, st ws)) sinks.
Proof.
  induction sinks as [|ws rest IH]; [reflexivity|].
  cbn [flat_map map]. rewrite sends_of_app, IH. unfold attempt_raw.
  destruct (st ws); reflexivity.
Qed.

Lemma stringified_of_attempts_raw (st : Handle -> option Thrown) (message_ : string)
      (sinks : list Handle) :
  stringified_of (flat_map (attempt_raw st message_) sinks) = [].
Proof.
  induction sinks as [|ws rest IH]; [reflexivity|].
  cbn [flat_map]. rewrite stringified_of_app, IH. unfold attempt_raw.
  destruct (st ws); reflexivity.
Qed.

(** [broadcastMessage] tries one send of the text to every registered
    socket, in order of registration, and serializes nothing.  The
    sockets whose send threw are the ones missing afterwards; nothing is
    thrown, and the store is not touched. *)
Theorem broadcastMessage_tries_every_sink (message_ : string) (w : World) :
  NoDup (connections w) ->
  exists w' delta,
    WebSocketManager.broadcastMessage message_ w = (Return tt, w')
    /\ trace w' = trace w ++ delta
    /\ sends_of delta
       = map (fun ws => (ws, Raw message_, send_throws w ws)) (connections w)
    /\ stringified_of delta = []
    /\ connections w' = List.filter (alive w) (connections w)
    /\ users w' = users w.
Proof.
  intros Hnd.
  unfold WebSocketManager.broadcastMessage, WebSocketManager.connections_forEach.
  rewrite (forEach_evicting (WebSocketManager.send_raw_or_evict message_)
             (send_throws w) (fun _ _ => tt) (attempt_raw (send_throws w) message_)
             (alive w) ) with (kept := []); [| |reflexivity|reflexivity|exact Hnd].
  - eexists. exists (flat_map (attempt_raw (send_throws w) message_) (connections w)).
    split; [rewrite fold_left_unit; reflexivity|].
    cbn [trace connections users app].
    split; [reflexivity|]. split; [apply sends_of_attempts_raw|].
    split; [apply stringified_of_attempts_raw|]. split; reflexivity.
  - intros ws acc w0 Hst. rewrite send_raw_or_evict_run. unfold alive.
    rewrite Hst. reflexivity.
Qed.

Lemma broadcastMessage_tries_every_sink_witness :
  exists w' delta,
    WebSocketManager.broadcastMessage "ping" three_sinks = (Return tt, w')
    /\ trace w' = trace three_sinks ++ delta
    /\ sends_of delta
       = map (fun ws => (ws, Raw "ping", send_throws three_sinks ws))
             (connections three_sinks)
    /\ stringified_of delta = []
    /\ connections w' = List.filter (alive three_sinks) (connections three_sinks)
    /\ users w' = users three_sinks.
Proof.
  assert (Hnd : NoDup (connections three_sinks)).
  { apply NoDup_ListNoDup. repeat constructor; simpl; intuition lia. }
  exact (broadcastMessage_tries_every_sink "ping" three_sinks Hnd).
Defined.

(** [sendToConnection] answers [true] exactly when the send did not
    throw.  When it threw, the socket is taken out of the registry, the
    other sockets stay, and the caller gets [false], not the exception.
    The socket need not be registered for the send to be tried. *)
Theorem sendToConnection_reports_and_evicts (ws : Handle) (message_ : string)
        (w : World) :
  exists w',
    WebSocketManager.sendToConnection ws message_ w = (Return (alive w ws), w')
    /\ sends_of (trace w')
       = sends_of (trace w) ++ [(ws, Raw message_, send_throws w ws)]
    /\ connections w'
       = (if alive w ws then connections w
          else WebSocketManager.Set_delete ws (connections w))
    /\ (alive w ws = false -> ws ∉ connections w')
    /\ (forall x, x <> ws -> (x ∈ connections w' <-> x ∈ connections w))
    /\ users w' = users w.
Proof.
  rewrite sendToConnection_run. unfold alive.
  destruct (send_throws w ws) as [t|]; eexists; (split; [reflexivity|]);
    cbn [trace connections users emit set_connections].
  - split; [rewrite !sends_of_app; cbn; rewrite app_nil_r; reflexivity|].
    split; [reflexivity|]. split; [intros _; rewrite Set_delete_spec; tauto|].
    split; [intros x Hx; rewrite Set_delete_spec; tauto|reflexivity].
  - split; [rewrite sends_of_app; reflexivity|]. split; [reflexivity|].
    split; [discriminate|]. split; [tauto|reflexivity].
Qed.

(** [closeAllConnections] leaves the registry empty whether the sockets
    close or throw; it throws nothing itself, reports each socket whose
    [close] threw, in order, and does not touch the store. *)
Theorem closeAllConnections_empties_the_registry
        (close_throws : Handle -> option Thrown) (w : World) :
  NoDup (connections w) ->
  exists w',
    WebSocketManager.closeAllConnections close_throws w = (Return tt, w')
    /\ connections w' = []
    /\ WebSocketManager.getConnectionCount w' = (Return 0%nat, w')
    /\ trace w'
       = trace w ++ flat_map (close_report close_throws) (connections w)
         ++ [Logged "All WebSocket connections closed"]
    /\ users w' = users w.
Proof.
  intros Hnd.
  unfold WebSocketManager.closeAllConnections, WebSocketManager.connections_forEach,
    bind.
  rewrite (forEach_evicting (WebSocketManager.close_quietly close_throws)
             (send_throws w) (fun _ _ => tt) (close_report close_throws)
             (fun _ => true)) with (kept := []); [| |reflexivity|reflexivity|exact Hnd].
  - eexists. split; [reflexivity|].
    cbn [trace connections users app emit set_connections console_log
           WebSocketManager.connections_clear].
    split; [reflexivity|]. split; [reflexivity|].
    split; [rewrite <- app_assoc; reflexivity|reflexivity].
  - intros ws acc w0 _. rewrite close_quietly_run. reflexivity.
Qed.

Lemma closeAllConnections_empties_the_registry_witness :
  exists w',
    WebSocketManager.closeAllConnections
      (fun ws => if (ws =? 1)%nat then Some (ErrorObj "already closed") else None)
      three_sinks
    = (Return tt, w')
    /\ connections w' = []
    /\ WebSocketManager.getConnectionCount w' = (Return 0%nat, w')
    /\ trace w'
       = trace three_sinks
         ++ flat_map (close_report
                        (fun ws => if (ws =? 1)%nat
                                   then Some (ErrorObj "already closed") else None))
                     (connections three_sinks)
         ++ [Logged "All WebSocket connections closed"]
    /\ users w' = users three_sinks.
Proof.
  assert (Hnd : NoDup (connections three_sinks)).
  { apply NoDup_ListNoDup. repeat constructor; simpl; intuition lia. }
  exact (closeAllConnections_empties_the_registry _ three_sinks Hnd).
Defined.

(** [broadcastMessage] over a registry without duplicates. *)
Lemma broadcastMessage_shape (message_ : string) (w : World) :
  NoDup (connections w) ->
  exists w',
    WebSocketManager.broadcastMessage message_ w = (Return tt, w')
    /\ connections w' = List.filter (alive w) (connections w).
Proof.
  intros Hnd.
  unfold WebSocketManager.broadcastMessage, WebSocketManager.connections_forEach.
  rewrite (forEach_evicting (WebSocketManager.send_raw_or_evict message_)
             (send_throws w) (fun _ _ => tt) (attempt_raw (send_throws w) message_)
             (alive w) ) with (kept := []); [| |reflexivity|reflexivity|exact Hnd].
  - eexists. split; [rewrite fold_left_unit; reflexivity|reflexivity].
  - intros ws acc w0 Hst. rewrite send_raw_or_evict_run. unfold alive.
    rewrite Hst. reflexivity.
Qed.

(** [closeAllConnections] over a registry without duplicates. *)
Lemma closeAllConnections_shape (close_throws : Handle -> option Thrown) (w : World) :
  NoDup (connections w) ->
  exists w',
    WebSocketManager.closeAllConnections close_throws w = (Return tt, w')
    /\ connections w' = [].
Proof.
  intros Hnd.
  unfold WebSocketManager.closeAllConnections, WebSocketManager.connections_forEach,
    bind.
  rewrite (forEach_evicting (WebSocketManager.close_quietly close_throws)
             (send_throws w) (fun _ _ => tt) (close_report close_throws)
             (fun _ => true)) with (kept := []); [| |reflexivity|reflexivity|exact Hnd].
  - eexists. split; reflexivity.
  - intros ws acc w0 _. rewrite close_quietly_run. reflexivity.
Qed.

(** [broadcast] over a registry without duplicates, in one equation. *)
Lemma broadcast_run (event : UserEvent) (w : World) :
  NoDup (connections w) ->
  exists text,
    WebSocketManager.broadcast event w
    = (Return tt,
       mkWorld (users w) (List.filter (alive w) (connections w))
               (send_throws w) (clock w) (ticks w) (uuids w) (draws w)
               (trace w ++ [Stringified event]
                ++ flat_map (attempt w (JSON_text event)) (connections w)
                ++ [Logged text])).
Proof.
  intros Hnd. destruct (connections w) as [|ws0 rest0] eqn:Hc.
  - rewrite (broadcast_nobody event w Hc). eexists.
    unfold emit. cbn. rewrite Hc, <- app_assoc. reflexivity.
  - unfold WebSocketManager.broadcast, bind, WebSocketManager.JSON_stringify,
      WebSocketManager.connections_size, WebSocketManager.connections_forEach.
    cbn [emit connections]. rewrite Hc. cbn [length Nat.eqb].
    change (connections (emit (Stringified event) w)) with (connections w).
    rewrite Hc.
    destruct (forEach_run (JSON_text event) (ws0 :: rest0) [] (0, 0)%nat
                (emit (Stringified event) w)) as [c' Hrun];
      [exact Hc|exact Hnd|].
    rewrite Hrun. eexists. unfold console_log, emit. cbn.
    rewrite <- !app_assoc. reflexivity.
Qed.

Lemma filter_NoDup (keep : Handle -> bool) (s : list Handle) :
  NoDup s -> NoDup (List.filter keep s).
Proof.
  intros Hnd. apply NoDup_ListNoDup, List.NoDup_filter, NoDup_ListNoDup, Hnd.
Qed.

(** The registry stays a set: no method of the registry leaves a socket
    registered twice, and none registers a socket other than the one
    passed to [addConnection]. *)
Theorem registry_stays_a_set (w : World) :
  NoDup (connections w) ->
  (forall ws,
      let w' := snd (WebSocketManager.addConnection ws w) in
      NoDup (connections w')
      /\ forall x, x ∈ connections w' -> x = ws \/ x ∈ connections w)
  /\ (forall ws,
         let w' := snd (WebSocketManager.removeConnection ws w) in
         NoDup (connections w') /\ connections w' ⊆ connections w)
  /\ (forall event,
         let w' := snd (WebSocketManager.broadcast event w) in
         NoDup (connections w') /\ connections w' ⊆ connections w)
  /\ (forall message_,
         let w' := snd (WebSocketManager.broadcastMessage message_ w) in
         NoDup (connections w') /\ connections w' ⊆ connections w)
  /\ (forall ws message_,
         let w' := snd (WebSocketManager.sendToConnection ws message_ w) in
         NoDup (connections w') /\ connections w' ⊆ connections w)
  /\ (forall close_throws,
         let w' := snd (WebSocketManager.closeAllConnections close_throws w) in
         NoDup (connections w') /\ connections w' ⊆ connections w).
Proof.
  intros Hnd.
  assert (Hfilter : forall keep, List.filter keep (connections w) ⊆ connections w).
  { intros keep x Hx. apply list_elem_of_In in Hx. apply List.filter_In in Hx as [Hx _].
    apply list_elem_of_In, Hx. }
  split; [|split; [|split; [|split; [|split]]]].
  - intros ws w'. unfold w'. rewrite addConnection_run. cbn [snd connections emit set_connections].
    split; [apply Set_add_NoDup, Hnd|]. intros x Hx. apply Set_add_spec, Hx.
  - intros ws w'. unfold w'. rewrite removeConnection_run.
    cbn [snd connections emit set_connections].
    split; [apply Set_delete_NoDup, Hnd|apply Hfilter].
  - intros event w'. unfold w'. destruct (broadcast_run event w Hnd) as [text ->].
    cbn [snd connections]. split; [apply filter_NoDup, Hnd|apply Hfilter].
  - intros message_ w'. unfold w'.
    destruct (broadcastMessage_shape message_ w Hnd) as (w1 & -> & Hc).
    cbn [snd]. rewrite Hc. split; [apply filter_NoDup, Hnd|apply Hfilter].
  - intros ws message_ w'. unfold w'. rewrite sendToConnection_run.
    destruct (send_throws w ws); cbn [snd connections emit set_connections].
    + split; [apply Set_delete_NoDup, Hnd|apply Hfilter].
    + split; [exact Hnd|intros x Hx; exact Hx].
  - intros close_throws w'. unfold w'.
    destruct (closeAllConnections_shape close_throws w Hnd) as (w1 & -> & Hc).
    cbn [snd]. rewrite Hc. split; [constructor|]. intros x Hx. inversion Hx.
Qed.

Lemma registry_stays_a_set_witness :
  NoDup (connections three_sinks)
  /\ NoDup (connections (snd (WebSocketManager.broadcast sample_event three_sinks)))
  /\ connections (snd (WebSocketManager.broadcast sample_event three_sinks))
     ⊆ connections three_sinks.
Proof.
  assert (Hnd : NoDup (connections three_sinks)).
  { apply NoDup_ListNoDup. repeat constructor; simpl; intuition lia. }
  split; [exact Hnd|].
  exact (proj1 (proj2 (proj2 (registry_stays_a_set three_sinks Hnd))) sample_event).
Defined.

(** ** The WebSocket handlers *)

Lemma Set_delete_add (ws : Handle) (s : list Handle) :
  WebSocketManager.Set_delete ws (WebSocketManager.Set_add ws s)
  = WebSocketManager.Set_delete ws s.
Proof.
  unfold WebSocketManager.Set_add.
  destruct (WebSocketManager.Set_has ws s); [reflexivity|].
  rewrite Set_delete_app, Set_delete_head. apply app_nil_r.
Qed.

Section Handlers.
Variable connection_text : Date -> string.
Variable echo_text : string -> Date -> nat -> string.
Variable error_text : Date -> string.

(** The [open] handler registers the socket and sends it the welcome,
    stamped with the time of the call, and to nobody else.  A socket
    whose welcome throws is not registered afterwards, even when it was
    registered before; the handler itself never throws. *)
Theorem open_keeps_only_a_socket_that_takes_the_welcome (ws : Handle) (w : World) :
  NoDup (connections w) ->
  exists w',
    App.open connection_text ws w = (Return tt, w')
    /\ sends_of (trace w')
       = sends_of (trace w)
         ++ [(ws, Raw (connection_text (clock w (ticks w))), send_throws w ws)]
    /\ connections w'
       = (if alive w ws then WebSocketManager.Set_add ws (connections w)
          else WebSocketManager.Set_delete ws (connections w))
    /\ (ws ∈ connections w' <-> alive w ws = true)
    /\ (forall x, x <> ws -> (x ∈ connections w' <-> x ∈ connections w))
    /\ NoDup (connections w')
    /\ users w' = users w.
Proof.
  intros Hnd. unfold App.open, bind, console_log, new_Date.
  rewrite addConnection_run. rewrite sendToConnection_run.
  cbn [send_throws emit set_connections tick]. unfold alive.
  destruct (send_throws w ws) as [t|]; eexists; (split; [reflexivity|]);
    cbn [trace connections users emit set_connections tick clock ticks].
  - split; [rewrite !sends_of_app; cbn; rewrite !app_nil_r; reflexivity|].
    rewrite Set_delete_add.
    split; [reflexivity|].
    split; [rewrite Set_delete_spec; split; [tauto|discriminate]|].
    split; [intros x Hx; rewrite Set_delete_spec; tauto|].
    split; [apply Set_delete_NoDup, Hnd|reflexivity].
  - split; [rewrite !sends_of_app; cbn; rewrite !app_nil_r; reflexivity|].
    split; [reflexivity|].
    split; [rewrite Set_add_spec; tauto|].
    split; [intros x Hx; rewrite Set_add_spec; tauto|].
    split; [apply Set_add_NoDup, Hnd|reflexivity].
Qed.

(** The [message] handler answers the sender and nobody else, with the
    echo of the message, the time of the call and the number of
    registered sockets; a sender whose echo throws is evicted, and the
    handler itself never throws. *)
Theorem message_echoes_to_the_sender_only (ws : Handle) (msg : string) (w : World) :
  exists w',
    App.message echo_text error_text ws msg w = (Return tt, w')
    /\ sends_of (trace w')
       = sends_of (trace w)
         ++ [(ws, Raw (echo_text msg (clock w (ticks w)) (length (connections w))),
              send_throws w ws)]
    /\ connections w'
       = (if alive w ws then connections w
          else WebSocketManager.Set_delete ws (connections w))
    /\ users w' = users w.
Proof.
  unfold App.message, bind, try_catch, console_log, new_Date,
    WebSocketManager.getConnectionCount, WebSocketManager.connections_size.
  rewrite sendToConnection_run.
  cbn [send_throws emit set_connections tick connections]. unfold alive.
  destruct (send_throws w ws) as [t|]; eexists; (split; [reflexivity|]);
    cbn [trace connections users emit set_connections tick clock ticks];
    (split; [rewrite !sends_of_app; cbn; rewrite !app_nil_r; reflexivity|]);
    split; reflexivity.
Qed.

End Handlers.

(** After the [close] handler the socket gets no broadcast, and the
    sockets that stay registered get theirs as before. *)
Theorem closed_socket_gets_no_broadcast (ws : Handle) (event : UserEvent) (w : World) :
  NoDup (connections w) ->
  exists w1 w2 delta,
    App.close ws w = (Return tt, w1)
    /\ WebSocketManager.broadcast event w1 = (Return tt, w2)
    /\ trace w2 = trace w1 ++ delta
    /\ sends_of delta
       = map (fun x => (x, JSON_text event, send_throws w x))
             (WebSocketManager.Set_delete ws (connections w))
    /\ Forall (fun s => fst (fst s) <> ws) (sends_of delta)
    /\ (ws ∉ connections w2).
Proof.
  intros Hnd. unfold App.close, bind, console_log.
  rewrite removeConnection_run.
  match goal with
  | |- context [(Return tt, ?w1)] =>
      destruct (broadcast_run event w1) as [text Hrun];
        [cbn [connections emit set_connections]; apply Set_delete_NoDup, Hnd|]
  end.
  eexists; eexists; eexists.
  split; [reflexivity|]. split; [exact Hrun|].
  cbn [trace connections users emit set_connections send_throws].
  split; [reflexivity|].
  assert (Hsends : forall l,
             sends_of ([Stringified event]
                       ++ flat_map (attempt w (JSON_text event)) l ++ [Logged text])
             = map (fun x => (x, JSON_text event, send_throws w x)) l).
  { intros l. change (sends_of ([Stringified event] ++ ?t)) with (sends_of t).
    rewrite sends_of_app, sends_of_attempts. apply app_nil_r. }
  split; [apply Hsends|]. split.
  - setoid_rewrite Hsends. apply Forall_forall. intros s Hs.
    apply list_elem_of_fmap_1 in Hs as (x & -> & Hx). cbn.
    apply Set_delete_spec in Hx. tauto.
  - intros Hin. apply list_elem_of_In, List.filter_In in Hin as [Hin _].
    apply list_elem_of_In, Set_delete_spec in Hin. tauto.
Qed.

Lemma open_keeps_only_a_socket_that_takes_the_welcome_witness :
  exists w',
    App.open sample_connection_text 2%nat three_sinks = (Return tt, w')
    /\ sends_of (trace w')
       = sends_of (trace three_sinks)
         ++ [(2%nat, Raw (sample_connection_text (clock three_sinks (ticks three_sinks))),
              send_throws three_sinks 2%nat)]
    /\ connections w'
       = (if alive three_sinks 2%nat
          then WebSocketManager.Set_add 2%nat (connections three_sinks)
          else WebSocketManager.Set_delete 2%nat (connections three_sinks))
    /\ (2%nat ∈ connections w' <-> alive three_sinks 2%nat = true)
    /\ (forall x, x <> 2%nat -> (x ∈ connections w' <-> x ∈ connections three_sinks))
    /\ NoDup (connections w')
    /\ users w' = users three_sinks.
Proof.
  assert (Hnd : NoDup (connections three_sinks)).
  { apply NoDup_ListNoDup. repeat constructor; simpl; intuition lia. }
  exact (open_keeps_only_a_socket_that_takes_the_welcome
           sample_connection_text 2%nat three_sinks Hnd).
Defined.

Lemma closed_socket_gets_no_broadcast_witness :
  exists w1 w2 delta,
    App.close 3%nat three_sinks = (Return tt, w1)
    /\ WebSocketManager.broadcast sample_event w1 = (Return tt, w2)
    /\ trace w2 = trace w1 ++ delta
    /\ sends_of delta
       = map (fun x => (x, JSON_text sample_event, send_throws three_sinks x))
             (WebSocketManager.Set_delete 3%nat (connections three_sinks))
    /\ Forall (fun s => fst (fst s) <> 3%nat) (sends_of delta)
    /\ (3%nat ∉ connections w2).
Proof.
  assert (Hnd : NoDup (connections three_sinks)).
  { apply NoDup_ListNoDup. repeat constructor; simpl; intuition lia. }
  exact (closed_socket_gets_no_broadcast 3%nat sample_event three_sinks Hnd).
Defined.

(** ** The store: pages *)

(** Whatever the integers, [findPaginated] returns a run of consecutive
    records of the store, in store order, and changes nothing; for a
    non-negative [limit] the run has at most [limit] records.  (A
    negative [limit] counts from the end, see the example below.) *)
Theorem findPaginated_returns_a_run_of_the_store (w : World) (offset_ limit_ : Z) :
  exists k n : nat,
    UserRepository.findPaginated offset_ limit_ w
    = (Return (take n (drop k (users w))), w)
    /\ ((0 <= limit_)%Z -> (n <= Z.to_nat limit_)%nat)
    /\ (take n (drop k (users w)) `sublist_of` users w).
Proof.
  unfold UserRepository.findPaginated, slice.
  eexists; eexists. split; [reflexivity|]. split.
  - intros Hl.
    destruct (Z.ltb_spec offset_ 0), (Z.ltb_spec (offset_ + limit_) 0); lia.
  - etransitivity; [apply sublist_take|apply sublist_drop].
Qed.

Example findPaginated_negative_limit :
  map id (match fst (UserRepository.findPaginated 1 (-2) (seeded boot)) with
          | Return page => page
          | Throw _ => []
          end)
  = ["2"]%string.
Proof. reflexivity. Qed.

(** Pages tile the collection: the page of [l1] records at [offset]
    followed by the page of [l2] records at [offset + l1] is the page of
    [l1 + l2] records at [offset]; and the page at 0 with a limit that is
    not below the count is what [findAll] returns. *)
Theorem consecutive_pages_concatenate (w : World) (offset_ l1 l2 : Z) :
  (0 <= offset_)%Z -> (0 < l1)%Z -> (0 < l2)%Z ->
  exists p1 p2 p12 all,
    UserRepository.findPaginated offset_ l1 w = (Return p1, w)
    /\ UserRepository.findPaginated (offset_ + l1) l2 w = (Return p2, w)
    /\ UserRepository.findPaginated offset_ (l1 + l2) w = (Return p12, w)
    /\ p1 ++ p2 = p12
    /\ UserRepository.findAll w = (Return all, w)
    /\ ((Z.of_nat (length all) <= l1)%Z ->
        UserRepository.findPaginated 0 l1 w = (Return all, w)).
Proof.
  intros Ho H1 H2. unfold UserRepository.findPaginated, UserRepository.findAll.
  do 4 eexists. do 3 (split; [reflexivity|]).
  split; [|split; [reflexivity|]].
  - rewrite !slice_drop_take by lia.
    rewrite Z2Nat.inj_add by lia. rewrite <- drop_drop.
    rewrite Z2Nat.inj_add by lia. apply take_take_drop.
  - intros Hall. rewrite slice_drop_take by lia.
    change (Z.to_nat 0) with 0%nat. cbn [drop].
    rewrite take_ge; [reflexivity|].
    apply Nat2Z.inj_le. rewrite Z2Nat.id by lia. exact Hall.
Qed.

Lemma consecutive_pages_concatenate_witness :
  exists p1 p2 p12 all,
    UserRepository.findPaginated 0 2 (seeded boot) = (Return p1, seeded boot)
    /\ UserRepository.findPaginated (0 + 2) 2 (seeded boot) = (Return p2, seeded boot)
    /\ UserRepository.findPaginated 0 (2 + 2) (seeded boot) = (Return p12, seeded boot)
    /\ p1 ++ p2 = p12
    /\ UserRepository.findAll (seeded boot) = (Return all, seeded boot)
    /\ ((Z.of_nat (length all) <= 2)%Z ->
        UserRepository.findPaginated 0 2 (seeded boot) = (Return all, seeded boot)).
Proof.
  apply (consecutive_pages_concatenate (seeded boot) 0 2 2); lia.
Defined.

(** ** The store: what a mutation leaves to be found *)

Lemma find_app_None {A : Type} (p : A -> bool) (l1 l2 : list A) :
  List.find p l1 = None -> List.find p (l1 ++ l2) = List.find p l2.
Proof.
  induction l1 as [|x rest IH]; [reflexivity|]. cbn.
  destruct (p x); [discriminate|exact IH].
Qed.

Lemma find_app_Some {A : Type} (p : A -> bool) (l1 l2 : list A) (x : A) :
  List.find p l1 = Some x -> List.find p (l1 ++ l2) = Some x.
Proof.
  induction l1 as [|y rest IH]; [discriminate|]. cbn.
  destruct (p y); [auto|exact IH].
Qed.

Lemma find_absent_id (i : string) (us : list User) :
  i ∉ id <$> us -> List.find (has_id i) us = None.
Proof.
  intros Hn. destruct (List.find (has_id i) us) as [u|] eqn:Hf; [|reflexivity].
  exfalso. apply Hn. destruct (find_In _ _ _ Hf) as [Hin Hid].
  apply has_id_true in Hid. subst i. apply list_elem_of_fmap_2, Hin.
Qed.

(** After a [create] that succeeded, the new record is the last one, the
    count is one more, and the record is found by its address and, when
    the drawn id was not in use, by its id.  It has the name and address
    as given (the name is not trimmed) and differs from the returned
    value in [updatedAt] at most. *)
Theorem create_then_find (createDto : CreateUserDto) (w w' : World) (u : User) :
  UserRepository.create createDto w = (Return u, w') ->
  exists stored,
    users w' = users w ++ [stored]
    /\ with_updatedAt stored (updatedAt u) = u
    /\ name stored = dto_name createDto
    /\ email stored = dto_email createDto
    /\ id stored = uuids w (draws w)
    /\ UserRepository.findByEmail (dto_email createDto) w' = (Return (Some stored), w')
    /\ UserRepository.exists_ (id u) w' = (Return true, w')
    /\ UserRepository.count w' = (Return (S (length (users w))), w')
    /\ (id u ∉ id <$> users w ->
        UserRepository.findById (id u) w' = (Return (Some stored), w')).
Proof.
  rewrite create_run.
  destruct (List.find (has_email (dto_email createDto)) (users w)) eqn:Hf;
    [discriminate|].
  cbv zeta. intros [= <- <-]. eexists.
  cbn [users tick set_users with_updatedAt id name email createdAt updatedAt].
  split; [reflexivity|]. repeat (split; [reflexivity|]).
  split.
  { rewrite findByEmail_run. cbn [users tick set_users].
    rewrite find_app_None by exact Hf. cbn. unfold has_email. cbn.
    rewrite String.eqb_refl. reflexivity. }
  split.
  { unfold UserRepository.exists_. cbn [users tick set_users].
    rewrite existsb_app. cbn. rewrite String.eqb_refl, orb_true_r. reflexivity. }
  split.
  { unfold UserRepository.count. cbn [users tick set_users].
    rewrite length_app. cbn. rewrite Nat.add_1_r. reflexivity. }
  intros Hfresh. rewrite findById_run. cbn [users tick set_users].
  rewrite find_app_None by (apply find_absent_id, Hfresh).
  cbn. unfold has_id. cbn. rewrite String.eqb_refl. reflexivity.
Qed.

Lemma create_then_find_witness :
  exists stored,
    users (snd (UserRepository.create (mkCreateUserDto "  Ann  " "ann@x.com") (seeded boot)))
    = users (seeded boot) ++ [stored]
    /\ name stored = "  Ann  "%string
    /\ id stored = "id-0"%string.
Proof.
  destruct (create_then_find (mkCreateUserDto "  Ann  " "ann@x.com") (seeded boot)
              _ _ eq_refl) as (stored & H1 & _ & H2 & _ & H3 & _).
  exists stored. split; [exact H1|]. split; [exact H2|exact H3].
Defined.

Lemma find_take_drop_other (i other : string) (us : list User) (index : nat)
      (target : User) :
  us !! index = Some target ->
  id target = i ->
  other <> i ->
  List.find (has_id other) (take index us ++ drop (S index) us)
  = List.find (has_id other) us.
Proof.
  intros Hl Hid Hne. rewrite (split_at us index target Hl) at 3.
  destruct (List.find (has_id other) (take index us)) as [x|] eqn:Hf.
  - rewrite !(find_app_Some _ _ _ _ Hf). reflexivity.
  - rewrite !(find_app_None _ _ _ Hf). cbn.
    unfold has_id at 2. rewrite Hid.
    rewrite (proj2 (String.eqb_neq i other)) by congruence. reflexivity.
Qed.


(** After a [delete] that succeeded in a store whose ids are all
    different, the id is not found any more, [exists] answers [false] and
    the count is one less; looking up any other id gives what it gave
    before. *)
Theorem delete_then_find (id_ : string) (w w' : World) (u : User) :
  NoDup (id <$> users w) ->
  UserRepository.delete id_ w = (Return (Some u), w') ->
  UserRepository.findById id_ w' = (Return None, w')
  /\ UserRepository.exists_ id_ w' = (Return false, w')
  /\ S (length (users w')) = length (users w)
  /\ (forall other, other <> id_ ->
                    List.find (has_id other) (users w')
                    = List.find (has_id other) (users w)).
Proof.
  intros Hnd. rewrite delete_run.
  destruct (findIndex (has_id id_) (users w)) as [index|] eqn:Hi; [|discriminate].
  destruct (target_found _ _ _ Hi) as (target & Hl & _ & Hid & Hfront).
  rewrite Hl. intros [= <- <-].
  cbn [users tick set_users]. rewrite delete_take_drop.
  assert (Hnone : List.find (has_id id_) (take index (users w) ++ drop (S index) (users w))
                  = None).
  { apply find_absent_id. rewrite (split_at (users w) index target Hl) in Hnd.
    rewrite fmap_app, fmap_cons in Hnd.
    apply NoDup_app in Hnd as (_ & Hdisj & Hback).
    apply NoDup_cons in Hback as [Hnb _].
    rewrite fmap_app. intros Hin. apply elem_of_app in Hin as [Hin|Hin].
    - apply (Hdisj _ Hin). rewrite Hid. left.
    - rewrite Hid in Hnb. contradiction. }
  split; [rewrite findById_run; cbn [users tick set_users];
          rewrite ?delete_take_drop, Hnone; reflexivity|].
  split.
  { unfold UserRepository.exists_. cbn [users tick set_users].
    rewrite ?delete_take_drop.
    destruct (existsb _ _) eqn:He; [|reflexivity].
    apply some_find in He as [x Hx]. fold (has_id id_) in Hx. congruence. }
  split.
  { rewrite <- delete_take_drop, length_delete by (rewrite Hl; eauto).
    pose proof (lookup_lt_Some _ _ _ Hl). lia. }
  intros other Hne. apply (find_take_drop_other id_ other _ _ target Hl Hid Hne).
Qed.

Lemma delete_then_find_witness :
  UserRepository.findById "2" (snd (UserRepository.delete "2" (seeded boot)))
  = (Return None, snd (UserRepository.delete "2" (seeded boot))).
Proof.
  assert (Hnd : NoDup (id <$> users (seeded boot))).
  { apply NoDup_ListNoDup. cbn. repeat constructor; cbn; intuition discriminate. }
  exact (proj1 (delete_then_find "2" (seeded boot) _ _ Hnd eq_refl)).
Defined.

(** Without that condition the id can still be found: two records with
    the id ["1"], one deleted, one left. *)
Example delete_with_a_repeated_id :
  let twice := set_users [mkUser "1" "a" "a@x.y" 0%Z 0%Z; mkUser "1" "b" "b@x.y" 0%Z 0%Z]
                         boot in
  fst (UserRepository.findById "1" (snd (UserRepository.delete "1" twice)))
  = Return (Some (mkUser "1" "b" "b@x.y" 0%Z 0%Z)).
Proof. reflexivity. Qed.



(** ** The store: conflicts and uniqueness *)

(** [create] throws its conflict error exactly when [findByEmail]
    resolves the address, which is when [userExistsByEmail] answers
    [true]; a [create] that throws has drawn no identifier, read no
    clock and changed no record. *)
Theorem create_conflicts_exactly_when_the_email_is_found
        (createDto : CreateUserDto) (w : World) :
  exists found taken,
    UserRepository.findByEmail (dto_email createDto) w = (Return found, w)
    /\ UserService.userExistsByEmail inMemory (dto_email createDto) w = (Return taken, w)
    /\ (taken = true <-> is_Some found)
    /\ (taken = true <-> exists u, u ∈ users w /\ email u = dto_email createDto)
    /\ (taken = true ->
        UserRepository.create createDto w
        = (Throw (ErrorObj "User with this email already exists"), w))
    /\ (taken = false ->
        exists u w', UserRepository.create createDto w = (Return u, w')).
Proof.
  exists (List.find (has_email (dto_email createDto)) (users w)).
  exists (match List.find (has_email (dto_email createDto)) (users w) with
          | Some _ => true
          | None => false
          end).
  split; [reflexivity|]. split; [reflexivity|].
  rewrite create_run.
  destruct (List.find (has_email (dto_email createDto)) (users w)) as [x|] eqn:Hf.
  - split; [split; eauto|]. split.
    + split; [intros _|reflexivity]. destruct (find_In _ _ _ Hf) as [Hin He].
      exists x. split; [exact Hin|apply has_email_true, He].
    + split; [reflexivity|discriminate].
  - split; [split; [discriminate|intros [? ?]; discriminate]|]. split.
    + split; [discriminate|]. intros (u & Hin & He). exfalso.
      apply (find_absent _ _ Hf). rewrite <- He. apply list_elem_of_fmap_2, Hin.
    + split; [discriminate|]. intros _. eexists; eexists; reflexivity.
Qed.

(** The mutations of the store keep ids apart and addresses apart:
    [create] when the identifier it draws is not in use, [delete]
    always, [update] for every patch but the one that sets the address to
    the empty string. *)
Theorem store_mutations_keep_records_apart (w : World) :
  consistent (users w) ->
  (forall createDto,
      uuids w (draws w) ∉ id <$> users w ->
      consistent (users (snd (UserRepository.create createDto w))))
  /\ (forall id_ updateDto,
         patch_email updateDto <> Some ""%string ->
         consistent (users (snd (UserRepository.update id_ updateDto w))))
  /\ (forall id_, consistent (users (snd (UserRepository.delete id_ w)))).
Proof.
  intros Hc. split; [|split].
  - intros createDto Hfresh. apply create_consistent; assumption.
  - intros id_ updateDto Hne. apply update_consistent; assumption.
  - intros id_. apply delete_consistent, Hc.
Qed.

Lemma store_mutations_keep_records_apart_witness :
  consistent (users (seeded boot))
  /\ consistent (users (snd (UserRepository.update "2"
                               (mkUpdateUserDto None (Some "j@x.org"%string))
                               (seeded boot)))).
Proof.
  assert (Hc : consistent (users (seeded boot))) by apply seeded_data_model.
  split; [exact Hc|].
  apply (proj1 (proj2 (store_mutations_keep_records_apart (seeded boot) Hc))).
  discriminate.
Defined.

(** ** The orchestrator: what never reaches the repository *)

(** Whatever repository stands behind the orchestrator, a request with
    a blank id, with fields that fail validation or with paging numbers out
    of range is answered without any call of the repository: the world is
    as it was.  The answer names each invalid field, the name first. *)
Theorem invalid_requests_never_reach_the_repository (r : Repository) (w : World) :
  (forall createDto,
      UserModel.validateCreateDto createDto <> [] ->
      UserService.createUser r createDto w
      = (Return (failure (join ", " (UserModel.validateCreateDto createDto))), w))
  /\ (forall n e,
         UserModel.validateCreateDto (mkCreateUserDto n e)
         = (if UserModel.isValidName n then []
            else ["Name must be at least 2 characters long"%string])
           ++ (if UserModel.isValidEmail e then []
               else ["Valid email is required"%string]))
  /\ (forall id_ updateDto,
         UserService.blank id_ = true ->
         UserService.updateUser r id_ updateDto w
         = (Return (failure "User ID is required"), w))
  /\ (forall id_ updateDto,
         UserService.blank id_ = false ->
         UserModel.validateUpdateDto updateDto <> [] ->
         UserService.updateUser r id_ updateDto w
         = (Return (failure (join ", " (UserModel.validateUpdateDto updateDto))), w))
  /\ (forall id_,
         UserService.blank id_ = true ->
         UserService.deleteUser r id_ w = (Return (failure "User ID is required"), w)
         /\ UserService.getUserById r id_ w
            = (Return (failure "User ID is required"), w))
  /\ (forall offset_ limit_,
         (offset_ < 0 \/ limit_ <= 0 \/ 100 < limit_)%Z ->
         UserService.getUsersPaginated r offset_ limit_ w
         = (Return (failure "Invalid pagination parameters"), w)).
Proof.
  split; [|split; [|split; [|split; [|split]]]].
  - intros dto Hv. unfold UserService.createUser, try_catch.
    destruct (UserModel.validateCreateDto dto); [contradiction|reflexivity].
  - intros n e. unfold UserModel.validateCreateDto. cbn [dto_name dto_email].
    destruct (UserModel.isValidName n) eqn:Hn, (UserModel.isValidEmail e) eqn:He;
      rewrite ?(valid_name_truthy _ Hn), ?(valid_email_truthy _ He);
      cbn; rewrite ?orb_true_r; reflexivity.
  - intros id_ dto Hb. unfold UserService.updateUser, try_catch. rewrite Hb. reflexivity.
  - intros id_ dto Hb Hv. unfold UserService.updateUser, try_catch. rewrite Hb.
    destruct (UserModel.validateUpdateDto dto); [contradiction|reflexivity].
  - intros id_ Hb. unfold UserService.deleteUser, UserService.getUserById, try_catch.
    rewrite Hb. split; reflexivity.
  - intros o l Hr. unfold UserService.getUsersPaginated, try_catch.
    destruct (Z.ltb_spec o 0), (Z.leb_spec l 0), (Z.ltb_spec 100 l);
      try reflexivity; lia.
Qed.

Example createUser_names_both_invalid_fields :
  fst (UserService.createUser inMemory (mkCreateUserDto " a " "a@b") (seeded boot))
  = Return (failure "Name must be at least 2 characters long, Valid email is required").
Proof. reflexivity. Qed.

(** ** The orchestrator: events follow success *)

Lemma broadcastUserEvent_delivers (event : UserEvent) (w : World) :
  NoDup (connections w) ->
  exists w',
    UserService.broadcastUserEvent event w = (Return tt, w')
    /\ users w' = users w
    /\ connections w' = List.filter (alive w) (connections w)
    /\ stringified_of (trace w') = stringified_of (trace w) ++ [event]
    /\ sends_of (trace w')
       = sends_of (trace w)
         ++ map (fun ws => (ws, JSON_text event, send_throws w ws)) (connections w).
Proof.
  intros Hnd. destruct (broadcast_run event w Hnd) as [text Hrun].
  eexists. split; [apply broadcastUserEvent_run, Hrun|].
  cbn [users connections trace]. split; [reflexivity|]. split; [reflexivity|].
  split.
  - rewrite !stringified_of_app, stringified_of_attempts. reflexivity.
  - rewrite !sends_of_app, sends_of_attempts. cbn. rewrite app_nil_r. reflexivity.
Qed.

(** The three mutations when the store accepts them: what is left to do
    is the broadcast. *)
Lemma createUser_accepted (createDto : CreateUserDto) (w w2 : World) :
  UserModel.validateCreateDto createDto = [] ->
  List.find (has_email (dto_email createDto)) (users w) = None ->
  let stored := mkUser (uuids w (draws w)) (dto_name createDto) (dto_email createDto)
                       (clock w (ticks w)) (clock w (S (ticks w))) in
  let returned := with_updatedAt stored (clock w (S (S (ticks w)))) in
  UserService.broadcastUserEvent (mkUserEvent created returned)
    (tick (set_users (users w ++ [stored]) (tick (tick (draw w)))))
  = (Return tt, w2) ->
  UserService.createUser inMemory createDto w
  = (Return (success returned "User created successfully"), w2).
Proof.
  intros Hv Hf stored returned Hb. subst stored returned.
  unfold UserService.createUser, try_catch, bind. rewrite Hv.
  cbn [length Nat.ltb Nat.leb repo_create inMemory].
  rewrite create_run, Hf. cbv beta iota zeta.
  rewrite Hb. reflexivity.
Qed.

Lemma updateUser_accepted (id_ : string) (updateDto : UpdateUserDto) (w w2 : World)
      (found : User) (index : nat) :
  UserService.blank id_ = false ->
  UserModel.validateUpdateDto updateDto = [] ->
  List.find (has_id id_) (users w) = Some found ->
  findIndex (has_id id_) (users w) = Some index ->
  taken_by_other id_ updateDto (users w) = false ->
  let stored := merged found updateDto (clock w (ticks w)) in
  let returned := with_updatedAt stored (clock w (S (ticks w))) in
  UserService.broadcastUserEvent (mkUserEvent updated returned)
    (tick (set_users (<[index := stored]> (users w)) (tick w)))
  = (Return tt, w2) ->
  UserService.updateUser inMemory id_ updateDto w
  = (Return (success returned "User updated successfully"), w2).
Proof.
  intros Hb Hv Hf Hi Ht stored returned Hbr. subst stored returned.
  destruct (update_found id_ updateDto w found Hf) as (index' & Hi' & Hl & Hup).
  assert (index' = index) as -> by congruence.
  rewrite Ht in Hup. cbv zeta in Hup.
  unfold UserService.updateUser, try_catch, bind.
  rewrite Hb, Hv. cbn [length Nat.ltb Nat.leb repo_findById repo_update inMemory].
  rewrite findById_run, Hf, Hup. cbv beta iota zeta. rewrite Hbr. reflexivity.
Qed.

Lemma deleteUser_accepted (id_ : string) (w w2 : World) (stored : User) (index : nat) :
  UserService.blank id_ = false ->
  List.find (has_id id_) (users w) = Some stored ->
  findIndex (has_id id_) (users w) = Some index ->
  let returned := with_updatedAt stored (clock w (ticks w)) in
  UserService.broadcastUserEvent (mkUserEvent deleted returned)
    (tick (set_users (base.delete index (users w)) w))
  = (Return tt, w2) ->
  UserService.deleteUser inMemory id_ w
  = (Return (success returned "User deleted successfully"), w2).
Proof.
  intros Hb Hf Hi returned Hbr. subst returned.
  destruct (delete_found _ _ _ Hf) as (index' & Hi' & Hl & Hdel).
  assert (index' = index) as -> by congruence.
  unfold UserService.deleteUser, try_catch, bind. rewrite Hb.
  cbn [repo_findById repo_delete inMemory].
  rewrite findById_run, Hf, Hdel. cbv beta iota zeta. rewrite Hbr. reflexivity.
Qed.

Lemma deleteUser_not_found (id_ : string) (w : World) :
  UserService.blank id_ = false ->
  List.find (has_id id_) (users w) = None ->
  UserService.deleteUser inMemory id_ w = (Return (failure "User not found"), w).
Proof.
  intros Hb Hf. unfold UserService.deleteUser, try_catch, bind. rewrite Hb.
  cbn [repo_findById inMemory]. rewrite findById_run, Hf. reflexivity.
Qed.

Lemma sends_of_logged_error (tr : list Effect) (label : string) (t : Thrown) :
  sends_of (tr ++ [LoggedError label t]) = sends_of tr.
Proof. rewrite sends_of_app. apply app_nil_r. Qed.

Ltac answered_with_an_error :=
  eexists; eexists; split; [reflexivity|];
  cbn [data error failure announced deliveries flat_map trace emit users connections];
  rewrite ?stringified_of_logged_error, ?sends_of_logged_error, ?app_nil_r;
  repeat split; eauto; discriminate.

Ltac answered_with_a_record Hrun Hu Hc Hs Hd :=
  eexists; eexists; split; [exact Hrun|];
  cbn [data error success announced deliveries flat_map] in *;
  rewrite Hs, Hd, ?app_nil_r;
  cbn [trace users connections send_throws tick set_users draw];
  repeat split; try reflexivity; try discriminate;
  intros [? ?]; discriminate.

(** [createUser], [updateUser] and [deleteUser] over the in-memory store
    announce what they did and nothing else: an answer with a record
    comes with one event of the matching kind that carries that record,
    sent once to every socket registered when the call started; an answer
    with an error comes with no event, no send and no change to the
    collection; and every answer is one or the other. *)
Theorem mutations_announce_exactly_their_success (w : World) :
  NoDup (connections w) ->
  (forall createDto,
      follows_success created w (UserService.createUser inMemory createDto w))
  /\ (forall id_ updateDto,
         follows_success updated w (UserService.updateUser inMemory id_ updateDto w))
  /\ (forall id_,
         follows_success deleted w (UserService.deleteUser inMemory id_ w)).
Proof.
  intros Hnd. unfold follows_success. split; [|split].
  - intros dto.
    destruct (UserModel.validateCreateDto dto) as [|e es] eqn:Hv.
    2:{ unfold UserService.createUser, try_catch. rewrite Hv.
        answered_with_an_error. }
    destruct (List.find (has_email (dto_email dto)) (users w)) as [x|] eqn:Hf.
    { rewrite (createUser_duplicate dto w x Hv Hf). answered_with_an_error. }
    destruct (broadcastUserEvent_delivers
                (mkUserEvent created
                   (with_updatedAt
                      (mkUser (uuids w (draws w)) (dto_name dto) (dto_email dto)
                              (clock w (ticks w)) (clock w (S (ticks w))))
                      (clock w (S (S (ticks w))))))
                (tick (set_users
                         (users w ++ [mkUser (uuids w (draws w)) (dto_name dto)
                                             (dto_email dto) (clock w (ticks w))
                                             (clock w (S (ticks w)))])
                         (tick (tick (draw w))))))
      as (w2 & Hrun & Hu & Hc & Hs & Hd); [exact Hnd|].
    pose proof (createUser_accepted dto w w2 Hv Hf Hrun) as Hdone.
    answered_with_a_record Hdone Hu Hc Hs Hd.
  - intros id_ dto.
    destruct (UserService.blank id_) eqn:Hb.
    { rewrite updateUser_blank by exact Hb. answered_with_an_error. }
    destruct (UserModel.validateUpdateDto dto) as [|e es] eqn:Hv.
    2:{ rewrite updateUser_invalid by (auto; rewrite Hv; discriminate).
        answered_with_an_error. }
    destruct (List.find (has_id id_) (users w)) as [found|] eqn:Hf.
    2:{ rewrite updateUser_not_found by assumption. answered_with_an_error. }
    destruct (taken_by_other id_ dto (users w)) eqn:Ht.
    { rewrite (updateUser_conflict id_ dto w found) by assumption.
      answered_with_an_error. }
    destruct (find_findIndex _ _ _ Hf) as (index & Hi & _).
    destruct (broadcastUserEvent_delivers
                (mkUserEvent updated
                   (with_updatedAt (merged found dto (clock w (ticks w)))
                                   (clock w (S (ticks w)))))
                (tick (set_users (<[index := merged found dto (clock w (ticks w))]>
                                    (users w)) (tick w))))
      as (w2 & Hrun & Hu & Hc & Hs & Hd); [exact Hnd|].
    pose proof (updateUser_accepted id_ dto w w2 found index Hb Hv Hf Hi Ht Hrun)
      as Hdone.
    answered_with_a_record Hdone Hu Hc Hs Hd.
  - intros id_.
    destruct (UserService.blank id_) eqn:Hb.
    { unfold UserService.deleteUser, try_catch. rewrite Hb. answered_with_an_error. }
    destruct (List.find (has_id id_) (users w)) as [stored|] eqn:Hf.
    2:{ rewrite deleteUser_not_found by assumption. answered_with_an_error. }
    destruct (find_findIndex _ _ _ Hf) as (index & Hi & _).
    destruct (broadcastUserEvent_delivers
                (mkUserEvent deleted (with_updatedAt stored (clock w (ticks w))))
                (tick (set_users (base.delete index (users w)) w)))
      as (w2 & Hrun & Hu & Hc & Hs & Hd); [exact Hnd|].
    pose proof (deleteUser_accepted id_ w w2 stored index Hb Hf Hi Hrun) as Hdone.
    answered_with_a_record Hdone Hu Hc Hs Hd.
Qed.

Lemma mutations_announce_exactly_their_success_witness :
  NoDup (connections (seeded three_sinks))
  /\ follows_success created (seeded three_sinks)
       (UserService.createUser inMemory (mkCreateUserDto "Ann Lee" "ann@x.com")
          (seeded three_sinks)).
Proof.
  assert (Hnd : NoDup (connections (seeded three_sinks))).
  { apply NoDup_ListNoDup. repeat constructor; simpl; intuition lia. }
  split; [exact Hnd|].
  exact (proj1 (mutations_announce_exactly_their_success (seeded three_sinks) Hnd)
           (mkCreateUserDto "Ann Lee" "ann@x.com")).
Defined.

Example createUser_reaches_the_three_sinks :
  sends_of (trace (snd (UserService.createUser inMemory
                          (mkCreateUserDto "Ann Lee" "ann@x.com") (seeded three_sinks))))
  = let u := mkUser "0" "Ann Lee" "ann@x.com" 6%Z 8%Z in
    [ (1%nat, JSON_text (mkUserEvent created u), None);
      (2%nat, JSON_text (mkUserEvent created u), Some (ErrorObj "socket closed"));
      (3%nat, JSON_text (mkUserEvent created u), None) ].
Proof. reflexivity. Qed.

(** ** The orchestrator: reads and round trips *)

Lemma getUserById_run (id_ : string) (w : World) :
  UserService.getUserById inMemory id_ w
  = (Return (if UserService.blank id_ then failure "User ID is required"
             else match List.find (has_id id_) (users w) with
                  | Some u => success u "User retrieved successfully"
                  | None => failure "User not found"
                  end), w).
Proof.
  unfold UserService.getUserById, try_catch, bind.
  destruct (UserService.blank id_); [reflexivity|].
  cbn [repo_findById inMemory]. rewrite findById_run.
  destruct (List.find (has_id id_) (users w)); reflexivity.
Qed.

(** The reads of the orchestrator over the in-memory store always answer
    and leave the world as it was: records, registry, clock, identifiers
    and trace.  [getAllUsers] answers with every record in store order,
    [getUserById] with the first record of that id, [getUserStats] with
    the two counts, [userExistsByEmail] with whether a record has the
    address. *)
Theorem reads_change_nothing (w : World) :
  (exists text,
      UserService.getAllUsers inMemory w = (Return (success (users w) text), w))
  /\ (forall id_,
         exists resp,
           UserService.getUserById inMemory id_ w = (Return resp, w)
           /\ (UserService.blank id_ = false ->
               data resp = List.find (has_id id_) (users w))
           /\ (UserService.blank id_ = true -> data resp = None))
  /\ (forall offset_ limit_,
         exists resp,
           UserService.getUsersPaginated inMemory offset_ limit_ w = (Return resp, w))
  /\ UserService.getUserStats inMemory w
     = (Return (success (mkStats (length (users w)) (length (connections w)))
                        "User statistics retrieved successfully"), w)
  /\ (forall e,
         exists b,
           UserService.userExistsByEmail inMemory e w = (Return b, w)
           /\ (b = true <-> exists u, u ∈ users w /\ email u = e)).
Proof.
  split; [eexists; reflexivity|].
  split.
  { intros id_. eexists. split; [apply getUserById_run|].
    destruct (UserService.blank id_); split; intros H; try discriminate H;
      try reflexivity.
    destruct (List.find (has_id id_) (users w)); reflexivity. }
  split.
  { intros o l. unfold UserService.getUsersPaginated, try_catch, bind, Promise_all2.
    destruct ((o <? 0)%Z || (l <=? 0)%Z || (100 <? l)%Z); eexists; reflexivity. }
  split; [reflexivity|].
  intros e. eexists. split; [reflexivity|].
  cbn [repo_findByEmail inMemory]. fold (has_email e).
  destruct (List.find (has_email e) (users w)) as [x|] eqn:Hf.
  - split; [intros _|reflexivity]. destruct (find_In _ _ _ Hf) as [Hin He].
    exists x. split; [exact Hin|apply has_email_true, He].
  - split; [discriminate|]. intros (u & Hin & He). exfalso.
    apply (find_absent _ _ Hf). rewrite <- He. apply list_elem_of_fmap_2, Hin.
Qed.

(** A record created through the orchestrator can be read back: with
    valid fields, an address that no record has, and a fresh non-blank
    identifier from the environment, [createUser] succeeds, the
    collection grows by one record at the end, and [getUserById] with the
    returned id answers with that record: the returned one, but for
    [updatedAt], which is one clock reading older in the store. *)
Theorem createUser_then_getUserById (n e : string) (w : World) :
  UserModel.isValidName n = true ->
  UserModel.isValidEmail e = true ->
  List.find (has_email e) (users w) = None ->
  fresh_identifier w ->
  exists u stored w',
    UserService.createUser inMemory (mkCreateUserDto n e) w
    = (Return (success u "User created successfully"), w')
    /\ users w' = users w ++ [stored]
    /\ with_updatedAt stored (updatedAt u) = u
    /\ name stored = n /\ email stored = e
    /\ updatedAt stored = clock w (S (ticks w))
    /\ updatedAt u = clock w (S (S (ticks w)))
    /\ UserService.getUserById inMemory (id u) w'
       = (Return (success stored "User retrieved successfully"), w').
Proof.
  intros Hn He Hf [Hnb Hfresh].
  pose proof (validateCreateDto_valid n e Hn He) as Hv.
  destruct (broadcastUserEvent_frame
              (mkUserEvent created
                 (with_updatedAt
                    (mkUser (uuids w (draws w)) n e
                            (clock w (ticks w)) (clock w (S (ticks w))))
                    (clock w (S (S (ticks w))))))
              (tick (set_users
                       (users w ++ [mkUser (uuids w (draws w)) n e (clock w (ticks w))
                                           (clock w (S (ticks w)))])
                       (tick (tick (draw w))))))
    as (w2 & Hrun & Hu & _).
  pose proof (createUser_accepted (mkCreateUserDto n e) w w2 Hv Hf Hrun) as Hdone.
  cbn [dto_name dto_email] in Hdone.
  eexists; eexists; exists w2. split; [exact Hdone|].
  cbn [users tick set_users] in Hu. split; [exact Hu|].
  do 5 (split; [reflexivity|]).
  rewrite getUserById_run. cbn [id with_updatedAt]. rewrite Hnb, Hu.
  rewrite find_app_None by (apply find_absent_id, Hfresh).
  cbn. unfold has_id. cbn. rewrite String.eqb_refl. reflexivity.
Qed.

Lemma createUser_then_getUserById_witness :
  exists u stored w',
    UserService.createUser inMemory (mkCreateUserDto "Ann Lee" "ann@x.com") (seeded boot)
    = (Return (success u "User created successfully"), w')
    /\ users w' = users (seeded boot) ++ [stored]
    /\ with_updatedAt stored (updatedAt u) = u
    /\ name stored = "Ann Lee"%string /\ email stored = "ann@x.com"%string
    /\ updatedAt stored = clock (seeded boot) (S (ticks (seeded boot)))
    /\ updatedAt u = clock (seeded boot) (S (S (ticks (seeded boot))))
    /\ UserService.getUserById inMemory (id u) w'
       = (Return (success stored "User retrieved successfully"), w').
Proof.
  apply (createUser_then_getUserById "Ann Lee" "ann@x.com" (seeded boot));
    try reflexivity.
  split; [reflexivity|].
  cbn. intros H. repeat (apply elem_of_cons in H as [H|H]; [discriminate H|]).
  inversion H.
Defined.

Lemma find_delete_target (id_ : string) (us : list User) (index : nat) :
  NoDup (id <$> us) ->
  findIndex (has_id id_) us = Some index ->
  List.find (has_id id_) (base.delete index us) = None.
Proof.
  intros Hnd Hi.
  destruct (target_found _ _ _ Hi) as (target & Hl & _ & Hid & _).
  rewrite delete_take_drop. apply find_absent_id.
  rewrite (split_at us index target Hl) in Hnd.
  rewrite fmap_app, fmap_cons in Hnd.
  apply NoDup_app in Hnd as (_ & Hdisj & Hback).
  apply NoDup_cons in Hback as [Hnb _].
  rewrite fmap_app. intros Hin. apply elem_of_app in Hin as [Hin|Hin].
  - apply (Hdisj _ Hin). rewrite Hid. left.
  - rewrite Hid in Hnb. contradiction.
Qed.

(** A record deleted through the orchestrator stays deleted: in a store
    whose ids are all different, after [deleteUser] succeeded both
    [getUserById] and a second [deleteUser] with the same id answer
    ["User not found"], and the second call changes nothing. *)
Theorem deleteUser_then_getUserById (id_ : string) (w w' : World) (u : User) :
  NoDup (id <$> users w) ->
  UserService.deleteUser inMemory id_ w
  = (Return (success u "User deleted successfully"), w') ->
  UserService.getUserById inMemory id_ w' = (Return (failure "User not found"), w')
  /\ UserService.deleteUser inMemory id_ w' = (Return (failure "User not found"), w')
  /\ S (length (users w')) = length (users w).
Proof.
  intros Hnd Hrun.
  destruct (UserService.blank id_) eqn:Hb.
  { unfold UserService.deleteUser, try_catch in Hrun. rewrite Hb in Hrun.
    discriminate Hrun. }
  destruct (List.find (has_id id_) (users w)) as [stored|] eqn:Hf.
  2:{ rewrite deleteUser_not_found in Hrun by assumption. discriminate Hrun. }
  destruct (delete_found _ _ _ Hf) as (index & Hi & Hl & _).
  pose proof (find_delete_target id_ (users w) index Hnd Hi) as Hgone.
  assert (Hlen : S (length (base.delete index (users w))) = length (users w)).
  { rewrite length_delete by (rewrite Hl; eauto).
    pose proof (lookup_lt_Some _ _ _ Hl). lia. }
  destruct (broadcastUserEvent_frame
              (mkUserEvent deleted (with_updatedAt stored (clock w (ticks w))))
              (tick (set_users (base.delete index (users w)) w)))
    as (w2 & Hbr & Hu & _).
  rewrite (deleteUser_accepted id_ w w2 stored index Hb Hf Hi Hbr) in Hrun.
  injection Hrun as _ <-.
  assert (Hnone : List.find (has_id id_) (users w2) = None) by (rewrite Hu; exact Hgone).
  split; [rewrite getUserById_run, Hb, Hnone; reflexivity|].
  split; [apply deleteUser_not_found; assumption|].
  rewrite Hu. exact Hlen.
Qed.

Lemma deleteUser_then_getUserById_witness :
  UserService.getUserById inMemory "2"
    (snd (UserService.deleteUser inMemory "2" (seeded boot)))
  = (Return (failure "User not found"),
     snd (UserService.deleteUser inMemory "2" (seeded boot))).
Proof.
  assert (Hnd : NoDup (id <$> users (seeded boot))).
  { apply NoDup_ListNoDup. cbn. repeat constructor; cbn; intuition discriminate. }
  assert (Hrun : UserService.deleteUser inMemory "2" (seeded boot)
                 = (Return (success (mkUser "2" "Jane Smith" "jane@example.com" 2%Z 6%Z)
                                    "User deleted successfully"),
                    snd (UserService.deleteUser inMemory "2" (seeded boot)))).
  { vm_compute. reflexivity. }
  exact (proj1 (deleteUser_then_getUserById "2" (seeded boot) _ _ Hnd Hrun)).
Defined.

(** ** The model: addresses and validators *)

Lemma append_empty (s1 s2 : string) :
  (s1 ++ s2)%string = ""%string -> s1 = ""%string /\ s2 = ""%string.
Proof. destruct s1; [intros H; split; [reflexivity|exact H]|discriminate]. Qed.

Lemma nullable_lang (r : regex) : nullable r = true <-> lang r "".
Proof.
  split.
  - induction r; cbn; intros H; try discriminate H.
    + constructor.
    + apply andb_true_iff in H as [H1 H2].
      change ""%string with (""%string ++ ""%string)%string.
      constructor; auto.
    + apply orb_true_iff in H as [H|H]; [apply lang_alt_l|apply lang_alt_r]; auto.
    + constructor.
  - intros H. remember ""%string as s eqn:Hs.
    induction H; cbn; try reflexivity; try discriminate Hs.
    + apply append_empty in Hs as [-> ->]. rewrite IHlang1, IHlang2; reflexivity.
    + rewrite IHlang by assumption. reflexivity.
    + rewrite IHlang by assumption. apply orb_true_r.
Qed.

Lemma deriv_sound (c : ascii) (r : regex) (s : string) :
  lang (deriv c r) s -> lang r (String c s).
Proof.
  revert s. induction r; cbn; intros s H.
  - inversion H.
  - inversion H.
  - destruct (p c) eqn:Hp; inversion H; subst. constructor. exact Hp.
  - destruct (nullable r1) eqn:Hn.
    + inversion H; subst.
      * match goal with Hs : lang (ReSeq _ _) _ |- _ => inversion Hs; subst end.
        change (String c (s1 ++ s2)%string) with (String c s1 ++ s2)%string.
        constructor; auto.
      * change (String c s) with (""%string ++ String c s)%string.
        constructor; [apply nullable_lang, Hn|auto].
    + inversion H; subst.
      change (String c (s1 ++ s2)%string) with (String c s1 ++ s2)%string.
      constructor; auto.
  - inversion H; subst; [apply lang_alt_l|apply lang_alt_r]; auto.
  - inversion H; subst.
    change (String c (s1 ++ s2)%string) with (String c s1 ++ s2)%string.
    constructor; auto.
Qed.

Lemma deriv_complete (c : ascii) (r : regex) (s : string) :
  lang r (String c s) -> lang (deriv c r) s.
Proof.
  intros H. remember (String c s) as t eqn:Ht. revert s Ht.
  induction H; intros rest Ht; cbn.
  - discriminate Ht.
  - injection Ht as -> <-. rewrite H. constructor.
  - destruct s1 as [|c1 s1'].
    + change (s2 = String c rest) in Ht. subst s2.
      rewrite (proj2 (nullable_lang r1) H). apply lang_alt_r. auto.
    + change (String c1 (s1' ++ s2)%string = String c rest) in Ht.
      injection Ht as -> <-.
      assert (Hd : lang (ReSeq (deriv c r1) r2) (s1' ++ s2)%string)
        by (constructor; auto).
      destruct (nullable r1); [apply lang_alt_l|]; exact Hd.
  - apply lang_alt_l. auto.
  - apply lang_alt_r. auto.
  - discriminate Ht.
  - destruct s1 as [|c1 s1'].
    + change (s2 = String c rest) in Ht. apply IHlang2 in Ht. exact Ht.
    + change (String c1 (s1' ++ s2)%string = String c rest) in Ht.
      injection Ht as -> <-. constructor; auto.
Qed.

(** Matching by derivatives decides membership. *)
Lemma matches_lang (r : regex) (s : string) : matches r s = true <-> lang r s.
Proof.
  revert r. induction s as [|c s IH]; intros r; cbn.
  - apply nullable_lang.
  - rewrite IH. split; [apply deriv_sound|apply deriv_complete].
Qed.

Lemma every_app (p : ascii -> bool) (s1 s2 : string) :
  every p (s1 ++ s2)%string = every p s1 && every p s2.
Proof.
  induction s1 as [|c s1 IH]; [reflexivity|].
  change (p c && every p (s1 ++ s2)%string = p c && every p s1 && every p s2).
  rewrite IH. apply andb_assoc.
Qed.

Lemma lang_star_class (p : ascii -> bool) (s : string) :
  lang (ReStar (ReClass p)) s <-> every p s = true.
Proof.
  split.
  - intros H. remember (ReStar (ReClass p)) as r eqn:Hr.
    induction H; try discriminate Hr; [reflexivity|].
    injection Hr as ->. inversion H; subst.
    rewrite every_app, IHlang2 by reflexivity. cbn.
    match goal with Hp : p _ = true |- _ => rewrite Hp end. reflexivity.
  - induction s as [|c s IH]; cbn; intros H; [constructor|].
    apply andb_true_iff in H as [Hc Hs].
    change (String c s) with (String c "" ++ s)%string.
    constructor; [constructor; exact Hc|auto].
Qed.

Lemma lang_plus_class (p : ascii -> bool) (s : string) :
  lang (RePlus (ReClass p)) s <-> s <> ""%string /\ every p s = true.
Proof.
  unfold RePlus. split.
  - intros H. inversion H; subst.
    match goal with Hc : lang (ReClass _) _ |- _ => inversion Hc; subst end.
    split; [discriminate|]. rewrite every_app. cbn.
    match goal with Hp : p _ = true |- _ => rewrite Hp end.
    apply lang_star_class. assumption.
  - intros [Hne He]. destruct s as [|c s]; [contradiction|].
    cbn in He. apply andb_true_iff in He as [Hc Hs].
    change (String c s) with (String c "" ++ s)%string.
    constructor; [constructor; exact Hc|apply lang_star_class, Hs].
Qed.

Lemma lang_char (c : ascii) (s : string) :
  lang (ReChar c) s <-> s = String c "".
Proof.
  unfold ReChar. split.
  - intros H. inversion H; subst.
    match goal with Hp : Ascii.eqb _ _ = true |- _ => apply Ascii.eqb_eq in Hp as -> end.
    reflexivity.
  - intros ->. constructor. apply Ascii.eqb_refl.
Qed.

(** [isValidEmail] accepts exactly the strings [local@domain.tld] whose
    three parts are not empty and have neither white space nor ["@"] in
    them.  The parts may hold dots themselves, so the split need not be
    unique. *)
Theorem isValidEmail_shape (s : string) :
  UserModel.isValidEmail s = true <->
  exists local_ domain tld : string,
    s = (local_ ++ "@" ++ domain ++ "." ++ tld)%string
    /\ part local_ /\ part domain /\ part tld.
Proof.
  unfold UserModel.isValidEmail, part. rewrite matches_lang.
  unfold UserModel.emailRegex. split.
  - intros H.
    inversion H as [| |? ? a r1 Ha H1| | | |]; subst.
    inversion H1 as [| |? ? at_ r2 Hat H2| | | |]; subst.
    inversion H2 as [| |? ? b r3 Hb H3| | | |]; subst.
    inversion H3 as [| |? ? dot c Hdot Hc| | | |]; subst.
    apply lang_char in Hat as ->. apply lang_char in Hdot as ->.
    apply lang_plus_class in Ha, Hb, Hc.
    exists a, b, c. split; [reflexivity|]. split; [|split]; assumption.
  - intros (a & b & c & -> & Ha & Hb & Hc).
    constructor; [apply lang_plus_class, Ha|].
    change ("@" ++ b ++ "." ++ c)%string with ("@" ++ (b ++ "." ++ c))%string.
    constructor; [apply lang_char; reflexivity|].
    constructor; [apply lang_plus_class, Hb|].
    constructor; [apply lang_char; reflexivity|apply lang_plus_class, Hc].
Qed.

Example isValidEmail_samples :
  UserModel.isValidEmail "a@b.c" = true
  /\ UserModel.isValidEmail "a@b..c" = true
  /\ UserModel.isValidEmail "a@b" = false
  /\ UserModel.isValidEmail "a@b." = false
  /\ UserModel.isValidEmail "a b@c.d" = false
  /\ UserModel.isValidEmail "a@b@c.d" = false.
Proof. vm_compute. repeat split. Qed.

Lemma solid_trimStart (s : string) : solid (trimStart s) = solid s.
Proof.
  induction s as [|c s IH]; [reflexivity|]. cbn.
  destruct (isWhiteSpace c) eqn:Hc; [exact IH|]. cbn. rewrite Hc. reflexivity.
Qed.

Lemma solid_trimEnd (s : string) : solid (trimEnd s) = solid s.
Proof.
  induction s as [|c s IH]; [reflexivity|]. cbn.
  destruct (trimEnd s) as [|k ks].
  - rewrite <- IH. destruct (isWhiteSpace c) eqn:Hc; cbn; rewrite ?Hc; reflexivity.
  - rewrite <- IH. reflexivity.
Qed.

Lemma trimStart_head (s : string) :
  match trimStart s with
  | EmptyString => True
  | String c _ => isWhiteSpace c = false
  end.
Proof.
  induction s as [|c s IH]; [exact I|]. cbn.
  destruct (isWhiteSpace c) eqn:Hc; [exact IH|exact Hc].
Qed.

Lemma trimEnd_last (s : string) :
  trimEnd s = ""%string \/ ends_solid (trimEnd s) = true.
Proof.
  induction s as [|c s IH]; [left; reflexivity|]. cbn.
  destruct (trimEnd s) as [|k ks].
  - destruct (isWhiteSpace c) eqn:Hc; [left; reflexivity|right; cbn; rewrite Hc; reflexivity].
  - right. destruct IH as [IH|IH]; [discriminate IH|exact IH].
Qed.

Lemma trimEnd_head (c : ascii) (s : string) :
  isWhiteSpace c = false -> exists kept, trimEnd (String c s) = String c kept.
Proof.
  intros Hc. cbn. destruct (trimEnd s); rewrite ?Hc; eexists; reflexivity.
Qed.

Lemma solid_le_length (s : string) : (solid s <= String.length s)%nat.
Proof.
  induction s as [|c s IH]; cbn; [lia|]. destruct (isWhiteSpace c); lia.
Qed.

Lemma ends_solid_solid (s : string) : ends_solid s = true -> (1 <= solid s)%nat.
Proof.
  induction s as [|c s IH]; [discriminate|].
  destruct s as [|k ks].
  - cbn. destruct (isWhiteSpace c); [discriminate|lia].
  - intros H. specialize (IH H). cbn in IH |- *. lia.
Qed.

(** What is left by [trim] is as long as two characters exactly when the
    string has two characters that are not white space. *)
Lemma trim_two (s : string) :
  (2 <=? String.length (trim s))%nat = (2 <=? solid s)%nat.
Proof.
  unfold trim.
  pose proof (solid_trimEnd (trimStart s)) as Hs. rewrite solid_trimStart in Hs.
  pose proof (trimStart_head s) as Hh.
  pose proof (trimEnd_last (trimStart s)) as Hl.
  pose proof (solid_le_length (trimEnd (trimStart s))) as Hle.
  destruct (trimStart s) as [|c rest] eqn:Ht.
  - cbn in *. rewrite <- Hs. reflexivity.
  - destruct (trimEnd_head c rest Hh) as [kept Hk]. rewrite Hk in *.
    destruct kept as [|k ks].
    + cbn in Hs. rewrite Hh in Hs. rewrite <- Hs. reflexivity.
    + destruct Hl as [Hl|Hl]; [discriminate Hl|].
      change (ends_solid (String k ks) = true) in Hl.
      apply ends_solid_solid in Hl.
      change (solid (String c (String k ks)))
        with ((if isWhiteSpace c then 0 else 1) + solid (String k ks)) in Hs.
      rewrite Hh in Hs.
      transitivity true; [reflexivity|].
      symmetry. apply Nat.leb_le. lia.
Qed.

Lemma trim_empty (s : string) : truthy (trim s) = negb (solid s =? 0)%nat.
Proof.
  unfold trim.
  pose proof (solid_trimEnd (trimStart s)) as Hs. rewrite solid_trimStart in Hs.
  pose proof (trimStart_head s) as Hh.
  destruct (trimStart s) as [|c rest] eqn:Ht.
  - cbn in *. rewrite <- Hs. reflexivity.
  - destruct (trimEnd_head c rest Hh) as [kept Hk]. rewrite Hk in *.
    cbn in Hs. rewrite Hh in Hs. rewrite <- Hs. reflexivity.
Qed.

(** White space around a name or an id does not count, white space
    inside does not help either: [isValidName] accepts exactly the names
    with two characters that are not white space, and the guard
    [!id?.trim()] of the orchestrator stops exactly the ids without
    any.  So a request with such an id is answered ["User ID is required"]
    by [getUserById], [updateUser] and [deleteUser], whatever the
    repository. *)
Theorem names_and_ids_count_solid_characters (r : Repository) (w : World) :
  (forall n, UserModel.isValidName n = (2 <=? solid n)%nat)
  /\ (forall id_, UserService.blank id_ = (solid id_ =? 0)%nat)
  /\ (forall id_ updateDto,
         solid id_ = 0%nat ->
         UserService.getUserById r id_ w = (Return (failure "User ID is required"), w)
         /\ UserService.updateUser r id_ updateDto w
            = (Return (failure "User ID is required"), w)
         /\ UserService.deleteUser r id_ w
            = (Return (failure "User ID is required"), w)).
Proof.
  assert (Hblank : forall id_, UserService.blank id_ = (solid id_ =? 0)%nat).
  { intros id_. unfold UserService.blank. rewrite trim_empty. apply negb_involutive. }
  split; [intros n; apply trim_two|].
  split; [exact Hblank|].
  intros id_ dto H0.
  assert (Hb : UserService.blank id_ = true) by (rewrite Hblank, H0; reflexivity).
  unfold UserService.getUserById, UserService.updateUser, UserService.deleteUser,
    try_catch.
  rewrite Hb. repeat split.
Qed.

Example isValidName_samples :
  UserModel.isValidName "Al" = true
  /\ UserModel.isValidName "  A  l  " = true
  /\ UserModel.isValidName " A " = false
  /\ UserModel.isValidName "" = false.
Proof. vm_compute. repeat split. Qed.

(** A patch that passes [validateUpdateDto], merged by [UserModel.update]
    into a record whose name and address are valid, leaves fields that
    pass [validateCreateDto]; and for a patch with both fields the two
    validators return the same list. *)
Theorem validated_patch_keeps_a_record_valid
        (existing : User) (updateDto : UpdateUserDto) (w : World) :
  UserModel.isValidName (name existing) = true ->
  UserModel.isValidEmail (email existing) = true ->
  UserModel.validateUpdateDto updateDto = [] ->
  exists u w',
    UserModel.update existing updateDto w = (Return u, w')
    /\ UserModel.validateCreateDto (mkCreateUserDto (name u) (email u)) = []
    /\ id u = id existing /\ createdAt u = createdAt existing
    /\ updatedAt u = clock w (ticks w)
    /\ (forall n e,
           UserModel.validateUpdateDto (mkUpdateUserDto (Some n) (Some e))
           = UserModel.validateCreateDto (mkCreateUserDto n e)).
Proof.
  intros Hn He Hv. apply validateUpdateDto_nil in Hv as [Hpn Hpe].
  eexists. eexists. split; [reflexivity|].
  split.
  { cbn [name email]. apply validateCreateDto_valid.
    - destruct (patch_name updateDto) as [n|]; [apply Hpn; reflexivity|exact Hn].
    - destruct (patch_email updateDto) as [e|]; [apply Hpe; reflexivity|exact He]. }
  do 3 (split; [reflexivity|]).
  intros n e. unfold UserModel.validateUpdateDto, UserModel.validateCreateDto,
    UserModel.present_and_invalid.
  cbn [patch_name patch_email dto_name dto_email].
  destruct (UserModel.isValidName n) eqn:Hvn, (UserModel.isValidEmail e) eqn:Hve;
    rewrite ?(valid_name_truthy _ Hvn), ?(valid_email_truthy _ Hve);
    cbn; rewrite ?orb_true_r; reflexivity.
Qed.

Lemma validated_patch_keeps_a_record_valid_witness :
  exists u w',
    UserModel.update (mkUser "1" "John Doe" "john@example.com" 0%Z 1%Z)
      (mkUpdateUserDto (Some "Jo") None) boot = (Return u, w')
    /\ UserModel.validateCreateDto (mkCreateUserDto (name u) (email u)) = []
    /\ id u = "1"%string /\ createdAt u = 0%Z
    /\ updatedAt u = clock boot (ticks boot)
    /\ (forall n e,
           UserModel.validateUpdateDto (mkUpdateUserDto (Some n) (Some e))
           = UserModel.validateCreateDto (mkCreateUserDto n e)).
Proof.
  apply (validated_patch_keeps_a_record_valid
           (mkUser "1" "John Doe" "john@example.com" 0%Z 1%Z)
           (mkUpdateUserDto (Some "Jo") None) boot);
    vm_compute; reflexivity.
Defined.

(** ** The controller *)

Ltac one_of_the_codes :=
  cbn [In]; repeat first [left; reflexivity | right].

Ltac answers :=
  eexists; eexists; split; [reflexivity|];
  unfold answered; cbn [headers status body UserController.createSuccessResponse
                          UserController.createErrorResponse UserController.json_headers];
  split; [reflexivity|]; split; [one_of_the_codes|]; try split; first [reflexivity | lia].

Ltac handler_of call :=
  destruct call as (result & w' & Hrun);
  unfold bind; rewrite Hrun; unfold UserController.failed;
  destruct (error result) as [[|c e]|]; cbn [truthy];
  repeat match goal with
         | |- context [String.eqb ?a ?b] => destruct (String.eqb a b)
         | |- context [includes ?a ?b] => destruct (includes a b)
         end;
  answers.

(** Whatever repository stands behind it, no handler of the controller
    throws: each answers with a JSON response whose status is one of the
    codes of its route, with an error body that names a non-empty error
    exactly when the status is 400 or more. *)
Theorem handlers_always_answer (r : Repository) (w : World) :
  (exists resp w',
      UserController.getAllUsers r w = (Return resp, w')
      /\ answered [200; 500]%nat resp)
  /\ (exists resp w',
         UserController.getUserStats r w = (Return resp, w')
         /\ answered [200; 500]%nat resp)
  /\ (forall id_,
         exists resp w',
           UserController.getUserById r id_ w = (Return resp, w')
           /\ answered [200; 404; 400]%nat resp)
  /\ (forall body_,
         exists resp w',
           UserController.createUser r body_ w = (Return resp, w')
           /\ answered [201; 409; 400]%nat resp)
  /\ (forall id_ body_,
         exists resp w',
           UserController.updateUser r id_ body_ w = (Return resp, w')
           /\ answered [200; 404; 409; 400]%nat resp)
  /\ (forall id_,
         exists resp w',
           UserController.deleteUser r id_ w = (Return resp, w')
           /\ answered [200; 404; 400]%nat resp)
  /\ (forall offset_ limit_,
         exists resp w',
           UserController.getUsersPaginated r offset_ limit_ w = (Return resp, w')
           /\ answered [200; 400]%nat resp).
Proof.
  destruct (orchestrator_returns r w)
    as (Hall & Hget & Hcreate & Hupdate & Hdelete & Hpage & _ & Hstats).
  split; [unfold UserController.getAllUsers; handler_of Hall|].
  split; [unfold UserController.getUserStats; handler_of Hstats|].
  split; [intros id_; unfold UserController.getUserById; handler_of (Hget id_)|].
  split; [intros dto; unfold UserController.createUser; handler_of (Hcreate dto)|].
  split; [intros id_ dto; unfold UserController.updateUser;
          handler_of (Hupdate id_ dto)|].
  split; [intros id_; unfold UserController.deleteUser; handler_of (Hdelete id_)|].
  intros o l. unfold UserController.getUsersPaginated.
  destruct (parseInt o) as [offsetNum|]; [|answers].
  destruct (parseInt l) as [limitNum|]; [|answers].
  handler_of (Hpage offsetNum limitNum).
Qed.

Lemma validateCreateDto_cases (dto : CreateUserDto) :
  UserModel.validateCreateDto dto = []
  \/ In (UserModel.validateCreateDto dto) validation_errors.
Proof.
  unfold UserModel.validateCreateDto, validation_errors.
  destruct (negb (truthy (dto_name dto)) || negb (UserModel.isValidName (dto_name dto)));
    destruct (negb (truthy (dto_email dto))
              || negb (UserModel.isValidEmail (dto_email dto)));
    cbn; auto.
Qed.

Lemma validateUpdateDto_cases (dto : UpdateUserDto) :
  UserModel.validateUpdateDto dto = []
  \/ In (UserModel.validateUpdateDto dto) validation_errors.
Proof.
  unfold UserModel.validateUpdateDto, validation_errors.
  destruct (UserModel.present_and_invalid UserModel.isValidName (patch_name dto));
    destruct (UserModel.present_and_invalid UserModel.isValidEmail (patch_email dto));
    cbn; auto.
Qed.

(** The text of a failed validation is not empty, is not the text of a
    missing record and does not speak of a conflict. *)
Lemma validation_text (errs : list string) :
  In errs validation_errors ->
  truthy (join ", " errs) = true
  /\ String.eqb (join ", " errs) "User not found" = false
  /\ includes (join ", " errs) "already exists" = false.
Proof.
  intros [<-|[<-|[<-|[]]]]; vm_compute; repeat split.
Qed.

Lemma createUser_invalid (r : Repository) (dto : CreateUserDto) (w : World) :
  UserModel.validateCreateDto dto <> [] ->
  UserService.createUser r dto w
  = (Return (failure (join ", " (UserModel.validateCreateDto dto))), w).
Proof.
  intros Hv. unfold UserService.createUser, try_catch.
  destruct (UserModel.validateCreateDto dto); [contradiction|reflexivity].
Qed.

(** The handler [createUser] of the controller, over the in-memory
    store: 400 when a field fails validation, 409 when validation passes
    and a record has the address, 201 otherwise.  Under 201 the body
    holds the new record and the store has grown by it; under the other
    codes the store is as it was.  (This is the handler as it is called:
    what the route puts in front of it, the key and the schema of the
    body, is not part of it.) *)
Theorem createUser_handler_status (body_ : CreateUserDto) (w : World) :
  exists resp w',
    UserController.createUser inMemory body_ w = (Return resp, w')
    /\ status resp
       = match UserModel.validateCreateDto body_,
               List.find (has_email (dto_email body_)) (users w) with
         | _ :: _, _ => 400%nat
         | [], Some _ => 409%nat
         | [], None => 201%nat
         end
    /\ (status resp = 201%nat ->
        exists u,
          body resp = SuccessBody (Some (data_user u)) (Some "User created successfully")
          /\ name u = dto_name body_ /\ email u = dto_email body_
          /\ users w' = users w ++ [with_updatedAt u (clock w (S (ticks w)))])
    /\ (status resp <> 201%nat -> users w' = users w).
Proof.
  unfold UserController.createUser, bind.
  destruct (validateCreateDto_cases body_) as [Hv|Hv].
  - rewrite Hv.
    destruct (List.find (has_email (dto_email body_)) (users w)) as [owner|] eqn:Hf.
    + rewrite (createUser_duplicate body_ w owner Hv Hf).
      eexists. eexists. split; [reflexivity|].
      split; [reflexivity|]. split; [discriminate|]. reflexivity.
    + destruct (broadcastUserEvent_frame
                  (mkUserEvent created
                     (with_updatedAt
                        (mkUser (uuids w (draws w)) (dto_name body_) (dto_email body_)
                                (clock w (ticks w)) (clock w (S (ticks w))))
                        (clock w (S (S (ticks w))))))
                  (tick (set_users
                           (users w ++ [mkUser (uuids w (draws w)) (dto_name body_)
                                               (dto_email body_) (clock w (ticks w))
                                               (clock w (S (ticks w)))])
                           (tick (tick (draw w))))))
        as (w2 & Hrun & Hu & _).
      rewrite (createUser_accepted body_ w w2 Hv Hf Hrun).
      eexists. eexists. split; [reflexivity|].
      split; [reflexivity|]. split; [|intros H; contradiction H; reflexivity].
      intros _. eexists. split; [reflexivity|].
      split; [reflexivity|]. split; [reflexivity|]. exact Hu.
  - destruct (validation_text _ Hv) as (Ht & _ & Hi).
    rewrite createUser_invalid
      by (intros H; rewrite H in Hv; cbn in Hv; intuition discriminate).
    unfold UserController.failed. cbn [error failure]. rewrite Ht, Hi.
    eexists. eexists. split; [reflexivity|].
    destruct (UserModel.validateCreateDto body_);
      [cbn in Hv; exfalso; intuition discriminate|].
    split; [reflexivity|]. split; [discriminate|]. reflexivity.
Qed.

(** The handler [updateUser] of the controller, over the in-memory
    store: 400 for a blank id or a field that fails validation, then 404
    when no record has the id, then 409 when the address of the patch
    belongs to another record, 200 otherwise.  Under 200 the body holds
    the merged record; under the other codes the store is as it was.
    (The key and the schema that the route puts in front of the handler
    are not part of it.) *)
Theorem updateUser_handler_status (id_ : string) (body_ : UpdateUserDto) (w : World) :
  exists resp w',
    UserController.updateUser inMemory id_ body_ w = (Return resp, w')
    /\ status resp
       = (if UserService.blank id_ then 400%nat
          else match UserModel.validateUpdateDto body_,
                     List.find (has_id id_) (users w) with
               | _ :: _, _ => 400%nat
               | [], None => 404%nat
               | [], Some _ =>
                   if taken_by_other id_ body_ (users w) then 409%nat else 200%nat
               end)
    /\ (status resp = 200%nat ->
        exists found,
          List.find (has_id id_) (users w) = Some found
          /\ body resp
             = SuccessBody
                 (Some (data_user
                          (with_updatedAt (merged found body_ (clock w (ticks w)))
                                          (clock w (S (ticks w))))))
                 (Some "User updated successfully")
          /\ In (merged found body_ (clock w (ticks w))) (users w'))
    /\ (status resp <> 200%nat -> users w' = users w).
Proof.
  unfold UserController.updateUser, bind.
  destruct (UserService.blank id_) eqn:Hb.
  { rewrite (updateUser_blank id_ body_ w Hb).
    eexists. eexists. split; [reflexivity|].
    split; [reflexivity|]. split; [discriminate|]. reflexivity. }
  destruct (validateUpdateDto_cases body_) as [Hv|Hv].
  - rewrite Hv.
    destruct (List.find (has_id id_) (users w)) as [found|] eqn:Hf.
    + destruct (taken_by_other id_ body_ (users w)) eqn:Ht.
      * rewrite (updateUser_conflict id_ body_ w found Hb Hv Hf Ht).
        eexists. eexists. split; [reflexivity|].
        split; [reflexivity|]. split; [discriminate|]. reflexivity.
      * destruct (updateUser_success id_ body_ w found Hb Hv Hf Ht)
          as (index & w2 & Hi & Hat & Hrun & Hu & _).
        rewrite Hrun.
        eexists. eexists. split; [reflexivity|].
        split; [reflexivity|]. split; [|intros H; contradiction H; reflexivity].
        intros _. exists found. split; [reflexivity|]. split; [reflexivity|].
        cbn [snd]. rewrite Hu. apply list_elem_of_In.
        apply list_elem_of_lookup. exists index.
        apply list_lookup_insert_eq. apply lookup_lt_Some in Hat. exact Hat.
    + rewrite (updateUser_not_found id_ body_ w Hb Hv Hf).
      eexists. eexists. split; [reflexivity|].
      split; [reflexivity|]. split; [discriminate|]. reflexivity.
  - destruct (validation_text _ Hv) as (Ht & Hn & Hi).
    rewrite updateUser_invalid
      by (try assumption; intros H; rewrite H in Hv; cbn in Hv; intuition discriminate).
    unfold UserController.failed. cbn [error failure]. rewrite Ht, Hn, Hi.
    eexists. eexists. split; [reflexivity|].
    destruct (UserModel.validateUpdateDto body_);
      [cbn in Hv; exfalso; intuition discriminate|].
    split; [reflexivity|]. split; [discriminate|]. reflexivity.
Qed.

(** The handlers [getUserById] and [deleteUser] of the controller,
    over the in-memory store: 400 for a blank id, 404 when no record has
    the id, 200 otherwise.  [getUserById] never changes the world and
    answers with the first record of that id; [deleteUser] answers with
    that record under a new [updatedAt], its message twice (once inside
    [data]), and removes one record.  (The key that the routes put in
    front of the handlers is not part of them.) *)
Theorem by_id_handlers_status (id_ : string) (w : World) :
  let code :=
    if UserService.blank id_ then 400%nat
    else match List.find (has_id id_) (users w) with
         | None => 404%nat
         | Some _ => 200%nat
         end in
  (exists resp,
      UserController.getUserById inMemory id_ w = (Return resp, w)
      /\ status resp = code
      /\ (status resp = 200%nat ->
          exists found,
            List.find (has_id id_) (users w) = Some found
            /\ body resp
               = SuccessBody (Some (data_user found))
                             (Some "User retrieved successfully")))
  /\ (exists resp w',
         UserController.deleteUser inMemory id_ w = (Return resp, w')
         /\ status resp = code
         /\ (status resp = 200%nat ->
             exists found,
               List.find (has_id id_) (users w) = Some found
               /\ body resp
                  = SuccessBody
                      (Some (data_deleted
                               (Some "User deleted successfully")
                               (Some (with_updatedAt found (clock w (ticks w))))))
                      (Some "User deleted successfully")
               /\ S (length (users w')) = length (users w))
         /\ (status resp <> 200%nat -> w' = w)).
Proof.
  intros code. subst code. split.
  - unfold UserController.getUserById, bind. rewrite getUserById_run.
    destruct (UserService.blank id_).
    { eexists. split; [reflexivity|]. split; [reflexivity|]. discriminate. }
    destruct (List.find (has_id id_) (users w)) as [found|].
    + eexists. split; [reflexivity|]. split; [reflexivity|].
      intros _. exists found. split; reflexivity.
    + eexists. split; [reflexivity|]. split; [reflexivity|]. discriminate.
  - unfold UserController.deleteUser, bind.
    destruct (UserService.blank id_) eqn:Hb.
    { unfold UserService.deleteUser, try_catch. rewrite Hb.
      eexists. eexists. split; [reflexivity|].
      split; [reflexivity|]. split; [discriminate|]. reflexivity. }
    destruct (List.find (has_id id_) (users w)) as [found|] eqn:Hf.
    + destruct (deleteUser_found id_ w found Hb Hf)
        as (w2 & Hrun & (front & target & back & Hbefore & Hafter & _) & _).
      rewrite Hrun.
      eexists. eexists. split; [reflexivity|].
      split; [reflexivity|]. split; [|intros H; contradiction H; reflexivity].
      intros _. exists found. split; [reflexivity|]. split; [reflexivity|].
      cbn [snd]. rewrite Hbefore, Hafter, !length_app. cbn [length]. lia.
    + rewrite (deleteUser_not_found id_ w Hb Hf).
      eexists. eexists. split; [reflexivity|].
      split; [reflexivity|]. split; [discriminate|]. reflexivity.
Qed.

Lemma parse_digits_uint (d : Decimal.uint) (a : nat) :
  parse_digits (NilEmpty.string_of_uint d) (Some (Z.of_nat a))
  = Some (Z.of_nat (Nat.of_uint_acc d a)).
Proof.
  revert a.
  induction d as [|d IHd|d IHd|d IHd|d IHd|d IHd|d IHd|d IHd|d IHd|d IHd|d IHd];
    intros a; cbn [NilEmpty.string_of_uint Nat.of_uint_acc parse_digits];
    [reflexivity|..];
    match goal with
    | |- context [digit_value ?c] =>
        let v := eval vm_compute in (digit_value c) in
        change (digit_value c) with v
    end;
    cbv iota beta; rewrite <- IHd; do 2 f_equal; rewrite Nat.tail_mul_spec; lia.
Qed.

Lemma mathInt_String_of_nat (n : nat) : mathInt (String_of_nat n) = Some (Z.of_nat n).
Proof.
  unfold String_of_nat. rewrite <- (DecimalNat.Unsigned.of_to n) at 2.
  destruct (Nat.to_uint n) as [|d|d|d|d|d|d|d|d|d|d]; [reflexivity|..].
  - exact (parse_digits_uint d 0).
  - exact (parse_digits_uint d 1).
  - exact (parse_digits_uint d 2).
  - exact (parse_digits_uint d 3).
  - exact (parse_digits_uint d 4).
  - exact (parse_digits_uint d 5).
  - exact (parse_digits_uint d 6).
  - exact (parse_digits_uint d 7).
  - exact (parse_digits_uint d 8).
  - exact (parse_digits_uint d 9).
Qed.

(** Below [2 ^ 53] in absolute value an integer is a double. *)
Lemma to_double_exact (z : Z) : (Z.abs z < 2 ^ 53)%Z -> to_double z = z.
Proof.
  intros Hz. unfold to_double, nearest_double.
  destruct (Z.ltb_spec (Z.abs z) (2 ^ 53)) as [_|Hge]; [|lia].
  rewrite Z.mul_comm. apply Z.abs_sgn.
Qed.

(** [parseInt] reads back the decimal text of a natural number below
    [2 ^ 53]. *)
Lemma parseInt_String_of_nat (n : nat) :
  (Z.of_nat n < 2 ^ 53)%Z -> parseInt (String_of_nat n) = Some (Z.of_nat n).
Proof.
  intros Hn. unfold parseInt. rewrite mathInt_String_of_nat. cbn [option_map].
  rewrite to_double_exact by lia. reflexivity.
Qed.

Lemma getUsersPaginated_run (o l : Z) (w : World) :
  UserService.getUsersPaginated inMemory o l w
  = (Return (if (o <? 0)%Z || (l <=? 0)%Z || (100 <? l)%Z
             then failure "Invalid pagination parameters"
             else success (mkPage (slice (users w) o (o + l)) (length (users w)) o l)
                          ("Retrieved "
                           ++ String_of_nat (length (slice (users w) o (o + l)))
                           ++ " of " ++ String_of_nat (length (users w)) ++ " users")),
     w).
Proof.
  unfold UserService.getUsersPaginated, try_catch, bind, Promise_all2.
  destruct ((o <? 0)%Z || (l <=? 0)%Z || (100 <? l)%Z); reflexivity.
Qed.

(** The handler [getUsersPaginated] of the controller, over the
    in-memory store, never changes the world.  It answers 200 exactly
    when [parseInt] reads a number from both parameters, the offset is
    not negative and the limit is between 1 and 100, and 400 otherwise;
    under 200, for an offset below [2 ^ 53], the body holds the at most
    [limit] records from position [offset] on, the size of the store and
    the two numbers.  The decimal text of a natural number below
    [2 ^ 53] is read back as that number.  (What the route puts in front
    of the handler, the key and the schema of the parameters, is not
    part of it.) *)
Theorem getUsersPaginated_handler_status (offset_ limit_ : string) (w : World) :
  exists resp,
    UserController.getUsersPaginated inMemory offset_ limit_ w = (Return resp, w)
    /\ (status resp = 200%nat \/ status resp = 400%nat)
    /\ (status resp = 200%nat <->
        exists o l,
          parseInt offset_ = Some o /\ parseInt limit_ = Some l
          /\ (0 <= o)%Z /\ (0 < l <= 100)%Z)
    /\ (forall o l,
           parseInt offset_ = Some o -> parseInt limit_ = Some l ->
           (0 <= o < 2 ^ 53)%Z -> (0 < l <= 100)%Z ->
           exists text,
             body resp
             = SuccessBody
                 (Some (data_page
                          (mkPage (take (Z.to_nat l) (drop (Z.to_nat o) (users w)))
                                  (length (users w)) o l)))
                 (Some text))
    /\ (forall n : nat,
           (Z.of_nat n < 2 ^ 53)%Z ->
           parseInt (String_of_nat n) = Some (Z.of_nat n)).
Proof.
  unfold UserController.getUsersPaginated.
  destruct (parseInt offset_) as [o|].
  2:{ eexists. split; [reflexivity|]. split; [right; reflexivity|].
      split; [|split; [|exact parseInt_String_of_nat]].
      - split; [discriminate|]. intros (? & ? & H & _). discriminate H.
      - intros ? ? H. discriminate H. }
  destruct (parseInt limit_) as [l|].
  2:{ eexists. split; [reflexivity|]. split; [right; reflexivity|].
      split; [|split; [|exact parseInt_String_of_nat]].
      - split; [discriminate|]. intros (? & ? & _ & H & _). discriminate H.
      - intros ? ? _ H. discriminate H. }
  unfold bind. rewrite getUsersPaginated_run.
  destruct ((o <? 0)%Z || (l <=? 0)%Z || (100 <? l)%Z) eqn:Hr.
  - eexists. split; [reflexivity|]. split; [right; reflexivity|].
    split; [|split; [|exact parseInt_String_of_nat]].
    + split; [discriminate|]. intros (o' & l' & [= <-] & [= <-] & Ho & Hl).
      exfalso. apply orb_true_iff in Hr as [Hr|Hr];
        [apply orb_true_iff in Hr as [Hr|Hr]|]; lia.
    + intros o' l' [= <-] [= <-] Ho Hl.
      exfalso. apply orb_true_iff in Hr as [Hr|Hr];
        [apply orb_true_iff in Hr as [Hr|Hr]|]; lia.
  - apply orb_false_iff in Hr as [Hr Hl100]. apply orb_false_iff in Hr as [Ho Hl0].
    eexists. split; [reflexivity|]. split; [left; reflexivity|].
    split; [|split; [|exact parseInt_String_of_nat]].
    + split; [intros _|reflexivity]. exists o, l.
      split; [reflexivity|]. split; [reflexivity|]. lia.
    + intros o' l' [= <-] [= <-] Hob Hlb.
      eexists. cbn [body UserController.createSuccessResponse option_map data success
                    message truthy].
      rewrite slice_drop_take by lia. reflexivity.
Qed.

Example parseInt_samples :
  parseInt "12abc" = Some 12%Z
  /\ parseInt "  7" = Some 7%Z
  /\ parseInt "-3" = Some (-3)%Z
  /\ parseInt "+5" = Some 5%Z
  /\ parseInt "1e3" = Some 1%Z
  /\ parseInt "abc" = None
  /\ parseInt "" = None
  /\ parseInt "-" = None.
Proof. vm_compute. repeat split. Qed.

(** From [2 ^ 53 + 1] on the number read is the nearest double. *)
Example parseInt_rounds :
  parseInt "9007199254740993" = Some 9007199254740992%Z
  /\ parseInt "9007199254740995" = Some 9007199254740996%Z
  /\ parseInt "-9007199254740993" = Some (-9007199254740992)%Z
  /\ parseInt "100000000000000000000000" = Some 99999999999999991611392%Z.
Proof. vm_compute. repeat split. Qed.

Example getUsersPaginated_reads_a_lenient_limit :
  fst (UserController.getUsersPaginated inMemory "1" "2 per page" (seeded boot))
  = Return (mkResponse 200 [("Content-Type", "application/json")]
              (SuccessBody
                 (Some (data_page
                          (mkPage [ mkUser "2" "Jane Smith" "jane@example.com" 2%Z 3%Z;
                                    mkUser "3" "Alex Johnson" "alex@example.com" 4%Z 5%Z ]
                                  3 1%Z 2%Z)))
                 (Some "Retrieved 2 of 3 users"))).
Proof. vm_compute. reflexivity. Qed.

(** When the repository behind the orchestrator throws inside
    [createUser] or [updateUser], the status of the answer is chosen by
    the text that the orchestrator reports for the thrown value alone:
    409 when it has ["already exists"] in it, 404 for an update when it is
    ["User not found"], 400 otherwise; and when that text is empty, as
    for an [Error] without a message, the answer is a success, 201 or 200,
    without data. *)
Theorem thrown_text_chooses_the_status (r : Repository) (w w1 : World) (t : Thrown) :
  (forall body_,
      UserModel.validateCreateDto body_ = [] ->
      repo_create r body_ w = (Throw t, w1) ->
      UserController.createUser r body_ w
      = (Return (answer_to_failure (report "Failed to create user" t)
                   status_of_create_error 201),
         emit (LoggedError "Error creating user:" t) w1))
  /\ (forall id_ body_ w0 existing,
         UserService.blank id_ = false ->
         UserModel.validateUpdateDto body_ = [] ->
         repo_findById r id_ w = (Return (Some existing), w0) ->
         repo_update r id_ body_ w0 = (Throw t, w1) ->
         UserController.updateUser r id_ body_ w
         = (Return (answer_to_failure (report "Failed to update user" t)
                      status_of_update_error 200),
            emit (LoggedError "Error updating user:" t) w1)).
Proof.
  split.
  - intros dto Hv Hc. unfold UserController.createUser, bind.
    rewrite (createUser_thrown r dto w w1 t Hv Hc).
    unfold UserController.failed, answer_to_failure. cbn [error failure].
    destruct (report "Failed to create user" t) as [|c e]; reflexivity.
  - intros id_ dto w0 existing Hb Hv Hf Hc. unfold UserController.updateUser, bind.
    rewrite (updateUser_thrown_by_update r id_ dto w w0 w1 existing t Hb Hv Hf Hc).
    unfold UserController.failed, answer_to_failure. cbn [error failure].
    destruct (report "Failed to update user" t) as [|c e]; reflexivity.
Qed.

Example an_error_without_message_is_answered_201 :
  fst (UserController.createUser silent_backend
         (mkCreateUserDto "Ann Lee" "ann@x.com") (seeded boot))
  = Return (mkResponse 201 [("Content-Type", "application/json")]
              (SuccessBody None None))
  /\ users (snd (UserController.createUser silent_backend
                   (mkCreateUserDto "Ann Lee" "ann@x.com") (seeded boot)))
     = users (seeded boot)
  /\ fst (UserController.updateUser silent_backend "1"
            (mkUpdateUserDto (Some "Jo") None) (seeded boot))
     = Return (mkResponse 200 [("Content-Type", "application/json")]
                 (SuccessBody None None)).
Proof. vm_compute. repeat split. Qed.
